(** * RVU-Calculator: the CMS table parsers and the multi-year timeline builder

    A shallow embedding of [scripts/parse_cms_data.py] (header normalisation,
    column resolution, the GPCI header-row locator, the RVU and GPCI row
    loops), of [scripts/build_rvu_timeline.py] (the range of years, snapshot
    validation, the tolerance comparison and the per-code status loop of
    [main]) and of the row loop of [scripts/process_all_rvu_data.py],
    followed by the properties the specification states about them and by
    further properties of the code.

    Conventions of the embedding.
    - Python [str] values are [string]s; the character functions below agree
      with Python's on ASCII text.
    - Python [float] values are binary64 numbers: the kernel's primitive
      [float], with Python's [abs], [-], [<=], [==] and [math.isfinite] being
      [abs], [sub], [leb], [eqb] and [is_finite].
    - A [dict] used as a map is a [gmap]; a [dict] that is iterated (a JSON
      object read from a snapshot file) is the list of its items in order.
    - A Python exception that ends the run is the result [None]. *)

From Stdlib Require Import ZArith String Ascii Floats Lia.
From Stdlib Require Import DecimalString DecimalZ.
From stdpp Require Import base option list gmap strings sorting.
From Stdlib Require QArith Qabs.

Set Warnings "-inexact-float,-register-all".
Open Scope string_scope.

(** ** Python string primitives *)

Module PyStr.

Definition code (c : ascii) : nat := nat_of_ascii c.

Definition in_range (lo hi : nat) (c : ascii) : bool :=
  (lo <=? code c)%nat && (code c <=? hi)%nat.

(** [0-9], [a-z], [A-Z]. *)
Definition is_digit (c : ascii) : bool := in_range 48 57 c.
Definition is_lower (c : ascii) : bool := in_range 97 122 c.
Definition is_upper (c : ascii) : bool := in_range 65 90 c.
Definition is_alpha (c : ascii) : bool := is_lower c || is_upper c.

(** [str.isspace] on one character: tab to carriage return, the four
    separators 0x1c-0x1f and the space. *)
Definition is_space (c : ascii) : bool :=
  in_range 9 13 c || in_range 28 32 c.

Definition lower_char (c : ascii) : ascii :=
  if is_upper c then ascii_of_nat (code c + 32) else c.

Definition upper_char (c : ascii) : ascii :=
  if is_lower c then ascii_of_nat (code c - 32) else c.

Fixpoint map_chars (f : ascii -> ascii) (s : string) : string :=
  match s with
  | EmptyString => EmptyString
  | String c s' => String (f c) (map_chars f s')
  end.

(** [s.lower()] and [s.upper()]. *)
Definition lower (s : string) : string := map_chars lower_char s.
Definition upper (s : string) : string := map_chars upper_char s.

(** [re.sub(r'[^...]', '', s)]: the characters of [s] that [keep] accepts,
    in order. *)
Fixpoint keep_chars (keep : ascii -> bool) (s : string) : string :=
  match s with
  | EmptyString => EmptyString
  | String c s' =>
      if keep c then String c (keep_chars keep s') else keep_chars keep s'
  end.

Fixpoint all_chars (p : ascii -> bool) (s : string) : bool :=
  match s with
  | EmptyString => true
  | String c s' => p c && all_chars p s'
  end.

Definition is_empty (s : string) : bool :=
  match s with EmptyString => true | _ => false end.

(** [s.isdigit()] and [s.isalpha()]: false on the empty string. *)
Definition isdigit (s : string) : bool := negb (is_empty s) && all_chars is_digit s.
Definition isalpha (s : string) : bool := negb (is_empty s) && all_chars is_alpha s.

Fixpoint lstrip (s : string) : string :=
  match s with
  | EmptyString => EmptyString
  | String c s' => if is_space c then lstrip s' else s
  end.

Fixpoint rstrip (s : string) : string :=
  match s with
  | EmptyString => EmptyString
  | String c s' =>
      let r := rstrip s' in
      if is_empty r && is_space c then EmptyString else String c r
  end.

(** [s.strip()]. *)
Definition strip (s : string) : string := rstrip (lstrip s).

(** [s.startswith(p)]. *)
Fixpoint startswith (s p : string) {struct p} : bool :=
  match p with
  | EmptyString => true
  | String c p' =>
      match s with
      | EmptyString => false
      | String d s' => Ascii.eqb c d && startswith s' p'
      end
  end.

(** [a in b] on strings: [a] occurs in [b] as a contiguous block. *)
Fixpoint contains (b a : string) : bool :=
  startswith b a ||
  match b with
  | EmptyString => false
  | String _ b' => contains b' a
  end.

(** [s.split(ch, 1)] when [ch] occurs in [s]: what precedes its first
    occurrence and what follows it. [None] when [ch] does not occur. *)
Fixpoint split_first (ch : ascii) (s : string) : option (string * string) :=
  match s with
  | EmptyString => None
  | String c s' =>
      if Ascii.eqb c ch then Some (EmptyString, s')
      else match split_first ch s' with
           | Some (a, b) => Some (String c a, b)
           | None => None
           end
  end.

(** [x in (a, b, ...)] on strings. *)
Definition one_of (x : string) (l : list string) : bool :=
  existsb (String.eqb x) l.

(** [str(n)] for an [int]. *)
Definition str_of_int (z : Z) : string := NilEmpty.string_of_int (Z.to_int z).

End PyStr.

(** ** Python number conversions *)

Module PyNum.
Import PyStr.

Definition zero : float := 0%float.

(** [float(n)] for an [int]: the nearest binary64 value, ties to even;
    [None] is [OverflowError]. *)
Definition float_of_int (z : Z) : option float :=
  match binary_normalize prec emax z 0 false with
  | S754_infinity _ => None
  | sf => Some (SF2Prim sf)
  end.

(** [int(x)] for a [float]: truncation towards zero; [None] is the
    [OverflowError] or [ValueError] raised on an infinity or a NaN. *)
Definition int_of_float (x : float) : option Z :=
  match Prim2SF x with
  | S754_zero _ => Some 0%Z
  | S754_finite s m e =>
      let mag := if (0 <=? e)%Z then (Z.pos m * 2 ^ e)%Z
                 else (Z.pos m / 2 ^ (- e))%Z in
      Some (if s then (- mag)%Z else mag)
  | S754_infinity _ | S754_nan => None
  end.

(** The binary64 value nearest to [num / den] (ties to even), for
    [0 <= num] and [0 < den]: the quotient is taken with 1200 extra binary
    digits and a sticky last digit, then rounded once. *)
Definition float_of_ratio (num den : Z) : float :=
  let scaled := (num * 2 ^ 1200)%Z in
  let q := (scaled / den)%Z in
  let sticky := if (scaled mod den =? 0)%Z then 0%Z else 1%Z in
  SF2Prim (binary_normalize prec emax (2 * q + sticky) (-1201) false).

(** Underscores of a numeric literal: each one stands between two digits.
    [None] when one does not; otherwise the text without them. *)
Fixpoint drop_underscores (prev : option ascii) (s : string) : option string :=
  let prev_digit := match prev with Some p => is_digit p | None => false end in
  let prev_under := match prev with Some p => Ascii.eqb p "_" | None => false end in
  match s with
  | EmptyString => if prev_under then None else Some EmptyString
  | String c s' =>
      if Ascii.eqb c "_" then
        if prev_digit then drop_underscores (Some c) s' else None
      else if prev_under && negb (is_digit c) then None
      else option_map (String c) (drop_underscores (Some c) s')
  end.

(** Leading digits of [s]: their value continued from [acc], how many there
    are, and the rest of [s]. *)
Fixpoint read_digits (acc : Z) (n : nat) (s : string) : Z * nat * string :=
  match s with
  | String c s' =>
      if is_digit c
      then read_digits (10 * acc + Z.of_nat (code c - 48))%Z (S n) s'
      else (acc, n, s)
  | EmptyString => (acc, n, s)
  end.

Definition read_sign (s : string) : bool * string :=
  match s with
  | String "-" s' => (true, s')
  | String "+" s' => (false, s')
  | _ => (false, s)
  end.

(** The exponent part: empty, or [e] or [E], an optional sign and at least
    one digit, up to the end of the text. *)
Definition read_exponent (s : string) : option Z :=
  match s with
  | EmptyString => Some 0%Z
  | String c s' =>
      if Ascii.eqb c "e" || Ascii.eqb c "E" then
        let '(neg, s1) := read_sign s' in
        let '(v, n, rest) := read_digits 0 0 s1 in
        if (0 <? n)%nat && is_empty rest
        then Some (if neg then (- v)%Z else v)
        else None
      else None
  end.

(** The blanks that [int] and [float] pass over at either end of a text:
    tab to carriage return, and the space. The separators 0x1c-0x1f, which
    [str.strip] removes, are not among them. *)
Definition is_blank (c : ascii) : bool :=
  in_range 9 13 c || (code c =? 32)%nat.

Fixpoint skip_blanks (s : string) : string :=
  match s with
  | EmptyString => EmptyString
  | String c s' => if is_blank c then skip_blanks s' else s
  end.

Fixpoint drop_blanks_at_end (s : string) : string :=
  match s with
  | EmptyString => EmptyString
  | String c s' =>
      let r := drop_blanks_at_end s' in
      if is_empty r && is_blank c then EmptyString else String c r
  end.

Definition trim (s : string) : string := drop_blanks_at_end (skip_blanks s).

(** [int(s)] for an ASCII [str]; [None] is [ValueError]. Surrounding
    blanks are ignored; a sign may come first; the digits may be separated
    by single underscores. The limit that recent interpreters put on the
    number of digits is left out: a text the model refuses, [int] refuses. *)
Definition int_of_str (s : string) : option Z :=
  match drop_underscores None (trim s) with
  | None => None
  | Some t =>
      let '(neg, body) := read_sign t in
      let '(v, n, rest) := read_digits 0 0 body in
      if (0 <? n)%nat && is_empty rest
      then Some (if neg then (- v)%Z else v)
      else None
  end.

(** An unsigned decimal literal: digits, an optional point and digits, at
    least one digit in all, an optional exponent. *)
Definition read_decimal (s : string) : option float :=
  let '(ip, n1, s1) := read_digits 0 0 s in
  let '(m, n2, s2) :=
    match s1 with
    | String "." s1' => read_digits ip 0 s1'
    | _ => (ip, 0%nat, s1)
    end in
  if (n1 + n2 =? 0)%nat then None
  else
    match read_exponent s2 with
    | None => None
    | Some ex =>
        let e10 := (ex - Z.of_nat n2)%Z in
        Some (if (0 <=? e10)%Z
              then float_of_ratio (m * 10 ^ e10) 1
              else float_of_ratio m (10 ^ (- e10)))
    end.

(** [float(s)] for an ASCII [str]; [None] is [ValueError]. Surrounding
    blanks are ignored; the words inf, infinity and nan are read in any
    case; a literal too large in magnitude gives an infinity. *)
Definition float_of_str (s : string) : option float :=
  match drop_underscores None (trim s) with
  | None => None
  | Some t =>
      let '(neg, body) := read_sign t in
      let word := lower body in
      let magnitude :=
        if String.eqb word "inf" || String.eqb word "infinity" then Some infinity
        else if String.eqb word "nan" then Some nan
        else read_decimal body in
      option_map (fun x => if neg then (- x)%float else x) magnitude
  end.

End PyNum.

(** ** The per-year record shared by both scripts

    The value stored under a procedure code in a per-year snapshot: the
    object with the keys desc, work_rvu, pe_rvu_fac, pe_rvu_nonfac, mp_rvu. *)

Record YearRecord := mkYearRecord {
  desc : string;
  work_rvu : float;
  pe_rvu_fac : float;
  pe_rvu_nonfac : float;
  mp_rvu : float
}.

(** ** scripts/parse_cms_data.py *)

Module ParseCms.
Import PyStr.

(** [re.sub(r'[^a-z0-9]', '', header.lower())] *)
Definition normalize_header (header : string) : string :=
  keep_chars (fun c => is_lower c || is_digit c) (lower header).

(** The inner loop of [find_column]: the headers are visited from position
    [idx] on; a header whose normalised form is empty is passed over. *)
Fixpoint scan_headers (pattern_norm : string) (normalized : list string)
    (idx : nat) : option nat :=
  match normalized with
  | [] => None
  | header :: rest =>
      if is_empty header then scan_headers pattern_norm rest (S idx)
      else if contains header pattern_norm || contains pattern_norm header
      then Some idx
      else scan_headers pattern_norm rest (S idx)
  end.

(** The outer loop of [find_column], over the patterns in the order given. *)
Fixpoint scan_patterns (normalized : list string) (patterns : list string)
    : option nat :=
  match patterns with
  | [] => None
  | pattern :: rest =>
      match scan_headers (normalize_header pattern) normalized 0 with
      | Some idx => Some idx
      | None => scan_patterns normalized rest
      end
  end.

Definition find_column (headers : list string) (patterns : list string)
    : option nat :=
  scan_patterns (map normalize_header headers) patterns.

(** [re.sub(r'[^\d.\-]', '', val)] *)
Definition numeric_char (c : ascii) : bool :=
  is_digit c || Ascii.eqb c "." || Ascii.eqb c "-".

Definition clean_numeric (val : string) : string := keep_chars numeric_char val.

(** [safe_str] of both parsers. *)
Definition safe_str (row : list string) (idx : option nat) : string :=
  match idx with
  | None => ""
  | Some i =>
      match row !! i with
      | None => ""
      | Some cell => strip cell
      end
  end.

(** *** The RVU table *)

Record rvu_columns := mkRvuColumns {
  cpt_idx : nat;
  desc_idx : option nat;
  work_idx : option nat;
  pe_fac_idx : option nat;
  pe_nonfac_idx : option nat;
  mp_idx : option nat
}.

(** The column detection of [parse_rvu_csv]; [None] is the exit taken when
    no code column is found. *)
Definition resolve_rvu_columns (headers : list string) : option rvu_columns :=
  match find_column headers ["cpt"; "hcpcs"; "code"; "cpt/hcpcs"; "cpthcpcs"] with
  | None => None
  | Some c =>
      Some {|
        cpt_idx := c;
        desc_idx := find_column headers ["description"; "desc"; "descriptor"];
        work_idx := find_column headers ["work rvu"; "workrvu"; "work"];
        pe_fac_idx :=
          find_column headers
            ["pe rvu facility"; "perfacility"; "pe fac"; "facility pe"];
        pe_nonfac_idx :=
          find_column headers
            ["pe rvu non-facility"; "pe rvu nonfacility"; "penonfacility";
             "non-facility pe"; "nonfacility pe"];
        mp_idx :=
          find_column headers
            ["mp rvu"; "mprvu"; "malpractice rvu"; "malpractice"; "mp"]
      |}
  end.

Section Rvu.

(** Python's [float] applied to a [str]; [None] stands for [ValueError]. *)
Variable py_float : string -> option float.

(** [safe_float] of [parse_rvu_csv]. *)
Definition rvu_safe_float (row : list string) (idx : option nat) : float :=
  match idx with
  | None => PyNum.zero
  | Some i =>
      match row !! i with
      | None => PyNum.zero
      | Some cell =>
          let val := clean_numeric (strip cell) in
          if is_empty val then PyNum.zero
          else match py_float val with
               | Some x => x
               | None => PyNum.zero
               end
      end
  end.

(** The code under which a data row is stored, when it is stored: the row
    reaches the code column, and the trimmed code is neither empty nor one
    of the header words. *)
Definition rvu_row_code (cols : rvu_columns) (row : list string) : option string :=
  match row !! cpt_idx cols with
  | None => None
  | Some cell =>
      let cpt_code := strip cell in
      if is_empty cpt_code || one_of (lower cpt_code) ["cpt"; "code"; "hcpcs"]
      then None
      else Some cpt_code
  end.

Definition rvu_row_record (cols : rvu_columns) (row : list string) : YearRecord :=
  {| desc := safe_str row (desc_idx cols);
     work_rvu := rvu_safe_float row (work_idx cols);
     pe_rvu_fac := rvu_safe_float row (pe_fac_idx cols);
     pe_rvu_nonfac := rvu_safe_float row (pe_nonfac_idx cols);
     mp_rvu := rvu_safe_float row (mp_idx cols) |}.

(** One turn of the data loop of [parse_rvu_csv]. No operation of the loop
    body raises, so the [except] branch and its counter play no part. *)
Definition rvu_row (cols : rvu_columns) (rvu_data : gmap string YearRecord)
    (row : list string) : gmap string YearRecord :=
  match rvu_row_code cols row with
  | None => rvu_data
  | Some cpt_code => <[cpt_code := rvu_row_record cols row]> rvu_data
  end.

Definition rvu_rows (cols : rvu_columns) (rows : list (list string))
    : gmap string YearRecord :=
  foldl (rvu_row cols) ∅ rows.

(** [parse_rvu_csv] on the rows of the file, the header line first. [None]
    when the file has no line or no code column. *)
Definition parse_rvu_csv (table : list (list string))
    : option (gmap string YearRecord) :=
  match table with
  | [] => None
  | headers :: rows =>
      match resolve_rvu_columns headers with
      | None => None
      | Some cols => Some (rvu_rows cols rows)
      end
  end.

End Rvu.

(** *** The GPCI table: the header-row locator *)

Definition has_gpci_cols (norm_cells : list string) : bool :=
  let has_pw :=
    existsb (fun c => (contains c "pw" || contains c "work") && contains c "gpci")
      norm_cells in
  let has_pe :=
    existsb (fun c => contains c "pe" && contains c "gpci") norm_cells in
  let has_mp :=
    existsb (fun c => (contains c "mp" || contains c "pl" || contains c "malpractice")
                      && contains c "gpci")
      norm_cells in
  has_pw && has_pe && has_mp.

(** The rows the scan does not pass over at once: [row and len(row) >= 3]. *)
Definition wide_enough (row : list string) : bool := (3 <=? length row)%nat.

Definition has_locality_number (cells : list string) : bool :=
  existsb (fun c => startswith c "localitynumber" || one_of c ["localityno"]) cells.

Definition has_locality_name (cells : list string) : bool :=
  existsb (fun c => startswith c "localityname") cells.

(** One position of the merged header. *)
Definition merge_cell (a b : string) : string :=
  let a_clean := strip a in
  let b_clean := strip b in
  if is_empty a_clean || isdigit a_clean
  then (if is_empty b_clean then a_clean else b_clean)
  else a_clean.

Definition merge_rows (row row2 : list string) : list string :=
  let width := Nat.max (length row) (length row2) in
  map (fun j => merge_cell (default "" (row !! j)) (default "" (row2 !! j)))
      (seq 0 width).

(** The value returned by [extract_gpci_headers]. *)
Record header_info := mkHeaderInfo {
  header_start_index : nat;
  header_line_count : nat;
  headers : list string;
  data_start_index : nat
}.

(** The body of the scan at row [i]: [Some] is a [return], [None] a turn
    that ends without one. *)
Definition scan_row (rows : list (list string)) (scan_limit i : nat)
    : option header_info :=
  match rows !! i with
  | None => None
  | Some row =>
      if negb (wide_enough row) then None
      else
        let cells := map normalize_header row in
        if negb (has_locality_number cells && has_locality_name cells) then None
        else if has_gpci_cols cells then Some (mkHeaderInfo i 1 row (i + 1))
        else if (i + 1 <? scan_limit)%nat then
          match rows !! (i + 1)%nat with
          | None => None
          | Some row2 =>
              if wide_enough row2 && has_gpci_cols (map normalize_header row2)
              then Some (mkHeaderInfo i 2 (merge_rows row row2) (i + 2))
              else None
          end
        else None
  end.

(** A [for] loop left by the first [return]. *)
Fixpoint first_return {A B : Type} (body : A -> option B) (l : list A) : option B :=
  match l with
  | [] => None
  | x :: l' =>
      match body x with
      | Some r => Some r
      | None => first_return body l'
      end
  end.

Definition extract_gpci_headers (rows : list (list string)) (max_scan : nat)
    : option header_info :=
  let scan_limit := Nat.min max_scan (length rows) in
  first_return (scan_row rows scan_limit) (seq 0 scan_limit).

(** *** The GPCI table: state inference *)

(** [re.sub(r'\*+$', '', s)]: [s] without its trailing asterisks. *)
Fixpoint drop_trailing_stars (s : string) : string :=
  match s with
  | EmptyString => EmptyString
  | String c s' =>
      let r := drop_trailing_stars s' in
      if is_empty r && Ascii.eqb c "*" then EmptyString else String c r
  end.

(** [s.rsplit(ch, 1)[-1]] when [ch] occurs in [s]: what follows its last
    occurrence. *)
Fixpoint after_last (ch : ascii) (s : string) : option string :=
  match s with
  | EmptyString => None
  | String c s' =>
      match after_last ch s' with
      | Some t => Some t
      | None => if Ascii.eqb c ch then Some s' else None
      end
  end.

Definition state_by_name : list (string * string) :=
  [ ("ALABAMA", "AL"); ("ALASKA", "AK"); ("ARIZONA", "AZ"); ("ARKANSAS", "AR");
    ("CALIFORNIA", "CA"); ("COLORADO", "CO"); ("CONNECTICUT", "CT");
    ("DELAWARE", "DE"); ("DISTRICT OF COLUMBIA", "DC"); ("FLORIDA", "FL");
    ("GEORGIA", "GA"); ("HAWAII", "HI"); ("IDAHO", "ID"); ("ILLINOIS", "IL");
    ("INDIANA", "IN"); ("IOWA", "IA"); ("KANSAS", "KS"); ("KENTUCKY", "KY");
    ("LOUISIANA", "LA"); ("MAINE", "ME"); ("MARYLAND", "MD");
    ("MASSACHUSETTS", "MA"); ("MICHIGAN", "MI"); ("MINNESOTA", "MN");
    ("MISSISSIPPI", "MS"); ("MISSOURI", "MO"); ("MONTANA", "MT");
    ("NEBRASKA", "NE"); ("NEVADA", "NV"); ("NEW HAMPSHIRE", "NH");
    ("NEW JERSEY", "NJ"); ("NEW MEXICO", "NM"); ("NEW YORK", "NY");
    ("NORTH CAROLINA", "NC"); ("NORTH DAKOTA", "ND"); ("OHIO", "OH");
    ("OKLAHOMA", "OK"); ("OREGON", "OR"); ("PENNSYLVANIA", "PA");
    ("RHODE ISLAND", "RI"); ("SOUTH CAROLINA", "SC"); ("SOUTH DAKOTA", "SD");
    ("TENNESSEE", "TN"); ("TEXAS", "TX"); ("UTAH", "UT"); ("VERMONT", "VT");
    ("VIRGINIA", "VA"); ("WASHINGTON", "WA"); ("WEST VIRGINIA", "WV");
    ("WISCONSIN", "WI"); ("WYOMING", "WY") ].

Fixpoint assoc_get (k : string) (l : list (string * string)) : option string :=
  match l with
  | [] => None
  | (k', v) :: l' => if String.eqb k k' then Some v else assoc_get k l'
  end.

Definition derive_state_from_name (locality_name : string) : string :=
  if is_empty locality_name then ""
  else
    let cleaned := strip (drop_trailing_stars (strip locality_name)) in
    let by_table :=
      let name_upper :=
        strip (keep_chars (fun c => is_upper c || Ascii.eqb c " ") (upper cleaned)) in
      default "" (assoc_get name_upper state_by_name) in
    match after_last "," cleaned with
    | Some rest =>
        let tail := upper (strip rest) in
        if (String.length tail =? 2)%nat && isalpha tail then tail else by_table
    | None => by_table
    end.

(** *** The GPCI table: the data rows *)

Record gpci_columns := mkGpciColumns {
  mac_idx : option nat;
  state_idx : option nat;
  locality_num_idx : nat;
  locality_name_idx : nat;
  work_gpci_idx : nat;
  pe_gpci_idx : nat;
  mp_gpci_idx : nat
}.

(** The column detection of [parse_gpci_csv]; [None] is the exit taken when
    a required column is missing. *)
Definition resolve_gpci_columns (headers : list string) : option gpci_columns :=
  match find_column headers ["locality number"; "locality no"; "locality"],
        find_column headers ["locality name"; "name"],
        find_column headers ["pw gpci"; "work gpci"; "pwgpci"; "workgpci"],
        find_column headers
          ["pe gpci"; "pegpci"; "practice expense gpci"; "practiceexpensegpci"],
        find_column headers
          ["mp gpci"; "mpgpci"; "pl gpci"; "plmgpci"; "malpractice gpci";
           "malpracticegpci"]
  with
  | Some ln, Some lname, Some w, Some p, Some m =>
      Some {|
        mac_idx := find_column headers ["medicare administrative contractor"; "mac"];
        state_idx := find_column headers ["state"];
        locality_num_idx := ln;
        locality_name_idx := lname;
        work_gpci_idx := w;
        pe_gpci_idx := p;
        mp_gpci_idx := m
      |}
  | _, _, _, _, _ => None
  end.

(** A value of the output object of [parse_gpci_csv]. *)
Record gpci_record := mkGpciRecord {
  name : string;
  state : string;
  locality : string;
  work_gpci : float;
  pe_gpci : float;
  mp_gpci : float;
  mac : option string
}.

(** [s.replace('.', '', 1)] *)
Fixpoint remove_first_dot (s : string) : string :=
  match s with
  | EmptyString => EmptyString
  | String c s' => if Ascii.eqb c "." then s' else String c (remove_first_dot s')
  end.

Section Gpci.

Variable py_float : string -> option float.

(** [safe_float] of [parse_gpci_csv]: [None] is Python's [None]. *)
Definition gpci_safe_float (row : list string) (idx : option nat) : option float :=
  match idx with
  | None => None
  | Some i =>
      match row !! i with
      | None => None
      | Some cell =>
          let val := clean_numeric (strip cell) in
          if is_empty val then None else py_float val
      end
  end.

(** The rows the loop passes over as notes or blank lines, before any
    index is read. *)
Definition gpci_non_data (cols : gpci_columns) (row : list string) : bool :=
  let state := match state_idx cols with
               | Some _ => safe_str row (state_idx cols)
               | None => ""
               end in
  let has_state_col := match state_idx cols with Some _ => true | None => false end in
  match row with
  | [] => true
  | _ =>
      is_empty (safe_str row (Some (locality_num_idx cols)))
      || is_empty (safe_str row (Some (locality_name_idx cols)))
      || (has_state_col && is_empty state)
      || (has_state_col && String.eqb (normalize_header state) "state")
  end.

(** [str(int(float(locality_num)))] for a number written in digits with at
    most one point, [locality_num] itself otherwise; [None] when a
    conversion raises. *)
Definition locality_key (locality_num : string) : option string :=
  if isdigit (remove_first_dot locality_num) then
    match py_float locality_num with
    | None => None
    | Some x => option_map str_of_int (PyNum.int_of_float x)
    end
  else Some locality_num.

Definition gpci_row_state (cols : gpci_columns) (row : list string) : string :=
  let state := match state_idx cols with
               | Some _ => safe_str row (state_idx cols)
               | None => ""
               end in
  if is_empty state
  then derive_state_from_name (safe_str row (Some (locality_name_idx cols)))
  else state.

(** The key of a stored row. *)
Definition gpci_row_key (cols : gpci_columns) (row : list string) : option string :=
  let state := gpci_row_state cols row in
  let locality_num := safe_str row (Some (locality_num_idx cols)) in
  let locality_name := safe_str row (Some (locality_name_idx cols)) in
  match locality_key locality_num with
  | None => None
  | Some lk =>
      Some (if is_empty state then locality_name ++ "-" ++ lk
            else state ++ "-" ++ lk)
  end.

Definition gpci_row_mac (cols : gpci_columns) (row : list string) : option string :=
  match mac_idx cols with
  | None => None
  | Some _ =>
      let m := safe_str row (mac_idx cols) in
      if is_empty m then None else Some m
  end.

(** One turn of the data loop of [parse_gpci_csv] on the pair of the output
    object and the skip counter; [None] when the turn raises. *)
Definition gpci_row (cols : gpci_columns)
    (acc : gmap string gpci_record * nat) (row : list string)
    : option (gmap string gpci_record * nat) :=
  let '(gpci_data, skipped) := acc in
  if gpci_non_data cols row then Some acc
  else
    match gpci_safe_float row (Some (work_gpci_idx cols)),
          gpci_safe_float row (Some (pe_gpci_idx cols)),
          gpci_safe_float row (Some (mp_gpci_idx cols))
    with
    | Some w, Some p, Some m =>
        match gpci_row_key cols row with
        | None => None
        | Some key =>
            Some (<[key := {| name := safe_str row (Some (locality_name_idx cols));
                              state := gpci_row_state cols row;
                              locality := safe_str row (Some (locality_num_idx cols));
                              work_gpci := w;
                              pe_gpci := p;
                              mp_gpci := m;
                              mac := gpci_row_mac cols row |}]> gpci_data,
                  skipped)
        end
    | _, _, _ => Some (gpci_data, S skipped)
    end.

(** The data loop, from a given output object and counter. *)
Fixpoint gpci_rows_from (cols : gpci_columns)
    (acc : gmap string gpci_record * nat) (rows : list (list string))
    : option (gmap string gpci_record * nat) :=
  match rows with
  | [] => Some acc
  | row :: rest =>
      match gpci_row cols acc row with
      | None => None
      | Some acc' => gpci_rows_from cols acc' rest
      end
  end.

Definition gpci_rows (cols : gpci_columns) (rows : list (list string))
    : option (gmap string gpci_record * nat) :=
  gpci_rows_from cols (∅, 0%nat) rows.

(** [parse_gpci_csv] on the rows of the file: the output object and the
    number of skipped rows. [None] when no header is detected, a required
    column is missing or a row raises. *)
Definition parse_gpci_csv (rows : list (list string))
    : option (gmap string gpci_record * nat) :=
  match extract_gpci_headers rows 80 with
  | None => None
  | Some info =>
      match resolve_gpci_columns (headers info) with
      | None => None
      | Some cols => gpci_rows cols (drop (data_start_index info) rows)
      end
  end.

End Gpci.

End ParseCms.

(** ** scripts/build_rvu_timeline.py *)

Module Timeline.
Import PyStr.

(** A value read by [json.load]. An object is the list of its items in
    iteration order; its keys are distinct. *)
Inductive json :=
| JNull
| JBool (b : bool)
| JInt (z : Z)
| JFloat (x : float)
| JStr (s : string)
| JArr (l : list json)
| JObj (items : list (string * json)).

(** [k in d] and [d.get(k)] on the items of an object. *)
Fixpoint obj_get (k : string) (items : list (string * json)) : option json :=
  match items with
  | [] => None
  | (k', v) :: rest => if String.eqb k k' then Some v else obj_get k rest
  end.

Definition obj_has (k : string) (items : list (string * json)) : bool :=
  match obj_get k items with Some _ => true | None => false end.

(** Python's truth value of a JSON value. *)
Definition truthy (v : json) : bool :=
  match v with
  | JNull => false
  | JBool b => b
  | JInt z => negb (z =? 0)%Z
  | JFloat x => negb (x =? 0)%float
  | JStr s => negb (is_empty s)
  | JArr l => match l with [] => false | _ => true end
  | JObj items => match items with [] => false | _ => true end
  end.

Definition REQUIRED_RVU_FIELDS : list string :=
  ["desc"; "work_rvu"; "pe_rvu_fac"; "pe_rvu_nonfac"; "mp_rvu"].

Inductive status := New | Existing | Modified.

(** The text written to the status array. *)
Definition status_text (s : status) : string :=
  match s with
  | New => "new"
  | Existing => "existing"
  | Modified => "modified"
  end.

#[export] Instance status_eq_dec : EqDecision status.
Proof. solve_decision. Defined.

Definition _nearly_equal (a b tol : float) : bool :=
  if is_finite a && is_finite b then (abs (a - b) <=? tol)%float
  else (a =? b)%float.

Definition _components_changed (prev cur : YearRecord) (tol : float) : bool :=
  if negb (_nearly_equal (work_rvu prev) (work_rvu cur) tol) then true
  else if negb (_nearly_equal (pe_rvu_fac prev) (pe_rvu_fac cur) tol) then true
  else if negb (_nearly_equal (pe_rvu_nonfac prev) (pe_rvu_nonfac cur) tol) then true
  else if negb (_nearly_equal (mp_rvu prev) (mp_rvu cur) tol) then true
  else false.

(** The value of [--years] with its numbers read: one year, or the two ends
    of a span. *)
Inductive years_arg :=
| OneYear (y : Z)
| YearSpan (start end_ : Z).

(** [None] is the [ValueError] of a span that ends before it starts. *)
Definition _parse_year_range (value : years_arg) : option (list Z) :=
  match value with
  | OneYear y => Some [y]
  | YearSpan start end_ =>
      if (end_ <? start)%Z then None
      else Some (seqZ start (end_ + 1 - start))
  end.

(** The numbers of the text of [--years] as [_parse_year_range] reads
    them: the whole text when it holds no hyphen, else what precedes the
    first hyphen and what follows it. [None] is the [ValueError] of [int]. *)
Definition read_years (value : string) : option years_arg :=
  match split_first "-" value with
  | None => option_map OneYear (PyNum.int_of_str value)
  | Some (start_s, end_s) =>
      match PyNum.int_of_str start_s with
      | None => None
      | Some start => option_map (YearSpan start) (PyNum.int_of_str end_s)
      end
  end.

(** [_parse_year_range] on the text of [--years]. *)
Definition _parse_year_range_text (value : string) : option (list Z) :=
  match read_years value with
  | None => None
  | Some v => _parse_year_range v
  end.

(** A [YearInput] together with the JSON value its file holds. *)
Record YearInput := mkYearInput {
  year : Z;
  raw : json
}.

(** [year_inputs.sort(key=lambda yi: yi.year)]: the sort is stable. *)
Fixpoint insert_by_year (yi : YearInput) (l : list YearInput) : list YearInput :=
  match l with
  | [] => [yi]
  | x :: l' =>
      if (year yi <=? year x)%Z then yi :: l else x :: insert_by_year yi l'
  end.

Definition _build_year_inputs (pairs : list YearInput) : list YearInput :=
  foldr insert_by_year [] pairs.

(** What one item of a snapshot file comes to. *)
Inductive item_outcome :=
| Skipped
| Stored (code : string) (r : YearRecord)
| Raised.

Section Validate.

(** Python's [float] applied to a [str] ([None] stands for [ValueError]),
    and Python's [str] applied to a float, a list or a dict. *)
Variable py_float : string -> option float.
Variable py_repr : json -> string.

(** [None] is the [ValueError] or [OverflowError] that ends the run. *)
Definition _coerce_float (value : json) : option float :=
  match value with
  | JNull => Some PyNum.zero
  | JBool b => Some (if b then 1%float else PyNum.zero)
  | JInt z => PyNum.float_of_int z
  | JFloat x => Some x
  | JStr s => py_float (strip s)
  | JArr _ | JObj _ => None
  end.

(** [str(value)] *)
Definition py_str (value : json) : string :=
  match value with
  | JNull => "None"
  | JBool b => if b then "True" else "False"
  | JInt z => str_of_int z
  | JStr s => s
  | JFloat _ | JArr _ | JObj _ => py_repr value
  end.

(** [str(row.get("desc") or "").strip()] *)
Definition clean_desc (fields : list (string * json)) : string :=
  match obj_get "desc" fields with
  | Some v => if truthy v then strip (py_str v) else ""
  | None => ""
  end.

Definition coerce_field (k : string) (fields : list (string * json)) : option float :=
  _coerce_float (default JNull (obj_get k fields)).

(** The body of the loop of [_validate_year_snapshot] on one item: the item
    is passed over, or a record is stored under a code, or a conversion
    raises. *)
Definition validate_row (item : string * json) : item_outcome :=
  let '(code, row) := item in
  if is_empty (strip code) then Skipped
  else
    match row with
    | JObj fields =>
        if forallb (fun k => obj_has k fields) REQUIRED_RVU_FIELDS then
          match coerce_field "work_rvu" fields, coerce_field "pe_rvu_fac" fields,
                coerce_field "pe_rvu_nonfac" fields, coerce_field "mp_rvu" fields
          with
          | Some w, Some pf, Some pn, Some m =>
              Stored (upper (strip code))
                {| desc := clean_desc fields;
                   work_rvu := w;
                   pe_rvu_fac := pf;
                   pe_rvu_nonfac := pn;
                   mp_rvu := m |}
          | _, _, _, _ => Raised
          end
        else Skipped
    | _ => Skipped
    end.

(** One turn of the loop of [_validate_year_snapshot]. *)
Definition validate_item (cleaned : gmap string YearRecord)
    (item : string * json) : option (gmap string YearRecord) :=
  match validate_row item with
  | Skipped => Some cleaned
  | Stored code r => Some (<[code := r]> cleaned)
  | Raised => None
  end.

Fixpoint validate_items (cleaned : gmap string YearRecord)
    (items : list (string * json)) : option (gmap string YearRecord) :=
  match items with
  | [] => Some cleaned
  | item :: rest =>
      match validate_item cleaned item with
      | None => None
      | Some cleaned' => validate_items cleaned' rest
      end
  end.

Definition _validate_year_snapshot (data : json)
    : option (gmap string YearRecord) :=
  match data with
  | JObj items => validate_items ∅ items
  | _ => None
  end.

(** The loop of [main] that fills [per_year], over the sorted inputs. *)
Fixpoint load_snapshots (per_year : gmap Z (gmap string YearRecord))
    (year_inputs : list YearInput) : option (gmap Z (gmap string YearRecord)) :=
  match year_inputs with
  | [] => Some per_year
  | yi :: rest =>
      match _validate_year_snapshot (raw yi) with
      | None => None
      | Some snapshot => load_snapshots (<[year yi := snapshot]> per_year) rest
      end
  end.

End Validate.

(** [per_year.get(y, {}).get(code)] *)
Definition row_of (per_year : gmap Z (gmap string YearRecord)) (code : string)
    (y : Z) : option YearRecord :=
  match per_year !! y with
  | None => None
  | Some snapshot => snapshot !! code
  end.

Definition all_codes (per_year : gmap Z (gmap string YearRecord)) : gset string :=
  ⋃ ((fun p => dom (snd p)) <$> map_to_list per_year).

(** [{y: i for i, y in enumerate(output_years)}] *)
Fixpoint index_from (i : nat) (output_years : list Z) (acc : gmap Z nat)
    : gmap Z nat :=
  match output_years with
  | [] => acc
  | y :: rest => index_from (S i) rest (<[y := i]> acc)
  end.

Definition years_index (output_years : list Z) : gmap Z nat :=
  index_from 0 output_years ∅.

(** [[y for y in output_years if y in per_year and code in per_year[y]]] *)
Definition present_years (per_year : gmap Z (gmap string YearRecord))
    (code : string) (output_years : list Z) : list Z :=
  filter (fun y => is_Some (row_of per_year code y)) output_years.

Definition canonical_desc_of (per_year : gmap Z (gmap string YearRecord))
    (code : string) (output_years : list Z) : string :=
  match last (present_years per_year code output_years) with
  | None => ""
  | Some latest_year =>
      match row_of per_year code latest_year with
      | Some row => desc row
      | None => ""
      end
  end.

(** The variables of the per-code loop of [main]. *)
Record code_state := mkCodeState {
  work : list (option float);
  pe_fac : list (option float);
  pe_nonfac : list (option float);
  mp : list (option float);
  status_arr : list (option status);
  desc_overrides : gmap string string;
  prev_row : option YearRecord;
  prev_desc : option string
}.

Definition initial_state (n : nat) : code_state :=
  {| work := replicate n None;
     pe_fac := replicate n None;
     pe_nonfac := replicate n None;
     mp := replicate n None;
     status_arr := replicate n None;
     desc_overrides := ∅;
     prev_row := None;
     prev_desc := None |}.

(** The status given to a present year. *)
Definition classify (prev_row : option YearRecord) (prev_desc : option string)
    (row : YearRecord) (tol : float) : status :=
  match prev_row with
  | None => New
  | Some prev =>
      let changed := _components_changed prev row tol in
      let desc_changed := negb (String.eqb (default "" prev_desc) (desc row)) in
      if changed || desc_changed then Modified else Existing
  end.

(** One turn of [for y in output_years] for a code. The index of a year of
    [output_years] is always found in [years_index output_years]; a year
    without a row for the code leaves every variable as it is. *)
Definition year_step (per_year : gmap Z (gmap string YearRecord))
    (code : string) (canonical_desc : string) (tol : float)
    (index : gmap Z nat) (st : code_state) (y : Z) : code_state :=
  match index !! y, row_of per_year code y with
  | Some idx, Some row =>
      let row_desc := desc row in
      {| work := <[idx := Some (work_rvu row)]> (work st);
         pe_fac := <[idx := Some (pe_rvu_fac row)]> (pe_fac st);
         pe_nonfac := <[idx := Some (pe_rvu_nonfac row)]> (pe_nonfac st);
         mp := <[idx := Some (mp_rvu row)]> (mp st);
         status_arr :=
           <[idx := Some (classify (prev_row st) (prev_desc st) row tol)]>
             (status_arr st);
         desc_overrides :=
           if negb (is_empty canonical_desc) && negb (is_empty row_desc)
              && negb (String.eqb row_desc canonical_desc)
           then <[str_of_int y := row_desc]> (desc_overrides st)
           else desc_overrides st;
         prev_row := Some row;
         prev_desc := Some row_desc |}
  | _, _ => st
  end.

(** A value of the [codes] object of the output. *)
Record timeline_entry := mkTimelineEntry {
  entry_desc : string;
  entry_desc_overrides : gmap string string;
  entry_work_rvu : list (option float);
  entry_pe_rvu_fac : list (option float);
  entry_pe_rvu_nonfac : list (option float);
  entry_mp_rvu : list (option float);
  entry_status : list (option status)
}.

Definition run_years (per_year : gmap Z (gmap string YearRecord))
    (output_years : list Z) (tol : float) (code : string) : code_state :=
  foldl (year_step per_year code (canonical_desc_of per_year code output_years)
           tol (years_index output_years))
        (initial_state (length output_years)) output_years.

Definition build_entry (per_year : gmap Z (gmap string YearRecord))
    (output_years : list Z) (tol : float) (code : string) : timeline_entry :=
  let st := run_years per_year output_years tol code in
  {| entry_desc := canonical_desc_of per_year code output_years;
     entry_desc_overrides := desc_overrides st;
     entry_work_rvu := work st;
     entry_pe_rvu_fac := pe_fac st;
     entry_pe_rvu_nonfac := pe_nonfac st;
     entry_mp_rvu := mp st;
     entry_status := status_arr st |}.

(** [codes_out]; the order of its keys (sorted) is not part of the model. *)
Definition build_codes (per_year : gmap Z (gmap string YearRecord))
    (output_years : list Z) (tol : float) : gmap string timeline_entry :=
  set_to_map (fun code => (code, build_entry per_year output_years tol code))
    (all_codes per_year).

(** The command line with its numbers read and its files loaded. *)
Record args := mkArgs {
  arg_year : list YearInput;
  arg_years : years_arg;
  float_tol : float
}.

(** The output object, without the timestamp and the file names. *)
Record timeline := mkTimeline {
  meta_years : list Z;
  meta_total_codes : nat;
  meta_missing_years : list Z;
  codes : gmap string timeline_entry
}.

Section Main.

Variable py_float : string -> option float.
Variable py_repr : json -> string.

Definition per_year_of (pairs : list YearInput)
    : option (gmap Z (gmap string YearRecord)) :=
  load_snapshots py_float py_repr ∅ (_build_year_inputs pairs).

(** [main], up to the output object; [None] is a run that ends on an
    error. *)
Definition main (a : args) : option timeline :=
  match _parse_year_range (arg_years a) with
  | None => None
  | Some output_years =>
      let year_inputs := _build_year_inputs (arg_year a) in
      let input_years := year <$> year_inputs in
      let missing_inputs :=
        filter (fun y => y ∉ input_years) output_years in
      match load_snapshots py_float py_repr ∅ year_inputs with
      | None => None
      | Some per_year =>
          let codes_out := build_codes per_year output_years (float_tol a) in
          Some {| meta_years := output_years;
                  meta_total_codes := size codes_out;
                  meta_missing_years := missing_inputs;
                  codes := codes_out |}
      end
  end.

End Main.

End Timeline.

(** ** scripts/process_all_rvu_data.py

    [process_year], which reads a table by fixed columns; the loop of
    [scripts/fix_rvu_data.py] is the same. *)

Module ProcessAll.
Import PyStr.

Section Year.

(** Python's [float] applied to a [str]; [None] stands for [ValueError]. *)
Variable py_float : string -> option float.

(** [float(cell.strip() or 0)] *)
Definition float_or_zero (cell : string) : option float :=
  let val := strip cell in
  if is_empty val then Some PyNum.zero else py_float val.

(** One turn of the loop of [process_year], on the output object and the
    counter. A row of fewer than eleven cells is passed over, and so is a
    row whose code is blank; a cell that is no number raises [ValueError],
    which the loop catches by dropping the row. The cells read lie within
    the eleven, so the default of the lookups is never used. *)
Definition process_row (acc : gmap string YearRecord * nat) (row : list string)
    : gmap string YearRecord * nat :=
  let '(rvu_data, count) := acc in
  if (length row <? 11)%nat then acc
  else
    let cell := fun i : nat => default "" (row !! i) in
    let cpt_code := strip (cell 0%nat) in
    if is_empty cpt_code then acc
    else
      match float_or_zero (cell 5%nat), float_or_zero (cell 6%nat),
            float_or_zero (cell 8%nat), float_or_zero (cell 10%nat)
      with
      | Some work_rvu, Some pe_nonfac, Some pe_fac, Some mp_rvu =>
          (<[cpt_code := {| desc := strip (cell 2%nat);
                            work_rvu := work_rvu;
                            pe_rvu_fac := pe_fac;
                            pe_rvu_nonfac := pe_nonfac;
                            mp_rvu := mp_rvu |}]> rvu_data,
           S count)
      | _, _, _, _ => acc
      end.

(** [process_year] on the rows of the file: the output object and the
    number it reports as written. The first ten rows are skipped; [None]
    is the [StopIteration] raised when the file has fewer than ten. *)
Definition process_year (table : list (list string))
    : option (gmap string YearRecord * nat) :=
  if (length table <? 10)%nat then None
  else Some (foldl process_row (∅, 0%nat) (drop 10 table)).

End Year.

End ProcessAll.

(** ** scripts/parse_cms_excel.py

    The two readers of a worksheet. The sheet is the list of its rows, each
    the tuple of values that [iter_rows] yields with [values_only=True];
    [iter_rows] with [min_row] and [max_row] gives the rows of that range. *)

Module ParseExcel.
Import PyStr.

(** The value of a cell: none, a text, a whole number, a float, a truth
    value, or an object of another type (a date, a time), of which the code
    uses the truth value and the text only, [float] raising [TypeError]. *)
Inductive cell :=
| CNone
| CStr (s : string)
| CInt (z : Z)
| CFloat (x : float)
| CBool (b : bool)
| COther (truth : bool) (text : string).

(** Python's truth value of a cell. *)
Definition cell_truthy (c : cell) : bool :=
  match c with
  | CNone => false
  | CStr s => negb (is_empty s)
  | CInt z => negb (z =? 0)%Z
  | CFloat x => negb (x =? 0)%float
  | CBool b => b
  | COther truth _ => truth
  end.

(** What [float(val)] comes to: a value, a [ValueError] or [TypeError], or
    the [OverflowError] of a whole number too large. *)
Inductive float_outcome :=
| Read (x : float)
| Unreadable
| TooLarge.

(** The variables of the loop of [parse_rvu_excel]. *)
Record rvu_loop := mkRvuLoop {
  rvu_data : gmap string YearRecord;
  parsed : nat;
  skipped : nat
}.

(** What the search for the header row of [parse_rvu_excel] comes to. *)
Inductive header_search :=
| Found (i : nat)
| NotFound
| Crashed.

Section Excel.

(** Python's [float] applied to a [str] ([None] stands for [ValueError]),
    and Python's [str] applied to a float. *)
Variable py_float : string -> option float.
Variable py_repr : float -> string.

(** [str(cell)] *)
Definition cell_str (c : cell) : string :=
  match c with
  | CNone => "None"
  | CStr s => s
  | CInt z => str_of_int z
  | CFloat x => py_repr x
  | CBool b => if b then "True" else "False"
  | COther _ text => text
  end.

(** [str(cell).strip() if cell else ""] *)
Definition cell_text (c : cell) : string :=
  if cell_truthy c then strip (cell_str c) else "".

(** [float(val)] *)
Definition cell_float (val : cell) : float_outcome :=
  match val with
  | CNone => Unreadable
  | CStr s => match py_float s with Some x => Read x | None => Unreadable end
  | CInt z =>
      match PyNum.float_of_int z with Some x => Read x | None => TooLarge end
  | CFloat x => Read x
  | CBool b => Read (if b then 1%float else PyNum.zero)
  | COther _ _ => Unreadable
  end.

(** [safe_float] of both readers, with the value it falls back on: 0.0 in
    [parse_rvu_excel], 1.0 in [parse_gpci_excel]. [None] is the
    [OverflowError], which [safe_float] does not catch. *)
Definition safe_float (fallback : float) (val : cell) : option float :=
  match val with
  | CNone => Some fallback
  | CStr EmptyString => Some fallback
  | _ =>
      match cell_float val with
      | Read x => Some x
      | Unreadable => Some fallback
      | TooLarge => None
      end
  end.

(** *** The RVU worksheet *)

(** The search for the header row among the rows given: the first row
    whose first cell reads HCPCS. A row without cells raises [IndexError]. *)
Fixpoint rvu_header_from (i : nat) (rows : list (list cell)) : header_search :=
  match rows with
  | [] => NotFound
  | row :: rest =>
      match row with
      | [] => Crashed
      | c :: _ =>
          if cell_truthy c && String.eqb (upper (strip (cell_str c))) "HCPCS"
          then Found i
          else rvu_header_from (S i) rest
      end
  end.

(** One turn of the data loop of [parse_rvu_excel]: the variables after it,
    and whether the loop is left by [break]. The cells read lie within the
    eleven of the row, so the default of the lookups is never used. *)
Definition rvu_excel_row (limit : option Z) (st : rvu_loop) (row : list cell)
    : rvu_loop * bool :=
  if (length row <=? 10)%nat then (st, false)
  else
    let cell_at := fun i : nat => default CNone (row !! i) in
    let cpt_code := cell_text (cell_at 0%nat) in
    if is_empty cpt_code || (10 <? String.length cpt_code)%nat then (st, false)
    else
      match safe_float PyNum.zero (cell_at 5%nat),
            safe_float PyNum.zero (cell_at 6%nat),
            safe_float PyNum.zero (cell_at 8%nat),
            safe_float PyNum.zero (cell_at 10%nat)
      with
      | Some work, Some pe_nonfac, Some pe_fac, Some mp =>
          let st' :=
            {| rvu_data :=
                 <[cpt_code := {| desc := cell_text (cell_at 2%nat);
                                  work_rvu := work;
                                  pe_rvu_fac := pe_fac;
                                  pe_rvu_nonfac := pe_nonfac;
                                  mp_rvu := mp |}]> (rvu_data st);
               parsed := S (parsed st);
               skipped := skipped st |} in
          (st',
           match limit with
           | Some l => negb (l =? 0)%Z && (l <=? Z.of_nat (parsed st'))%Z
           | None => false
           end)
      | _, _, _, _ =>
          ({| rvu_data := rvu_data st;
              parsed := parsed st;
              skipped := S (skipped st) |}, false)
      end.

Fixpoint rvu_excel_rows (limit : option Z) (st : rvu_loop)
    (rows : list (list cell)) : rvu_loop :=
  match rows with
  | [] => st
  | row :: rest =>
      let '(st', stop) := rvu_excel_row limit st row in
      if stop then st' else rvu_excel_rows limit st' rest
  end.

(** [parse_rvu_excel] on the rows of the first sheet. [None] when no header
    row is found among the first twenty rows, or the search raises. *)
Definition parse_rvu_excel (rows : list (list cell)) (limit : option Z)
    : option rvu_loop :=
  match rvu_header_from 0 (take 20 rows) with
  | Found i =>
      Some (rvu_excel_rows limit (mkRvuLoop ∅ 0 0) (drop (S i) rows))
  | NotFound | Crashed => None
  end.

(** *** The GPCI worksheet *)

(** The test of the search for the header row of [parse_gpci_excel]. *)
Definition gpci_header_row (row : list cell) : bool :=
  (2 <? length row)%nat
  && existsb (fun c => cell_truthy c && contains (cell_str c) "State") row.

Fixpoint gpci_header_from (i : nat) (rows : list (list cell)) : option nat :=
  match rows with
  | [] => None
  | row :: rest =>
      if gpci_header_row row then Some i else gpci_header_from (S i) rest
  end.

(** One turn of the data loop of [parse_gpci_excel], on the output object
    and the counter of skipped rows. *)
Definition gpci_excel_row (acc : gmap string ParseCms.gpci_record * nat)
    (row : list cell) : gmap string ParseCms.gpci_record * nat :=
  let '(gpci_data, skipped) := acc in
  if (length row <=? 6)%nat then acc
  else
    let cell_at := fun i : nat => default CNone (row !! i) in
    let state := cell_text (cell_at 1%nat) in
    let locality := cell_text (cell_at 2%nat) in
    let name := cell_text (cell_at 3%nat) in
    if is_empty state || is_empty locality then acc
    else
      match safe_float 1%float (cell_at 4%nat),
            safe_float 1%float (cell_at 5%nat),
            safe_float 1%float (cell_at 6%nat)
      with
      | Some work_gpci, Some pe_gpci, Some mp_gpci =>
          match gpci_data !! state with
          | Some _ => acc
          | None =>
              (<[state := {| ParseCms.name := name;
                             ParseCms.state := state;
                             ParseCms.locality := locality;
                             ParseCms.work_gpci := work_gpci;
                             ParseCms.pe_gpci := pe_gpci;
                             ParseCms.mp_gpci := mp_gpci;
                             ParseCms.mac := None |}]> gpci_data,
               skipped)
          end
      | _, _, _ => (gpci_data, S skipped)
      end.

(** [parse_gpci_excel] on the rows of the first sheet: the output object
    and the number of skipped rows. [None] when no header row is found
    among the first ten rows. *)
Definition parse_gpci_excel (rows : list (list cell))
    : option (gmap string ParseCms.gpci_record * nat) :=
  match gpci_header_from 0 (take 10 rows) with
  | Some i => Some (foldl gpci_excel_row (∅, 0%nat) (drop (S i) rows))
  | None => None
  end.

End Excel.

End ParseExcel.

(** ** Vocabulary of the properties *)

Module Props.
Import PyStr ParseCms Timeline.

(** [a] occurs in [b] as a contiguous block of characters. *)
Definition occurs_in (a b : string) : Prop :=
  exists pre post, b = pre ++ a ++ post.

(** The test of the column resolver on a pattern and a header: the two
    normalised texts, one occurring in the other. *)
Definition substring_either_way (pattern header : string) : Prop :=
  occurs_in (normalize_header pattern) (normalize_header header)
  \/ occurs_in (normalize_header header) (normalize_header pattern).

(** The test together with the guard of the resolver: a header whose
    normalised form is empty resolves nothing. *)
Definition resolves (pattern header : string) : Prop :=
  normalize_header header <> "" /\ substring_either_way pattern header.

(** The normal form of a header in the specification's words: its letters,
    each in lower case, and its digits, in order; every other character is
    left out. The letters and digits are those of the three alphabets. *)
Definition lower_letters : string := "abcdefghijklmnopqrstuvwxyz".
Definition upper_letters : string := "ABCDEFGHIJKLMNOPQRSTUVWXYZ".
Definition digits : string := "0123456789".

Fixpoint position (c : ascii) (alphabet : string) : option nat :=
  match alphabet with
  | EmptyString => None
  | String d rest =>
      if Ascii.eqb c d then Some 0%nat else S <$> position c rest
  end.

Definition normal_char (c : ascii) : option ascii :=
  match position c upper_letters with
  | Some i => String.get i lower_letters
  | None =>
      match position c (lower_letters ++ digits) with
      | Some _ => Some c
      | None => None
      end
  end.

Fixpoint normal_form (header : string) : string :=
  match header with
  | EmptyString => EmptyString
  | String c rest =>
      match normal_char c with
      | Some d => String d (normal_form rest)
      | None => normal_form rest
      end
  end.

(** The cleaning of a numeric cell in the specification's words: the
    digits, the points and the minus signs of the text, in order. *)
Definition digits_points_minus (s : string) : string :=
  string_of_list_ascii
    (List.filter (fun c => existsb (Ascii.eqb c) (list_ascii_of_string "0123456789.-"))
       (list_ascii_of_string s)).

(** The test as the resolver computes it, on the normalised texts. *)
Definition header_hit (pattern_norm header : string) : bool :=
  negb (is_empty header)
  && (contains header pattern_norm || contains pattern_norm header).

(** A row of the GPCI file carries the two locality anchors (and has the
    three cells the scan asks for); a row carries the three index columns. *)
Definition anchored (row : list string) : bool :=
  wide_enough row
  && has_locality_number (map normalize_header row)
  && has_locality_name (map normalize_header row).

Definition indexed (row : list string) : bool :=
  has_gpci_cols (map normalize_header row).

(** Row [i] is a header on one line. *)
Definition single_line_at (rows : list (list string)) (i : nat)
    (row : list string) : Prop :=
  rows !! i = Some row /\ anchored row = true /\ indexed row = true.

(** Rows [i] and [i + 1] are a header on two lines: the anchors on the
    first, the index columns on the second, which lies inside the window
    and has three cells or more. *)
Definition pair_at (rows : list (list string)) (scan_limit i : nat)
    (row row2 : list string) : Prop :=
  rows !! i = Some row /\ anchored row = true /\ indexed row = false
  /\ (i + 1 < scan_limit)%nat /\ rows !! (i + 1)%nat = Some row2
  /\ wide_enough row2 = true /\ indexed row2 = true.

Definition header_at (rows : list (list string)) (scan_limit i : nat) : Prop :=
  (exists row, single_line_at rows i row)
  \/ (exists row row2, pair_at rows scan_limit i row row2).

(** The cell of a row at a position, empty past its end. *)
Definition cell_at (row : list string) (j : nat) : string :=
  default "" (row !! j).

(** A text without blanks at either end, and a text in upper case. *)
Definition trimmed (s : string) : Prop := strip s = s.
Definition upper_cased (s : string) : Prop := upper s = s.

(** Two values of one component agree: within the tolerance when both are
    finite, equal as floats otherwise. *)
Definition within_tolerance (tol a b : float) : Prop :=
  if is_finite a && is_finite b
  then (abs (a - b) <=? tol)%float = true
  else (a =? b)%float = true.

(** The four numeric components of a record. *)
Definition components : list (YearRecord -> float) :=
  [work_rvu; pe_rvu_fac; pe_rvu_nonfac; mp_rvu].

(** Every component of two records agrees. *)
Definition components_agree (tol : float) (prev cur : YearRecord) : Prop :=
  Forall (fun f => within_tolerance tol (f prev) (f cur)) components.


(** Two finite values whose difference, as Python computes it, is at most
    the tolerance; two finite values whose difference exceeds it. *)
Definition differ_at_most (tol a b : float) : Prop :=
  is_finite a = true /\ is_finite b = true /\ (abs (a - b) <=? tol)%float = true.

Definition differ_by_more (tol a b : float) : Prop :=
  is_finite a = true /\ is_finite b = true /\ (tol <? abs (a - b))%float = true.

(** A pair with a value that is not finite, the two being equal or not as
    floats. *)
Definition nonfinite_equal (a b : float) : Prop :=
  is_finite a && is_finite b = false /\ (a =? b)%float = true.

Definition nonfinite_unequal (a b : float) : Prop :=
  is_finite a && is_finite b = false /\ (a =? b)%float = false.

(** Two values of one component differ. For two finite values: their
    difference [abs (a - b)], as binary64 arithmetic gives it, is more than
    the tolerance, or the tolerance is a NaN. For a pair with an infinity or
    a NaN: one of the two is a NaN, or one is less than the other. *)
Definition component_differs (tol a b : float) : Prop :=
  if is_finite a && is_finite b
  then is_nan tol = true \/ (tol <? abs (a - b))%float = true
  else is_nan a = true \/ is_nan b = true
       \/ (a <? b)%float = true \/ (b <? a)%float = true.

Definition a_component_differs (tol : float) (prev cur : YearRecord) : Prop :=
  Exists (fun f => component_differs tol (f prev) (f cur)) components.

(** The number that a finite binary64 value stands for, as a fraction. *)
Definition exact (x : float) : option QArith_base.Q :=
  match Prim2SF x with
  | S754_zero _ => Some (QArith_base.inject_Z 0)
  | S754_finite s m e =>
      Some (QArith_base.Qmult
              (QArith_base.inject_Z (if s then Z.neg m else Z.pos m))
              (QArith_base.Qpower (QArith_base.inject_Z 2) e))
  | S754_infinity _ | S754_nan => None
  end.

(** The numbers that two finite values stand for differ by more than the
    number the tolerance stands for. *)
Definition exactly_more_apart (tol a b : float) : Prop :=
  exists qa qb qt,
    exact a = Some qa /\ exact b = Some qb /\ exact tol = Some qt
    /\ QArith_base.Qlt qt (Qabs.Qabs (QArith_base.Qminus qa qb)).

(** The text recorded in the override map for a present year, when one
    is: the year's description, provided it and the canonical description
    are not empty and differ. *)
Definition override_of (canonical_desc : string) (row : YearRecord)
    : option string :=
  if negb (is_empty canonical_desc) && negb (is_empty (desc row))
     && negb (String.eqb (desc row) canonical_desc)
  then Some (desc row) else None.

(** The years of a list stand in ascending order. *)
Definition ascending (l : list Z) : Prop :=
  forall i j y y', l !! i = Some y -> l !! j = Some y' ->
    ((i < j)%nat <-> (y < y')%Z).

(** The entry of a code that is present in no output year. *)
Definition blank_entry (n : nat) : timeline_entry :=
  {| entry_desc := "";
     entry_desc_overrides := ∅;
     entry_work_rvu := replicate n None;
     entry_pe_rvu_fac := replicate n None;
     entry_pe_rvu_nonfac := replicate n None;
     entry_mp_rvu := replicate n None;
     entry_status := replicate n None |}.

(** An instance of [py_repr] for snapshot files whose descriptions are
    texts or null: the function is then never called. *)
Definition no_repr (v : json) : string := "".

(** Storing what an item comes to, when it comes to a key and a value: the
    shape of the loops that fill a snapshot. *)
Definition store_entry {A V : Type} (entry : A -> option (string * V))
    (m : gmap string V) (x : A) : gmap string V :=
  match entry x with
  | Some (k, v) => <[k := v]> m
  | None => m
  end.

(** What a row of the RVU table stores, and what an item of a snapshot file
    stores. *)
Definition rvu_entry (py_float : string -> option float) (cols : rvu_columns)
    (row : list string) : option (string * YearRecord) :=
  match rvu_row_code cols row with
  | Some code => Some (code, rvu_row_record py_float cols row)
  | None => None
  end.

Definition item_entry (py_float : string -> option float)
    (py_repr : json -> string) (item : string * json)
    : option (string * YearRecord) :=
  match validate_row py_float py_repr item with
  | Stored code r => Some (code, r)
  | _ => None
  end.

(** A numeric cell that is missing or unparseable: the column is not
    resolved, the row ends before it, or the cleaned cell is empty or not
    a number. *)
Definition cell_unusable (py_float : string -> option float)
    (row : list string) (idx : option nat) : Prop :=
  match idx ≫= fun i => row !! i with
  | None => True
  | Some cell =>
      clean_numeric (strip cell) = ""
      \/ py_float (clean_numeric (strip cell)) = None
  end.

(** The numeric fields of a snapshot row, each with the component it
    fills. *)
Definition numeric_fields : list (string * (YearRecord -> float)) :=
  [("work_rvu", work_rvu); ("pe_rvu_fac", pe_rvu_fac);
   ("pe_rvu_nonfac", pe_rvu_nonfac); ("mp_rvu", mp_rvu)].

(** The columns of the RVU table, each with the component it fills. *)
Definition numeric_columns : list ((rvu_columns -> option nat) * (YearRecord -> float)) :=
  [(work_idx, work_rvu); (pe_fac_idx, pe_rvu_fac);
   (pe_nonfac_idx, pe_rvu_nonfac); (mp_idx, mp_rvu)].

(** The numeric arrays of an entry of the output, each with the component
    of a record it holds. *)
Definition numeric_arrays
    : list ((timeline_entry -> list (option float)) * (YearRecord -> float)) :=
  [(entry_work_rvu, work_rvu); (entry_pe_rvu_fac, pe_rvu_fac);
   (entry_pe_rvu_nonfac, pe_rvu_nonfac); (entry_mp_rvu, mp_rvu)].

(** The inputs supplied for a year, in the order of the command line. *)
Definition inputs_of_year (y : Z) (pairs : list YearInput) : list YearInput :=
  filter (fun yi => year yi = y) pairs.

(** The snapshot kept for a year: the validated file of the last input
    supplied for it. The files of the inputs supplied for the year before
    that one are discarded. *)
Definition kept_snapshot (py_float : string -> option float)
    (py_repr : json -> string) (pairs : list YearInput) (y : Z)
    : option (gmap string YearRecord) :=
  last (inputs_of_year y pairs)
    ≫= fun yi => _validate_year_snapshot py_float py_repr (raw yi).

(** A code is held by the file of some supplied input. *)
Definition supplied (py_float : string -> option float)
    (py_repr : json -> string) (pairs : list YearInput) (code : string)
    (y : Z) : Prop :=
  exists yi snapshot,
    yi ∈ pairs /\ year yi = y
    /\ _validate_year_snapshot py_float py_repr (raw yi) = Some snapshot
    /\ is_Some (snapshot !! code).

(** The key of a stored locality, from its record and the text [lk] of its
    locality number: the state when there is one, the name otherwise. *)
Definition record_key (lk : string) (r : gpci_record) : string :=
  if is_empty (state r) then name r ++ "-" ++ lk else state r ++ "-" ++ lk.

(** What holds of a locality stored under the key [k]. *)
Definition stored_locality (py_float : string -> option float) (k : string)
    (r : gpci_record) : Prop :=
  name r <> "" /\ locality r <> "" /\ trimmed (name r) /\ trimmed (locality r)
  /\ (forall m, mac r = Some m -> m <> "" /\ trimmed m)
  /\ exists lk, locality_key py_float (locality r) = Some lk
                /\ k = record_key lk r.

(** A value compared with itself under a tolerance: a finite value agrees
    when the tolerance is not negative, a value that is not finite when it
    is an infinity. *)
Definition agrees_with_itself (tol x : float) : bool :=
  if is_finite x then (0 <=? tol)%float else negb (is_nan x).

(** The columns that [process_year] reads, as columns of the RVU table. *)
Definition fixed_columns : rvu_columns :=
  {| cpt_idx := 0;
     desc_idx := Some 2%nat;
     work_idx := Some 5%nat;
     pe_fac_idx := Some 8%nat;
     pe_nonfac_idx := Some 6%nat;
     mp_idx := Some 10%nat |}.

(** The positions of the four numeric cells that [process_year] reads. *)
Definition fixed_numeric_cells : list nat := [5; 6; 8; 10]%nat.

(** A column index, where one is resolved, lies within the header. *)
Definition within (headers : list string) (idx : option nat) : Prop :=
  match idx with
  | Some i => (i < length headers)%nat
  | None => True
  end.

(** The record of a stored locality against a row of the table: the name
    and the locality number are the trimmed cells of their columns; the
    state is the trimmed cell of the state column, and not empty, when the
    table has one, and the state inferred from the name when it has none. *)
Definition stored_from_row (cols : gpci_columns) (row : list string)
    (r : gpci_record) : Prop :=
  name r = strip (cell_at row (locality_name_idx cols))
  /\ locality r = strip (cell_at row (locality_num_idx cols))
  /\ match state_idx cols with
     | Some i => state r = strip (cell_at row i) /\ state r <> ""
     | None => state r = derive_state_from_name (name r)
     end.

(** What a row of the GPCI worksheet stores when nothing is stored yet. *)
Definition stored_alone (py_float : string -> option float)
    (py_repr : float -> string) (row : list ParseExcel.cell)
    : gmap string gpci_record :=
  fst (ParseExcel.gpci_excel_row py_float py_repr (∅, 0%nat) row).

(** Whether the loop of [parse_rvu_excel] stops at the count [parsed]. *)
Definition limit_reached (limit : option Z) (parsed : nat) : bool :=
  match limit with
  | Some l => negb (l =? 0)%Z && (l <=? Z.of_nat parsed)%Z
  | None => false
  end.

(** One more skipped row. *)
Definition one_more_skipped {D : Type} (acc : D * nat) : D * nat :=
  (fst acc, S (snd acc)).


(** *** Inputs used in the examples *)

(** The object stored under a code in a snapshot file. *)
Definition snapshot_row (d : string) (w pf pn m : float) : json :=
  JObj [("desc", JStr d); ("work_rvu", JFloat w); ("pe_rvu_fac", JFloat pf);
        ("pe_rvu_nonfac", JFloat pn); ("mp_rvu", JFloat m)].

(** The item of a snapshot file that holds a record under a key: what
    [json.load] reads back from the object the parsers write. *)
Definition record_item (kr : string * YearRecord) : string * json :=
  (fst kr,
   snapshot_row (desc (snd kr)) (work_rvu (snd kr)) (pe_rvu_fac (snd kr))
     (pe_rvu_nonfac (snd kr)) (mp_rvu (snd kr))).

(** The entry of a code in the output of a run. *)
Definition entry_of (out : option timeline) (code : string)
    : option timeline_entry :=
  out ≫= fun t => codes t !! code.

(** The header of a GPCI file, the columns it resolves to, a row with a
    blank practice-expense index, and the same row without its locality
    number. *)
Definition gpci_header : list string :=
  ["Medicare Administrative Contractor"; "State"; "Locality Number";
   "Locality Name"; "PW GPCI"; "PE GPCI"; "MP GPCI"].

Definition gpci_header_columns : gpci_columns :=
  {| mac_idx := Some 0%nat;
     state_idx := Some 1%nat;
     locality_num_idx := 2;
     locality_name_idx := 3;
     work_gpci_idx := 4;
     pe_gpci_idx := 5;
     mp_gpci_idx := 6 |}.

Definition alabama_row : list string :=
  ["10112"; "AL"; "00"; "ALABAMA"; "1.000"; "0.869"; "0.575"].

Definition blank_pe_row : list string :=
  ["02102"; "AK"; "01"; "ALASKA*"; "1.500"; ""; "0.592"].

Definition blank_pe_note_row : list string :=
  ["02102"; "AK"; ""; "ALASKA*"; "1.500"; ""; "0.592"].

(** An RVU table whose one code is written in lower case, with blanks
    around it. *)
Definition lower_case_table : list (list string) :=
  [ ["HCPCS"; "Description"; "Work RVU"];
    [" g0101 "; "Screening"; "0.45"] ].

(** A snapshot file with two keys for one code. *)
Definition repeated_code_items : list (string * json) :=
  [ (" g0101 ", snapshot_row "Screening, first" 0.45 0.3 0.6 0.05);
    ("G0101", snapshot_row "Screening, second" 0.5 0.3 0.6 0.05) ].


(** Code 99213 in 2019, 2021 and 2022 but not in 2020; code 99499 only in
    2030, outside the requested years 2019-2022. The files are given out of
    order. *)
Definition office_visits : args :=
  {| arg_year :=
       [ mkYearInput 2021
           (JObj [("99213", snapshot_row "Office visit" 1.3 0.5 1.0 0.1)]);
         mkYearInput 2019
           (JObj [("99213", snapshot_row "Office visit, brief" 1.0 0.5 1.0 0.1)]);
         mkYearInput 2020
           (JObj [("G0101", snapshot_row "Screening" 0.45 0.3 0.6 0.05)]);
         mkYearInput 2022
           (JObj [("99213", snapshot_row "Office visit" 1.30005 0.5 1.0 0.1)]);
         mkYearInput 2030
           (JObj [("99499", snapshot_row "Unlisted service" 0 0 0 0)]) ];
     arg_years := YearSpan 2019 2022;
     float_tol := 0.0001 |}.

(** The latest year has no description. *)
Definition blank_latest : args :=
  {| arg_year :=
       [ mkYearInput 2019
           (JObj [("99213", snapshot_row "Office visit" 1.0 0.5 1.0 0.1)]);
         mkYearInput 2020
           (JObj [("99213", snapshot_row "" 1.0 0.5 1.0 0.1)]) ];
     arg_years := YearSpan 2019 2020;
     float_tol := 0.0001 |}.

(** An earlier year has no description. *)
Definition blank_earlier : args :=
  {| arg_year :=
       [ mkYearInput 2019
           (JObj [("99213", snapshot_row "" 1.0 0.5 1.0 0.1)]);
         mkYearInput 2020
           (JObj [("99213", snapshot_row "Office visit" 1.0 0.5 1.0 0.1)]) ];
     arg_years := YearSpan 2019 2020;
     float_tol := 0.0001 |}.

(** Two files for the year 2020, in the two orders. *)
Definition same_year_twice : args :=
  {| arg_year :=
       [ mkYearInput 2020
           (JObj [("99213", snapshot_row "First file" 1.0 0.5 1.0 0.1)]);
         mkYearInput 2020
           (JObj [("99213", snapshot_row "Second file" 1.0 0.5 1.0 0.1)]) ];
     arg_years := OneYear 2020;
     float_tol := 0.0001 |}.

Definition same_year_twice_swapped : args :=
  {| arg_year := reverse (arg_year same_year_twice);
     arg_years := OneYear 2020;
     float_tol := 0.0001 |}.

(** Files for 2019 and 2021 with the years 2019-2021 asked for: no input
    is given for 2020. *)
Definition skipped_year : args :=
  {| arg_year :=
       [ mkYearInput 2019
           (JObj [("99213", snapshot_row "Office visit" 1.0 0.5 1.0 0.1)]);
         mkYearInput 2021
           (JObj [("99213", snapshot_row "Office visit" 1.3 0.5 1.0 0.1)]) ];
     arg_years := YearSpan 2019 2021;
     float_tol := 0.0001 |}.

(** The same two records in 2019 and in 2020; the record of code 99213
    holds a NaN, as a file with the literal NaN gives. *)
Definition steady_records : args :=
  {| arg_year :=
       [ mkYearInput 2019
           (JObj [("99213", snapshot_row "Office visit" 1.3 0.5 nan 0.1);
                  ("99214", snapshot_row "Office visit, long" 1.9 0.8 1.5 0.1)]);
         mkYearInput 2020
           (JObj [("99213", snapshot_row "Office visit" 1.3 0.5 nan 0.1);
                  ("99214", snapshot_row "Office visit, long" 1.9 0.8 1.5 0.1)]) ];
     arg_years := YearSpan 2019 2020;
     float_tol := 0.0001 |}.

(** Five codes in 2019 and 2020 under a tolerance of one half, with equal
    descriptions: a work value that moves by the tolerance, one that moves
    by a little more, an infinity that stays, a NaN that stays, and an
    infinity that becomes a number. *)
Definition tolerance_edges : args :=
  {| arg_year :=
       [ mkYearInput 2019
           (JObj [("10001", snapshot_row "At the tolerance" 1.0 0.5 1.0 0.1);
                  ("10002", snapshot_row "Past the tolerance" 1.0 0.5 1.0 0.1);
                  ("10003", snapshot_row "Infinity" 1.0 infinity 1.0 0.1);
                  ("10004", snapshot_row "NaN" 1.0 0.5 nan 0.1);
                  ("10005", snapshot_row "Once infinite" 1.0 0.5 1.0 infinity)]);
         mkYearInput 2020
           (JObj [("10001", snapshot_row "At the tolerance" 1.5 0.5 1.0 0.1);
                  ("10002",
                   snapshot_row "Past the tolerance" 1.5000000000000002 0.5 1.0
                     0.1);
                  ("10003", snapshot_row "Infinity" 1.0 infinity 1.0 0.1);
                  ("10004", snapshot_row "NaN" 1.0 0.5 nan 0.1);
                  ("10005", snapshot_row "Once infinite" 1.0 0.5 1.0 0.1)]) ];
     arg_years := YearSpan 2019 2020;
     float_tol := 0.5 |}.

(** Two work values whose difference, as a number, is the tolerance 0.0001
    and 2^-68 more; binary64 subtraction rounds it to the tolerance. *)
Definition edge_high : float :=
  SF2Prim (S754_finite false 8878697629483821 (-66)).

Definition edge_low : float :=
  SF2Prim (S754_finite false 5999999999999999 (-68)).

Definition rounding_edge : args :=
  {| arg_year :=
       [ mkYearInput 2019
           (JObj [("99213", snapshot_row "Office visit" edge_low 0.5 1.0 0.1)]);
         mkYearInput 2020
           (JObj [("99213", snapshot_row "Office visit" edge_high 0.5 1.0 0.1)]) ];
     arg_years := YearSpan 2019 2020;
     float_tol := 0.0001 |}.

(** A file for 2019 and two files for 2030, with 2019 alone asked for: code
    99499 is held by the first file of 2030 only. *)
Definition superseded_snapshot : args :=
  {| arg_year :=
       [ mkYearInput 2019
           (JObj [("99213", snapshot_row "Office visit" 1.0 0.5 1.0 0.1)]);
         mkYearInput 2030
           (JObj [("99499", snapshot_row "Unlisted service" 0 0 0 0)]);
         mkYearInput 2030
           (JObj [("G0101", snapshot_row "Screening" 0.45 0.3 0.6 0.05)]) ];
     arg_years := OneYear 2019;
     float_tol := 0.0001 |}.

(** Two rows of eleven cells, read by fixed columns; the work value of the
    second is no number. *)
Definition eleven_cells : list string :=
  ["99213"; ""; " Office visit "; "A"; ""; "1.30"; "1.26"; ""; "0.55"; "";
   "0.10"].

Definition eleven_cells_unread : list string :=
  ["99214"; ""; "Office visit, long"; "A"; ""; "n/a"; "1.26"; ""; "0.55"; "";
   "0.10"].

(** A rendering of floats for sheets whose text cells hold no float. *)
Definition no_float_repr (x : float) : string := "".

(** A GPCI worksheet: a title, the header, two localities of California and
    two rows of Alabama, the first with the whole number 0 for its locality
    number, the second with a padded state and no malpractice index. *)
Definition gpci_sheet : list (list ParseExcel.cell) :=
  let C := ParseExcel.CStr in
  [ [C "Geographic practice cost indices"];
    [C "MAC"; C "State"; C "Locality Number"; C "Locality Name";
     C "PW GPCI"; C "PE GPCI"; C "MP GPCI"];
    [ParseExcel.CInt 1112; C "CA"; C "05"; C "San Francisco";
     ParseExcel.CFloat 1.08; ParseExcel.CFloat 1.4; ParseExcel.CFloat 0.5];
    [ParseExcel.CInt 1182; C "CA"; C "18"; C "Los Angeles";
     ParseExcel.CFloat 1.05; ParseExcel.CFloat 1.2; ParseExcel.CFloat 0.7];
    [ParseExcel.CInt 10112; C "AL"; ParseExcel.CInt 0; C "Alabama";
     ParseExcel.CInt 1; ParseExcel.CFloat 0.9; ParseExcel.CNone];
    [ParseExcel.CInt 10112; C "AL "; C "00"; C "Alabama";
     ParseExcel.CInt 1; ParseExcel.CFloat 0.9; C "n/a"] ].

(** An RVU worksheet: the header and three codes. *)
Definition rvu_sheet : list (list ParseExcel.cell) :=
  let C := ParseExcel.CStr in
  let N := ParseExcel.CNone in
  [ [C "HCPCS"; C "MOD"; C "DESCRIPTION"; C "STATUS"; N; C "WORK"; C "PE NF";
     N; C "PE F"; N; C "MP"];
    [ParseExcel.CInt 99213; N; C " Office visit "; C "A"; N;
     ParseExcel.CFloat 1.3; ParseExcel.CFloat 1.26; N; ParseExcel.CFloat 0.55;
     N; ParseExcel.CFloat 0.1];
    [C "99214"; N; C "Office visit, long"; C "A"; N;
     ParseExcel.CFloat 1.92; ParseExcel.CFloat 1.7; N; ParseExcel.CFloat 0.8;
     N; C ""];
    [C "99215"; N; N; C "A"; N;
     ParseExcel.CFloat 2.8; ParseExcel.CFloat 2.2; N; ParseExcel.CFloat 1.1;
     N; ParseExcel.CFloat 0.2] ].

End Props.

(** * Properties *)

(** ** Facts about the string primitives *)

Module PyStrFacts.
Import PyStr Props.

Lemma is_empty_true (s : string) : is_empty s = true <-> s = "".
Proof. destruct s; simpl; split; congruence. Qed.

Lemma is_empty_false (s : string) : is_empty s = false <-> s <> "".
Proof. destruct s; simpl; split; congruence. Qed.

Lemma prefix_occurs (a b : string) :
  startswith b a = true <-> exists post, b = a ++ post.
Proof.
  revert b; induction a as [|c a IH]; intros b; simpl.
  - split; [intros _; now exists b | reflexivity].
  - destruct b as [|d b]; simpl.
    + split; [discriminate | intros [post H]; discriminate].
    + destruct (Ascii.eqb_spec c d) as [->|Hne]; simpl.
      * rewrite IH. split.
        -- intros [post ->]. now exists post.
        -- intros [post H]. simpl in H. injection H as ->. now exists post.
      * split; [discriminate|]. intros [post H]. simpl in H.
        injection H as -> _. now contradict Hne.
Qed.

Lemma contains_occurs (b a : string) :
  contains b a = true <-> occurs_in a b.
Proof.
  unfold occurs_in. induction b as [|d b IH]; simpl.
  - rewrite orb_false_r, prefix_occurs. split.
    + intros [post ->]. now exists "", post.
    + intros (pre & post & H). destruct pre; [|discriminate].
      now exists post.
  - rewrite orb_true_iff, prefix_occurs, IH. split.
    + intros [[post ->]|(pre & post & ->)].
      * now exists "", post.
      * now exists (String d pre), post.
    + intros (pre & post & H). destruct pre as [|c pre]; simpl in H.
      * left. now exists post.
      * right. injection H as -> ->. now exists pre, post.
Qed.

Lemma contains_empty (b : string) : contains b "" = true.
Proof. apply contains_occurs. now exists "", b. Qed.

Lemma all_keep_chars (keep : ascii -> bool) (s : string) :
  all_chars keep (keep_chars keep s) = true.
Proof.
  induction s as [|c s IH]; simpl; [reflexivity|].
  destruct (keep c) eqn:Hk; simpl; [now rewrite Hk|assumption].
Qed.

Lemma keep_chars_fixed (keep : ascii -> bool) (s : string) :
  all_chars keep s = true -> keep_chars keep s = s.
Proof.
  induction s as [|c s IH]; simpl; [reflexivity|].
  intros [Hc Hs]%andb_true_iff. rewrite Hc. now rewrite IH.
Qed.

(** *** Trimming *)

Lemma lstrip_head (s : string) :
  match lstrip s with
  | EmptyString => True
  | String c _ => is_space c = false
  end.
Proof.
  induction s as [|c s IH]; simpl; [exact I|].
  destruct (is_space c) eqn:Hc; [exact IH|exact Hc].
Qed.

Lemma lstrip_fixed (c : ascii) (s : string) :
  is_space c = false -> lstrip (String c s) = String c s.
Proof. intros H; simpl; now rewrite H. Qed.

Lemma rstrip_idem (s : string) : rstrip (rstrip s) = rstrip s.
Proof.
  induction s as [|c s IH]; simpl; [reflexivity|].
  destruct (is_empty (rstrip s)) eqn:He; simpl.
  - destruct (is_space c) eqn:Hc; simpl; [reflexivity|].
    apply is_empty_true in He. rewrite He. simpl. now rewrite Hc.
  - simpl. rewrite IH, He. reflexivity.
Qed.

Lemma rstrip_head (c : ascii) (s : string) :
  is_space c = false -> rstrip (String c s) = String c (rstrip s).
Proof. intros H; simpl. now rewrite H, andb_false_r. Qed.

Lemma strip_idem (s : string) : strip (strip s) = strip s.
Proof.
  unfold strip. pose proof (lstrip_head s) as Hh.
  destruct (lstrip s) as [|c t]; [reflexivity|].
  rewrite (rstrip_head c t Hh), (lstrip_fixed c _ Hh).
  rewrite <- (rstrip_head c t Hh). apply rstrip_idem.
Qed.

Lemma strip_trimmed (s : string) : trimmed (strip s).
Proof. apply strip_idem. Qed.

(** *** Case *)

Lemma upper_char_idem (c : ascii) : upper_char (upper_char c) = upper_char c.
Proof. destruct c as [[] [] [] [] [] [] [] []]; reflexivity. Qed.

Lemma upper_char_space (c : ascii) : is_space (upper_char c) = is_space c.
Proof. destruct c as [[] [] [] [] [] [] [] []]; reflexivity. Qed.

Lemma upper_idem (s : string) : upper (upper s) = upper s.
Proof.
  unfold upper. induction s as [|c s IH]; simpl; [reflexivity|].
  now rewrite upper_char_idem, IH.
Qed.

Lemma upper_is_empty (s : string) : is_empty (upper s) = is_empty s.
Proof. destruct s; reflexivity. Qed.

Lemma upper_lstrip (s : string) : lstrip (upper s) = upper (lstrip s).
Proof.
  unfold upper. induction s as [|c s IH]; simpl; [reflexivity|].
  rewrite upper_char_space. destruct (is_space c); [exact IH|reflexivity].
Qed.

Lemma upper_rstrip (s : string) : rstrip (upper s) = upper (rstrip s).
Proof.
  unfold upper. induction s as [|c s IH]; simpl; [reflexivity|].
  rewrite IH, upper_char_space.
  change (map_chars upper_char (rstrip s)) with (upper (rstrip s)).
  rewrite upper_is_empty.
  destruct (is_empty (rstrip s) && is_space c); reflexivity.
Qed.

Lemma upper_strip (s : string) : strip (upper s) = upper (strip s).
Proof. unfold strip. now rewrite upper_lstrip, upper_rstrip. Qed.

Lemma upper_strip_trimmed (s : string) : trimmed (upper (strip s)).
Proof. unfold trimmed. now rewrite upper_strip, strip_idem. Qed.

Lemma upper_strip_upper_cased (s : string) : upper_cased (upper (strip s)).
Proof. apply upper_idem. Qed.

End PyStrFacts.

(** ** The column resolver *)

Module ColumnFacts.
Import PyStr ParseCms Props PyStrFacts.

Lemma header_hit_resolves (pattern header : string) :
  header_hit (normalize_header pattern) (normalize_header header) = true
  <-> resolves pattern header.
Proof.
  unfold header_hit, resolves, substring_either_way.
  rewrite andb_true_iff, negb_true_iff, is_empty_false, orb_true_iff.
  now rewrite !contains_occurs.
Qed.

Lemma header_hit_not_resolves (pattern header : string) :
  header_hit (normalize_header pattern) (normalize_header header) = false
  <-> ~ resolves pattern header.
Proof. rewrite <- header_hit_resolves. now destruct (header_hit _ _). Qed.

Lemma scan_headers_step (pn h : string) (rest : list string) (i : nat) :
  scan_headers pn (h :: rest) i
  = if header_hit pn h then Some i else scan_headers pn rest (S i).
Proof.
  unfold header_hit; simpl.
  destruct (is_empty h); simpl; [reflexivity|].
  now destruct (contains h pn || contains pn h).
Qed.

Lemma scan_headers_Some (pn : string) (l : list string) (i0 idx : nat) :
  scan_headers pn l i0 = Some idx <->
  exists j h, idx = (i0 + j)%nat /\ l !! j = Some h /\ header_hit pn h = true
    /\ forall j' h', (j' < j)%nat -> l !! j' = Some h' -> header_hit pn h' = false.
Proof.
  revert i0; induction l as [|x l IH]; intros i0.
  - simpl. split; [discriminate|]. intros (j & h & _ & H & _). discriminate.
  - rewrite scan_headers_step. destruct (header_hit pn x) eqn:Hx.
    + split.
      * intros [= <-]. exists 0%nat, x. repeat split; [lia|assumption|].
        intros j' h' Hlt; lia.
      * intros (j & h & -> & Hj & Hh & Hfirst). destruct j as [|j]; [f_equal; lia|].
        specialize (Hfirst 0%nat x ltac:(lia) eq_refl). congruence.
    + rewrite IH. split.
      * intros (j & h & -> & Hj & Hh & Hfirst). exists (S j), h.
        repeat split; [lia|assumption|assumption|].
        intros [|j'] h' Hlt Hl; simpl in Hl; [congruence|].
        apply (Hfirst j'); [lia|assumption].
      * intros (j & h & -> & Hj & Hh & Hfirst). destruct j as [|j].
        { simpl in Hj. congruence. }
        exists j, h. repeat split; [lia|assumption|assumption|].
        intros j' h' Hlt Hl. apply (Hfirst (S j')); [lia|assumption].
Qed.

Lemma scan_headers_None (pn : string) (l : list string) (i0 : nat) :
  scan_headers pn l i0 = None <-> forall h, h ∈ l -> header_hit pn h = false.
Proof.
  revert i0; induction l as [|x l IH]; intros i0.
  - simpl. split; [|reflexivity]. intros _ h Hh. inversion Hh.
  - rewrite scan_headers_step. destruct (header_hit pn x) eqn:Hx.
    + split; [discriminate|]. intros H. rewrite H in Hx; [discriminate|left].
    + rewrite IH. split.
      * intros H h [->|Hin]%elem_of_cons; auto.
      * intros H h Hin. apply H. now right.
Qed.

Lemma scan_patterns_Some (normalized patterns : list string) (idx : nat) :
  scan_patterns normalized patterns = Some idx <->
  exists k p, patterns !! k = Some p
    /\ scan_headers (normalize_header p) normalized 0 = Some idx
    /\ forall k' p', (k' < k)%nat -> patterns !! k' = Some p' ->
         scan_headers (normalize_header p') normalized 0 = None.
Proof.
  induction patterns as [|q ps IH]; simpl.
  - split; [discriminate|]. intros (k & p & H & _). discriminate.
  - destruct (scan_headers (normalize_header q) normalized 0) as [i|] eqn:Hq.
    + split.
      * intros [= <-]. exists 0%nat, q. repeat split; [assumption|].
        intros k' p' Hlt; lia.
      * intros (k & p & Hk & Hp & Hfirst). destruct k as [|k].
        { simpl in Hk. injection Hk as <-. congruence. }
        specialize (Hfirst 0%nat q ltac:(lia) eq_refl). congruence.
    + rewrite IH. split.
      * intros (k & p & Hk & Hp & Hfirst). exists (S k), p.
        repeat split; [assumption|assumption|].
        intros [|k'] p' Hlt Hl; simpl in Hl; [congruence|].
        apply (Hfirst k'); [lia|assumption].
      * intros (k & p & Hk & Hp & Hfirst). destruct k as [|k].
        { simpl in Hk. injection Hk as <-. congruence. }
        exists k, p. repeat split; [assumption|assumption|].
        intros k' p' Hlt Hl. apply (Hfirst (S k')); [lia|assumption].
Qed.

Lemma scan_patterns_None (normalized patterns : list string) :
  scan_patterns normalized patterns = None <->
  forall p, p ∈ patterns -> scan_headers (normalize_header p) normalized 0 = None.
Proof.
  induction patterns as [|q ps IH]; simpl.
  - split; [|reflexivity]. intros _ p Hp. inversion Hp.
  - destruct (scan_headers (normalize_header q) normalized 0) as [i|] eqn:Hq.
    + split; [discriminate|]. intros H. rewrite H in Hq; [discriminate|left].
    + rewrite IH. split.
      * intros H p [->|Hin]%elem_of_cons; auto.
      * intros H p Hin. apply H. now right.
Qed.

Lemma normalize_header_chars (header : string) :
  all_chars (fun c => is_lower c || is_digit c) (normalize_header header) = true.
Proof. apply all_keep_chars. Qed.

Lemma normal_char_lower (c : ascii) :
  normal_char c
  = if is_lower (lower_char c) || is_digit (lower_char c)
    then Some (lower_char c) else None.
Proof. destruct c as [[] [] [] [] [] [] [] []]; reflexivity. Qed.

Lemma normalize_header_normal_form (header : string) :
  normalize_header header = normal_form header.
Proof.
  unfold normalize_header, lower.
  induction header as [|c h IH]; simpl; [reflexivity|].
  rewrite normal_char_lower, IH.
  now destruct (is_lower (lower_char c) || is_digit (lower_char c)).
Qed.

(** Claim C4, as amended. [normalize_header] gives the letters of a header,
    in lower case, and its digits, in order, and nothing else.
    [find_column] returns index [idx] exactly when some pattern,
    the first in the given order to resolve any header, resolves the header
    at [idx] and no header before it: a header resolves when its normalised
    form is not empty and one of the two normalised texts occurs in the
    other, so an earlier pattern wins over a later one. It returns [None]
    exactly when no pattern resolves any header. *)
Theorem find_column_first_match (headers patterns : list string) :
  (forall h, normalize_header h = normal_form h)
  /\ (forall h, all_chars (fun c => is_lower c || is_digit c) (normalize_header h) = true)
  /\ (forall idx,
        find_column headers patterns = Some idx <->
        exists k pattern header,
          patterns !! k = Some pattern /\ headers !! idx = Some header
          /\ resolves pattern header
          /\ (forall j h, (j < idx)%nat -> headers !! j = Some h ->
                ~ resolves pattern h)
          /\ (forall k' p j h, (k' < k)%nat -> patterns !! k' = Some p ->
                headers !! j = Some h -> ~ resolves p h))
  /\ (find_column headers patterns = None <->
      forall p h, p ∈ patterns -> h ∈ headers -> ~ resolves p h).
Proof.
  split; [exact normalize_header_normal_form|].
  split; [exact normalize_header_chars|]. unfold find_column. split.
  - intros idx. rewrite scan_patterns_Some. split.
    + intros (k & p & Hk & Hscan & Hfirst).
      apply scan_headers_Some in Hscan as (j & nh & -> & Hj & Hhit & Hbefore).
      rewrite list_lookup_fmap in Hj.
      destruct (headers !! j) as [h|] eqn:Hh; [|discriminate].
      injection Hj as <-. exists k, p, h. simpl.
      split_and!; try assumption.
      * now apply header_hit_resolves.
      * intros j' h' Hlt Hl. apply header_hit_not_resolves.
        apply (Hbefore j'); [assumption|]. now rewrite list_lookup_fmap, Hl.
      * intros k' p' j' h' Hlt Hp' Hl. apply header_hit_not_resolves.
        specialize (Hfirst k' p' Hlt Hp').
        rewrite scan_headers_None in Hfirst. apply Hfirst.
        apply list_elem_of_fmap. exists h'. split; [reflexivity|].
        now apply list_elem_of_lookup_2 in Hl.
    + intros (k & p & h & Hk & Hh & Hres & Hbefore & Hfirst).
      exists k, p. split_and!; [assumption| |].
      * apply scan_headers_Some. exists idx, (normalize_header h).
        split_and!.
        -- reflexivity.
        -- now rewrite list_lookup_fmap, Hh.
        -- now apply header_hit_resolves.
        -- intros j' nh' Hlt Hl. rewrite list_lookup_fmap in Hl.
           destruct (headers !! j') as [h'|] eqn:Hh'; [|discriminate].
           injection Hl as <-. apply header_hit_not_resolves.
           now apply (Hbefore j').
      * intros k' p' Hlt Hp'. apply scan_headers_None.
        intros nh [h' [-> Hin]]%list_elem_of_fmap.
        apply list_elem_of_lookup_1 in Hin as [j' Hj'].
        apply header_hit_not_resolves. now apply (Hfirst k' p' j' h').
  - rewrite scan_patterns_None. split.
    + intros H p h Hp Hh. apply header_hit_not_resolves.
      specialize (H p Hp). rewrite scan_headers_None in H. apply H.
      apply list_elem_of_fmap. now exists h.
    + intros H p Hp. apply scan_headers_None.
      intros nh [h [-> Hin]]%list_elem_of_fmap.
      apply header_hit_not_resolves. now apply H.
Qed.

(** Claim C4 on the header of an RVU table: the pattern given first finds
    nothing, the second resolves the third header, which comes before the
    fourth header that the third pattern would resolve. *)
Lemma find_column_first_match_witness :
  normalize_header "Work RVU (2024)" = "workrvu2024"
  /\ find_column ["HCPCS / CPT"; "Description"; "Work RVU (2024)"; "MP RVU"]
       ["work_gpci"; "WORK-rvu"; "mp rvu"] = Some 2%nat
  /\ exists k pattern header,
       ["work_gpci"; "WORK-rvu"; "mp rvu"] !! k = Some pattern
       /\ ["HCPCS / CPT"; "Description"; "Work RVU (2024)"; "MP RVU"] !! 2%nat
          = Some header
       /\ resolves pattern header
       /\ (forall j h, (j < 2)%nat ->
             ["HCPCS / CPT"; "Description"; "Work RVU (2024)"; "MP RVU"] !! j
             = Some h -> ~ resolves pattern h)
       /\ (forall k' p j h, (k' < k)%nat ->
             ["work_gpci"; "WORK-rvu"; "mp rvu"] !! k' = Some p ->
             ["HCPCS / CPT"; "Description"; "Work RVU (2024)"; "MP RVU"] !! j
             = Some h -> ~ resolves p h).
Proof.
  split.
  - rewrite (proj1 (find_column_first_match [] []) "Work RVU (2024)").
    reflexivity.
  - split; [reflexivity|].
    apply (proj1 (proj1 (proj2 (proj2 (find_column_first_match
                                          ["HCPCS / CPT"; "Description";
                                           "Work RVU (2024)"; "MP RVU"]
                                          ["work_gpci"; "WORK-rvu"; "mp rvu"])))
                    2%nat)).
    reflexivity.
Defined.

(** Claim C4 as stated fails on a header whose normalised form is empty: the
    empty text occurs in every pattern, so the bare substring test holds for
    the header at index 0, yet the resolver returns index 1; and with such
    a header alone it returns [None]. *)
Lemma find_column_skips_blank_header :
  find_column [""; "Code"] ["code"] = Some 1%nat
  /\ substring_either_way "code" ""
  /\ find_column ["#"] ["code"] = None
  /\ substring_either_way "code" "#".
Proof.
  split_and!; try reflexivity; right; apply contains_occurs; reflexivity.
Qed.

Lemma find_column_single (a b : string) :
  find_column [a] [b]
  = if header_hit (normalize_header b) (normalize_header a) then Some 0%nat else None.
Proof.
  unfold find_column.
  change (map normalize_header [a]) with [normalize_header a].
  unfold scan_patterns. rewrite scan_headers_step.
  now destruct (header_hit _ _).
Qed.

Lemma header_hit_swap (x y : string) :
  is_empty x = false -> is_empty y = false -> header_hit x y = header_hit y x.
Proof.
  unfold header_hit. intros -> ->. simpl. apply orb_comm.
Qed.

(** Claim C9, as amended. For a header and a pattern whose normalised forms
    are not empty, resolution is symmetric: taking either text as the only
    header and the other as the only pattern gives the same answer, column
    0 exactly when one normalised text occurs in the other, whichever is
    the longer. *)
Theorem column_match_symmetric (a b : string) :
  is_empty (normalize_header a) = false ->
  is_empty (normalize_header b) = false ->
  find_column [a] [b] = find_column [b] [a]
  /\ (find_column [a] [b] = Some 0%nat <-> substring_either_way b a)
  /\ (find_column [a] [b] = None <-> ~ substring_either_way b a).
Proof.
  intros Ha Hb. rewrite !find_column_single.
  rewrite (header_hit_swap (normalize_header a) (normalize_header b) Ha Hb).
  assert (Hiff : header_hit (normalize_header b) (normalize_header a) = true
                 <-> substring_either_way b a).
  { rewrite header_hit_resolves. unfold resolves.
    apply is_empty_false in Ha. tauto. }
  split_and!; [reflexivity| |].
  - rewrite <- Hiff. destruct (header_hit _ _); split; congruence.
  - rewrite <- Hiff. destruct (header_hit _ _); split; congruence.
Qed.

(** Claim C9 on the header "PE RVU Non-Facility" and the shorter text
    "non-facility", each taken as header and as pattern. *)
Lemma column_match_symmetric_witness :
  is_empty (normalize_header "PE RVU Non-Facility") = false
  /\ is_empty (normalize_header "non-facility") = false
  /\ find_column ["PE RVU Non-Facility"] ["non-facility"] = Some 0%nat
  /\ find_column ["non-facility"] ["PE RVU Non-Facility"] = Some 0%nat.
Proof.
  split; [reflexivity|]. split; [reflexivity|].
  pose proof (column_match_symmetric "PE RVU Non-Facility" "non-facility"
                eq_refl eq_refl) as (Hsym & Hsome & _).
  assert (Hfound : find_column ["PE RVU Non-Facility"] ["non-facility"]
                   = Some 0%nat).
  { apply Hsome. left. apply contains_occurs. reflexivity. }
  split; [exact Hfound|]. rewrite <- Hsym. exact Hfound.
Defined.

(** Claim C9 as stated fails on its own pair: neither of the normalised
    texts of "PE RVU Non-Facility" and "non-facility pe" occurs in the
    other, and the resolver finds no column in either direction. *)
Lemma non_facility_pe_unresolved :
  find_column ["PE RVU Non-Facility"] ["non-facility pe"] = None
  /\ find_column ["non-facility pe"] ["PE RVU Non-Facility"] = None
  /\ normalize_header "PE RVU Non-Facility" = "pervunonfacility"
  /\ normalize_header "non-facility pe" = "nonfacilitype"
  /\ contains "pervunonfacility" "nonfacilitype" = false
  /\ contains "nonfacilitype" "pervunonfacility" = false.
Proof. split_and!; reflexivity. Qed.

End ColumnFacts.

(** ** The GPCI header-row locator *)

Module HeaderFacts.
Import PyStr ParseCms Props PyStrFacts.

Lemma first_return_Some {A B : Type} (body : A -> option B) (l : list A) (r : B) :
  first_return body l = Some r <->
  exists i x, l !! i = Some x /\ body x = Some r
    /\ forall j y, (j < i)%nat -> l !! j = Some y -> body y = None.
Proof.
  induction l as [|a l IH]; simpl.
  - split; [discriminate|]. intros (i & x & H & _). discriminate.
  - destruct (body a) as [r'|] eqn:Ha.
    + split.
      * intros [= <-]. exists 0%nat, a. split_and!; [reflexivity|assumption|].
        intros j y Hlt. lia.
      * intros (i & x & Hi & Hx & Hfirst). destruct i as [|i].
        { simpl in Hi. injection Hi as <-. congruence. }
        specialize (Hfirst 0%nat a ltac:(lia) eq_refl). congruence.
    + rewrite IH. split.
      * intros (i & x & Hi & Hx & Hfirst). exists (S i), x.
        split_and!; [assumption|assumption|].
        intros [|j] y Hlt Hj; simpl in Hj; [congruence|].
        apply (Hfirst j); [lia|assumption].
      * intros (i & x & Hi & Hx & Hfirst). destruct i as [|i].
        { simpl in Hi. injection Hi as <-. congruence. }
        exists i, x. split_and!; [assumption|assumption|].
        intros j y Hlt Hj. apply (Hfirst (S j)); [lia|assumption].
Qed.

Lemma first_return_None {A B : Type} (body : A -> option B) (l : list A) :
  first_return body l = None <-> forall x, x ∈ l -> body x = None.
Proof.
  induction l as [|a l IH]; simpl.
  - split; [|reflexivity]. intros _ x Hx. inversion Hx.
  - destruct (body a) as [r'|] eqn:Ha.
    + split; [discriminate|]. intros H. rewrite H in Ha; [discriminate|left].
    + rewrite IH. split.
      * intros H x [->|Hin]%elem_of_cons; auto.
      * intros H x Hin. apply H. now right.
Qed.

(** The body of the scan, by cases on the rows [i] and [i + 1]. *)
Lemma scan_row_cases (rows : list (list string)) (scan_limit i : nat) :
  (exists row, single_line_at rows i row
     /\ scan_row rows scan_limit i = Some (mkHeaderInfo i 1 row (i + 1)))
  \/ (exists row row2, pair_at rows scan_limit i row row2
     /\ scan_row rows scan_limit i
        = Some (mkHeaderInfo i 2 (merge_rows row row2) (i + 2)))
  \/ (~ header_at rows scan_limit i /\ scan_row rows scan_limit i = None).
Proof.
  unfold scan_row, header_at, single_line_at, pair_at, anchored, indexed.
  destruct (rows !! i) as [row|] eqn:Hrow.
  2:{ right; right. split; [|reflexivity].
      intros [(r & H & _)|(r & r2 & H & _)]; discriminate. }
  destruct (wide_enough row) eqn:Hw; simpl.
  2:{ right; right. split; [|reflexivity].
      intros [(r & [= <-] & H & _)|(r & r2 & [= <-] & H & _)];
        rewrite Hw in H; discriminate. }
  destruct (has_locality_number (map normalize_header row)
            && has_locality_name (map normalize_header row)) eqn:Ha; simpl.
  2:{ right; right. split; [|reflexivity].
      intros [(r & [= <-] & H & _)|(r & r2 & [= <-] & H & _)];
        rewrite Hw in H; simpl in H; rewrite Ha in H;
        discriminate. }
  destruct (has_gpci_cols (map normalize_header row)) eqn:Hg.
  { left. exists row. rewrite Hw. simpl. rewrite Ha.
    now split_and!. }
  right.
  destruct (i + 1 <? scan_limit)%nat eqn:Hlim.
  2:{ right. split; [|reflexivity]. apply Nat.ltb_ge in Hlim.
      intros [(r & [= <-] & _ & H)|(r & r2 & _ & _ & _ & H & _)];
        [congruence|lia]. }
  apply Nat.ltb_lt in Hlim.
  destruct (rows !! (i + 1)%nat) as [row2|] eqn:Hrow2.
  2:{ right. split; [|reflexivity].
      intros [(r & [= <-] & _ & H)|(r & r2 & _ & _ & _ & _ & H & _)];
        [congruence|discriminate]. }
  destruct (wide_enough row2 && has_gpci_cols (map normalize_header row2)) eqn:H2.
  - left. exists row, row2. apply andb_true_iff in H2 as [H2a H2b].
    rewrite Hw. simpl. rewrite Ha. now split_and!.
  - right. split; [|reflexivity].
    intros [(r & [= <-] & _ & H)|(r & r2 & _ & _ & _ & _ & [= <-] & Hx & Hy)];
      [congruence|]. rewrite Hx, Hy in H2. discriminate.
Qed.

Lemma single_line_unique rows i row row' :
  single_line_at rows i row -> single_line_at rows i row' -> row = row'.
Proof. intros (H & _) (H' & _). congruence. Qed.

Lemma scan_row_None (rows : list (list string)) (scan_limit i : nat) :
  scan_row rows scan_limit i = None <-> ~ header_at rows scan_limit i.
Proof.
  destruct (scan_row_cases rows scan_limit i)
    as [(row & Hs & ->)|[(row & row2 & Hp & ->)|(Hn & ->)]].
  - split; [discriminate|]. intros H. exfalso. apply H. left. now exists row.
  - split; [discriminate|]. intros H. exfalso. apply H. right. now exists row, row2.
  - tauto.
Qed.

Lemma merge_rows_length (row row2 : list string) :
  length (merge_rows row row2) = Nat.max (length row) (length row2).
Proof. unfold merge_rows. now rewrite length_map, length_seq. Qed.

Lemma merge_rows_lookup (row row2 : list string) (j : nat) :
  (j < Nat.max (length row) (length row2))%nat ->
  merge_rows row row2 !! j = Some (merge_cell (cell_at row j) (cell_at row2 j)).
Proof.
  intros Hj. unfold merge_rows. rewrite list_lookup_fmap.
  now rewrite lookup_seq_lt.
Qed.

Lemma merge_cell_first (a b : string) :
  is_empty (strip a) = false -> isdigit (strip a) = false ->
  merge_cell a b = strip a.
Proof. unfold merge_cell. now intros -> ->. Qed.

Lemma merge_cell_second (a b : string) :
  is_empty (strip a) = true \/ isdigit (strip a) = true ->
  is_empty (strip b) = false ->
  merge_cell a b = strip b.
Proof.
  unfold merge_cell. intros Ha ->.
  destruct Ha as [-> | ->]; [reflexivity|now rewrite orb_true_r].
Qed.

Lemma merge_cell_fallback (a b : string) :
  is_empty (strip a) = true \/ isdigit (strip a) = true ->
  is_empty (strip b) = true ->
  merge_cell a b = strip a.
Proof.
  unfold merge_cell. intros Ha ->.
  destruct Ha as [-> | ->]; [reflexivity|now rewrite orb_true_r].
Qed.

(** Claim C5, as amended. The locator returns at the first row [i] of the
    window that is a header: either row [i] carries the anchors and the
    index columns (one line), or it carries the anchors without the index
    columns and row [i + 1], inside the window and with three cells or more,
    carries the index columns (two lines); no other row is looked at for
    row [i]. It reports failure exactly when no row of the window is a
    header. A two-line header is merged position by position over the
    wider of the two rows: the trimmed cell of the first row, unless that
    is empty or all digits, in which case the trimmed cell of the second
    row when that is not empty, and the first row's otherwise. *)
Theorem gpci_header_scan (rows : list (list string)) (max_scan : nat) :
  let scan_limit := Nat.min max_scan (length rows) in
  (forall info,
     extract_gpci_headers rows max_scan = Some info <->
     exists i, (i < scan_limit)%nat
       /\ (forall j, (j < i)%nat -> ~ header_at rows scan_limit j)
       /\ ((exists row, single_line_at rows i row
              /\ info = mkHeaderInfo i 1 row (i + 1))
           \/ (exists row row2, pair_at rows scan_limit i row row2
              /\ info = mkHeaderInfo i 2 (merge_rows row row2) (i + 2))))
  /\ (extract_gpci_headers rows max_scan = None <->
      forall i, (i < scan_limit)%nat -> ~ header_at rows scan_limit i)
  /\ (forall row row2,
        length (merge_rows row row2) = Nat.max (length row) (length row2)
        /\ forall j, (j < Nat.max (length row) (length row2))%nat ->
             merge_rows row row2 !! j
             = Some (merge_cell (cell_at row j) (cell_at row2 j)))
  /\ (forall a b,
        (is_empty (strip a) = false -> isdigit (strip a) = false ->
         merge_cell a b = strip a)
        /\ (is_empty (strip a) = true \/ isdigit (strip a) = true ->
            is_empty (strip b) = false -> merge_cell a b = strip b)
        /\ (is_empty (strip a) = true \/ isdigit (strip a) = true ->
            is_empty (strip b) = true -> merge_cell a b = strip a)).
Proof.
  intros scan_limit. unfold extract_gpci_headers. fold scan_limit.
  split_and!.
  - intros info. rewrite first_return_Some. split.
    + intros (i & x & Hi & Hx & Hfirst).
      apply lookup_seq in Hi as [-> Hlt]. simpl in *.
      exists i. split_and!; [assumption| |].
      * intros j Hj. apply scan_row_None. apply (Hfirst j); [assumption|].
        apply lookup_seq. split; [reflexivity|lia].
      * destruct (scan_row_cases rows scan_limit i)
          as [(row & Hs & Heq)|[(row & row2 & Hp & Heq)|(Hn & Heq)]];
          rewrite Heq in Hx; [| |discriminate]; injection Hx as <-.
        -- left. now exists row.
        -- right. now exists row, row2.
    + intros (i & Hlt & Hfirst & Hcase). exists i, i. split_and!.
      * apply lookup_seq. split; [reflexivity|assumption].
      * destruct (scan_row_cases rows scan_limit i)
          as [(row & Hs & Heq)|[(row & row2 & Hp & Heq)|(Hn & Heq)]].
        -- rewrite Heq. destruct Hcase as [(r & Hr & ->)|(r & r2 & Hr & ->)].
           ++ now rewrite (single_line_unique _ _ _ _ Hs Hr).
           ++ destruct Hs as (H1 & _ & H3), Hr as (H1' & _ & H3' & _).
              congruence.
        -- rewrite Heq. destruct Hcase as [(r & Hr & ->)|(r & r2 & Hr & ->)].
           ++ destruct Hr as (H1 & _ & H3), Hp as (H1' & _ & H3' & _).
              congruence.
           ++ destruct Hr as (H1 & _ & _ & _ & H5 & _),
                Hp as (H1' & _ & _ & _ & H5' & _).
              congruence.
        -- exfalso. apply Hn.
           destruct Hcase as [(r & Hr & _)|(r & r2 & Hr & _)];
             [left; now exists r|right; now exists r, r2].
      * intros j y Hj Hy. apply lookup_seq in Hy as [-> _]. simpl.
        apply scan_row_None. now apply Hfirst.
  - rewrite first_return_None. split.
    + intros H i Hi. apply scan_row_None. apply H.
      apply elem_of_seq. lia.
    + intros H x Hx. apply elem_of_seq in Hx. apply scan_row_None.
      apply H. lia.
  - intros row row2. split; [apply merge_rows_length|].
    intros j Hj. now apply merge_rows_lookup.
  - intros a b. split_and!.
    + apply merge_cell_first.
    + apply merge_cell_second.
    + apply merge_cell_fallback.
Qed.

(** Claim C5 as stated fails where a numeric cell of the first row stands
    over a blank cell of the second: the merged header keeps the number
    "2020", not the second row's cell; the cells come out trimmed. *)
Lemma merged_header_keeps_number_over_blank :
  extract_gpci_headers
    [ ["Locality Number"; " Locality Name "; "Notes"; "2020"];
      ["PW GPCI"; "PE GPCI"; "MP GPCI"; ""] ] 80
  = Some (mkHeaderInfo 0 2 ["Locality Number"; "Locality Name"; "Notes"; "2020"] 2)
  /\ isdigit "2020" = true
  /\ cell_at ["PW GPCI"; "PE GPCI"; "MP GPCI"; ""] 3 = "".
Proof. split_and!; reflexivity. Qed.

(** Claim C5 on a file with a title line and a header split over two
    lines: the anchors on the second line, the index columns on the third. *)
Lemma gpci_header_scan_witness :
  pair_at [ ["CY 2017 GPCIs"];
            ["Locality Number"; "Locality Name"; "2017"; ""; ""];
            [""; ""; "PW GPCI"; "PE GPCI"; "MP GPCI"] ] 3 1
    ["Locality Number"; "Locality Name"; "2017"; ""; ""]
    [""; ""; "PW GPCI"; "PE GPCI"; "MP GPCI"]
  /\ extract_gpci_headers
       [ ["CY 2017 GPCIs"];
         ["Locality Number"; "Locality Name"; "2017"; ""; ""];
         [""; ""; "PW GPCI"; "PE GPCI"; "MP GPCI"] ] 80
     = Some (mkHeaderInfo 1 2
               ["Locality Number"; "Locality Name"; "PW GPCI"; "PE GPCI"; "MP GPCI"]
               3).
Proof.
  assert (Hpair : pair_at [ ["CY 2017 GPCIs"];
            ["Locality Number"; "Locality Name"; "2017"; ""; ""];
            [""; ""; "PW GPCI"; "PE GPCI"; "MP GPCI"] ] 3 1
    ["Locality Number"; "Locality Name"; "2017"; ""; ""]
    [""; ""; "PW GPCI"; "PE GPCI"; "MP GPCI"]).
  { unfold pair_at. split_and!; try reflexivity. simpl. lia. }
  split; [exact Hpair|].
  apply (proj1 (gpci_header_scan _ 80)). exists 1%nat. split_and!.
  - simpl. lia.
  - intros j Hj. assert (j = 0%nat) as -> by lia.
    intros [(row & Hrow & Ha & _)|(row & row2 & Hrow & Ha & _)];
      injection Hrow as <-; discriminate.
  - right. eexists _, _. split; [exact Hpair|reflexivity].
Defined.

End HeaderFacts.

(** ** Facts about binary64 comparisons *)

Module FloatFacts.
Import Props Timeline.

Lemma SFcompare_swap (x y : spec_float) :
  SFcompare y x = option_map CompOpp (SFcompare x y).
Proof.
  destruct x as [sx|sx| |sx mx ex], y as [sy|sy| |sy my ey]; simpl;
    try reflexivity;
    try (destruct sx; reflexivity); try (destruct sy; reflexivity);
    try (destruct sx, sy; reflexivity).
  destruct sx, sy; simpl; try reflexivity;
    rewrite (Z.compare_antisym ey ex);
    destruct (ey ?= ex)%Z; simpl; try reflexivity;
    change (PosDef.Pos.compare_cont Eq mx my) with (Pos.compare mx my);
    change (PosDef.Pos.compare_cont Eq my mx) with (Pos.compare my mx);
    rewrite (Pos.compare_antisym my mx);
    now destruct (my ?= mx)%positive.
Qed.

Lemma SFcompare_None (x y : spec_float) :
  SFcompare x y = None <-> x = S754_nan \/ y = S754_nan.
Proof.
  destruct x, y; simpl; split; try discriminate; try tauto;
    intros [H|H]; discriminate.
Qed.

Lemma not_nan_spec (x : float) :
  (x =? x)%float = true -> Prim2SF x <> S754_nan.
Proof. rewrite FloatAxioms.eqb_spec. intros H Hnan. rewrite Hnan in H. discriminate. Qed.

(** Away from NaN, "not at most" is "more than". *)
Lemma leb_false_ltb (x t : float) :
  (x =? x)%float = true -> (t =? t)%float = true ->
  (x <=? t)%float = false <-> (t <? x)%float = true.
Proof.
  intros Hx%not_nan_spec Ht%not_nan_spec.
  rewrite FloatAxioms.ltb_spec, FloatAxioms.leb_spec. unfold SFltb, SFleb.
  rewrite (SFcompare_swap (Prim2SF x) (Prim2SF t)).
  destruct (SFcompare (Prim2SF x) (Prim2SF t)) as [[]|] eqn:Hc; simpl;
    try (split; congruence).
  apply SFcompare_None in Hc. tauto.
Qed.

(** *** Binary64 values by their kind *)

Lemma SFcompare_refl (x : spec_float) :
  x <> S754_nan -> SFcompare x x = Some Eq.
Proof.
  destruct x as [s|s| |s m e]; intros Hx; simpl; try reflexivity;
    try (now destruct s); [congruence|].
  rewrite Z.compare_refl.
  change (PosDef.Pos.compare_cont Eq m m) with (Pos.compare m m).
  rewrite Pos.compare_refl. now destruct s.
Qed.

Lemma is_nan_spec (x : float) :
  is_nan x = match Prim2SF x with S754_nan => true | _ => false end.
Proof.
  unfold is_nan. rewrite FloatAxioms.eqb_spec. unfold SFeqb.
  destruct (Prim2SF x) as [s|s| |s m e] eqn:Hx; try reflexivity.
  - now destruct s.
  - rewrite SFcompare_refl; [reflexivity|discriminate].
Qed.

Lemma is_infinity_spec (x : float) :
  is_infinity x = match Prim2SF x with S754_infinity _ => true | _ => false end.
Proof.
  unfold is_infinity. rewrite FloatAxioms.eqb_spec, FloatAxioms.abs_spec.
  change (Prim2SF infinity) with (S754_infinity false).
  now destruct (Prim2SF x) as [s|s| |s m e].
Qed.

Lemma is_finite_spec (x : float) :
  is_finite x = match Prim2SF x with
                | S754_zero _ | S754_finite _ _ _ => true
                | _ => false
                end.
Proof.
  unfold is_finite. rewrite is_nan_spec, is_infinity_spec.
  now destruct (Prim2SF x).
Qed.

(** *** A difference of finite values is a number *)

Lemma iter_pos_invariant {A : Type} (P : A -> Prop) (f : A -> A) :
  (forall x, P x -> P (f x)) ->
  forall p x, P x -> P (SpecFloat.iter_pos f p x).
Proof.
  intros Hf. induction p as [p IH|p IH|]; intros x Hx; simpl; auto.
Qed.

Lemma shr_1_nonneg (mrs : shr_record) :
  (0 <= shr_m mrs)%Z -> (0 <= shr_m (shr_1 mrs))%Z.
Proof.
  destruct mrs as [m r s]. simpl.
  destruct m as [|[p|p|]|[p|p|]]; simpl; lia.
Qed.

Lemma shr_fexp_nonneg (m e : Z) (l : location) :
  (0 <= m)%Z -> (0 <= shr_m (fst (shr_fexp prec emax m e l)))%Z.
Proof.
  intros Hm. unfold shr_fexp, shr.
  assert (H0 : (0 <= shr_m (shr_record_of_loc m l))%Z)
    by (destruct l as [|[]]; exact Hm).
  destruct (fexp prec emax (Zdigits2 m + e) - e)%Z; simpl; try exact H0.
  now apply (iter_pos_invariant (fun mrs => (0 <= shr_m mrs)%Z) shr_1 shr_1_nonneg).
Qed.

Lemma round_nearest_even_nonneg (m : Z) (l : location) :
  (0 <= m)%Z -> (0 <= round_nearest_even m l)%Z.
Proof.
  intros Hm. unfold round_nearest_even.
  destruct l as [|[]]; try lia. destruct (IntDef.Z.even m); lia.
Qed.

Lemma binary_round_aux_number (s : bool) (m e : Z) (l : location) :
  (0 <= m)%Z -> binary_round_aux prec emax s m e l <> S754_nan.
Proof.
  intros Hm. unfold binary_round_aux.
  pose proof (shr_fexp_nonneg m e l Hm) as H1.
  destruct (shr_fexp prec emax m e l) as [mrs' e']. simpl in H1.
  pose proof (shr_fexp_nonneg _ e' loc_Exact
                (round_nearest_even_nonneg _ (loc_of_shr_record mrs') H1)) as H2.
  destruct (shr_fexp prec emax _ e' loc_Exact) as [mrs'' e'']. simpl in H2.
  destruct (shr_m mrs''); [discriminate| |lia].
  now destruct (_ <=? _)%Z.
Qed.

Lemma binary_normalize_number (m e : Z) (s : bool) :
  binary_normalize prec emax m e s <> S754_nan.
Proof.
  destruct m as [|p|p]; simpl; [discriminate| |];
    unfold binary_round; destruct (shl_align p e _) as [mz ez];
    now apply binary_round_aux_number.
Qed.

Lemma SFsub_number (x y : spec_float) :
  match x with S754_zero _ | S754_finite _ _ _ => True | _ => False end ->
  match y with S754_zero _ | S754_finite _ _ _ => True | _ => False end ->
  SFsub prec emax x y <> S754_nan.
Proof.
  destruct x as [sx|sx| |sx mx ex], y as [sy|sy| |sy my ey]; simpl;
    try easy.
  - now destruct sx, sy.
  - intros _ _. apply binary_normalize_number.
Qed.

Lemma difference_number (a b : float) :
  is_finite a = true -> is_finite b = true -> is_nan (abs (a - b)) = false.
Proof.
  rewrite !is_finite_spec, is_nan_spec, FloatAxioms.abs_spec, FloatAxioms.sub_spec.
  intros Ha Hb.
  assert (Hsub : SF64sub (Prim2SF a) (Prim2SF b) <> S754_nan).
  { apply SFsub_number; [now destruct (Prim2SF a)|now destruct (Prim2SF b)]. }
  now destruct (SF64sub (Prim2SF a) (Prim2SF b)).
Qed.

(** *** Two values that are not equal *)

Lemma eqb_false_cases (a b : float) :
  (a =? b)%float = false <->
  is_nan a = true \/ is_nan b = true
  \/ (a <? b)%float = true \/ (b <? a)%float = true.
Proof.
  rewrite FloatAxioms.eqb_spec, !FloatAxioms.ltb_spec, !is_nan_spec.
  unfold SFeqb, SFltb. rewrite (SFcompare_swap (Prim2SF a) (Prim2SF b)).
  pose proof (SFcompare_None (Prim2SF a) (Prim2SF b)) as Hnone.
  destruct (SFcompare (Prim2SF a) (Prim2SF b)) as [[]|]; simpl.
  - split; [discriminate|].
    intros [H|[H|[H|H]]]; try discriminate.
    + destruct (Prim2SF a); try discriminate.
      assert (Hn : Some Eq = None) by (apply Hnone; now left). discriminate.
    + destruct (Prim2SF b); try discriminate.
      assert (Hn : Some Eq = None) by (apply Hnone; now right). discriminate.
  - split; [|reflexivity]. intros _. right. right. now left.
  - split; [|reflexivity]. intros _. right. right. now right.
  - split; [|reflexivity]. intros _.
    destruct (proj1 Hnone eq_refl) as [->| ->]; [now left|right; now left].
Qed.

Lemma leb_nan_tolerance (x t : float) :
  is_nan t = true -> (x <=? t)%float = false.
Proof.
  rewrite is_nan_spec, FloatAxioms.leb_spec. unfold SFleb.
  destruct (Prim2SF t); try discriminate. intros _.
  now destruct (Prim2SF x).
Qed.

(** The comparison of the code fails exactly when the two values differ. *)
Lemma nearly_equal_differs (a b tol : float) :
  _nearly_equal a b tol = false <-> component_differs tol a b.
Proof.
  unfold _nearly_equal, component_differs.
  destruct (is_finite a && is_finite b) eqn:Hfin.
  - apply andb_true_iff in Hfin as [Ha Hb].
    pose proof (difference_number a b Ha Hb) as Hd.
    destruct (is_nan tol) eqn:Ht.
    + rewrite (leb_nan_tolerance _ _ Ht). split; [now left|reflexivity].
    + unfold is_nan in Hd, Ht. apply negb_false_iff in Hd, Ht.
      rewrite (leb_false_ltb _ _ Hd Ht). split; [now right|].
      now intros [H|H].
  - apply eqb_false_cases.
Qed.

End FloatFacts.

(** ** The timeline builder *)

Module TimelineFacts.
Import PyStr Timeline Props PyStrFacts FloatFacts.

(** *** The output years *)

Lemma ascending_NoDup (l : list Z) : ascending l -> NoDup l.
Proof.
  intros Hasc. apply NoDup_alt. intros i j y Hi Hj.
  destruct (Nat.lt_trichotomy i j) as [H|[H|H]]; [|assumption|].
  - apply (Hasc i j y y Hi Hj) in H. lia.
  - apply (Hasc j i y y Hj Hi) in H. lia.
Qed.

Lemma seqZ_ascending (start len : Z) : ascending (seqZ start len).
Proof.
  intros i j y y' [-> Hi]%lookup_seqZ [-> Hj]%lookup_seqZ. lia.
Qed.

Lemma parse_year_range_ascending (v : years_arg) (output_years : list Z) :
  _parse_year_range v = Some output_years -> ascending output_years.
Proof.
  destruct v as [y|start end_]; simpl.
  - intros [= <-]. change [y] with (seqZ y 1). apply seqZ_ascending.
  - destruct (end_ <? start)%Z; [discriminate|]. intros [= <-].
    apply seqZ_ascending.
Qed.

Lemma index_from_other (i : nat) (l : list Z) (acc : gmap Z nat) (y : Z) :
  y ∉ l -> index_from i l acc !! y = acc !! y.
Proof.
  revert i acc; induction l as [|x l IH]; intros i acc Hy; simpl; [reflexivity|].
  apply not_elem_of_cons in Hy as [Hne Hy].
  rewrite IH by assumption. now apply lookup_insert_ne.
Qed.

Lemma index_from_lookup (i0 : nat) (l : list Z) (acc : gmap Z nat) (j : nat) (y : Z) :
  NoDup l -> l !! j = Some y -> index_from i0 l acc !! y = Some (i0 + j)%nat.
Proof.
  revert i0 acc j; induction l as [|x l IH]; intros i0 acc j Hnd Hj; [discriminate|].
  apply NoDup_cons in Hnd as [Hx Hnd]. simpl. destruct j as [|j]; simpl in Hj.
  - injection Hj as ->. rewrite index_from_other by assumption.
    rewrite lookup_insert_eq. f_equal. lia.
  - rewrite (IH (S i0) _ j Hnd Hj). f_equal. lia.
Qed.

Lemma years_index_lookup (l : list Z) (j : nat) (y : Z) :
  NoDup l -> l !! j = Some y -> years_index l !! y = Some j.
Proof. intros Hnd Hj. unfold years_index. now rewrite (index_from_lookup 0 l ∅ j y). Qed.

Lemma str_of_int_inj (y y' : Z) : str_of_int y = str_of_int y' -> y = y'.
Proof.
  unfold str_of_int. intros H.
  assert (Hs : Some (Z.to_int y) = Some (Z.to_int y')).
  { rewrite <- !NilEmpty.isi. now rewrite H. }
  injection Hs as Hs. rewrite <- (DecimalZ.of_to y), <- (DecimalZ.of_to y').
  now rewrite Hs.
Qed.

(** *** The per-code loop *)

Section Loop.

Variable per_year : gmap Z (gmap string YearRecord).
Variable code : string.
Variable canonical_desc : string.
Variable tol : float.
Variable index : gmap Z nat.

Abbreviation step := (year_step per_year code canonical_desc tol index).
Abbreviation override_of := (Props.override_of canonical_desc).

Lemma step_absent (st : code_state) (y : Z) :
  row_of per_year code y = None -> step st y = st.
Proof. unfold year_step. intros ->. now destruct (index !! y). Qed.

Lemma run_absent (l : list Z) (st : code_state) :
  (forall y, y ∈ l -> row_of per_year code y = None) -> foldl step st l = st.
Proof.
  revert st; induction l as [|y l IH]; intros st H; simpl; [reflexivity|].
  rewrite step_absent by (apply H; left). apply IH.
  intros y' Hy'. apply H. now right.
Qed.

Lemma step_status_length (st : code_state) (y : Z) :
  length (status_arr (step st y)) = length (status_arr st).
Proof.
  unfold year_step. destruct (index !! y); [|reflexivity].
  destruct (row_of per_year code y); [|reflexivity]. simpl. apply length_insert.
Qed.

Lemma run_status_length (l : list Z) (st : code_state) :
  length (status_arr (foldl step st l)) = length (status_arr st).
Proof.
  revert st; induction l as [|y l IH]; intros st; simpl; [reflexivity|].
  now rewrite IH, step_status_length.
Qed.

Lemma step_status_frame (st : code_state) (y : Z) (i : nat) :
  index !! y <> Some i -> status_arr (step st y) !! i = status_arr st !! i.
Proof.
  unfold year_step. intros Hne. destruct (index !! y) as [idx|]; [|reflexivity].
  destruct (row_of per_year code y); [|reflexivity]. simpl.
  apply list_lookup_insert_ne. congruence.
Qed.

Lemma run_status_frame (l : list Z) (st : code_state) (i : nat) :
  (forall y, y ∈ l -> index !! y <> Some i) ->
  status_arr (foldl step st l) !! i = status_arr st !! i.
Proof.
  revert st; induction l as [|y l IH]; intros st H; simpl; [reflexivity|].
  rewrite IH by (intros y' Hy'; apply H; now right).
  apply step_status_frame. apply H. left.
Qed.

Lemma step_status_here (st : code_state) (y : Z) (i : nat) (row : YearRecord) :
  index !! y = Some i -> row_of per_year code y = Some row ->
  (i < length (status_arr st))%nat ->
  status_arr (step st y) !! i
  = Some (Some (classify (prev_row st) (prev_desc st) row tol)).
Proof.
  unfold year_step. intros -> -> Hlt. simpl. now apply list_lookup_insert_eq.
Qed.

Lemma step_prev (st : code_state) (y : Z) (i : nat) (row : YearRecord) :
  index !! y = Some i -> row_of per_year code y = Some row ->
  prev_row (step st y) = Some row /\ prev_desc (step st y) = Some (desc row).
Proof. unfold year_step. intros -> ->. now split. Qed.

Lemma step_overrides_frame (st : code_state) (y y' : Z) :
  y' <> y ->
  desc_overrides (step st y') !! str_of_int y = desc_overrides st !! str_of_int y.
Proof.
  unfold year_step. intros Hne. destruct (index !! y'); [|reflexivity].
  destruct (row_of per_year code y'); [|reflexivity]. simpl.
  destruct (_ && _); [|reflexivity].
  apply lookup_insert_ne. intros H. apply str_of_int_inj in H. congruence.
Qed.

Lemma run_overrides_frame (l : list Z) (st : code_state) (y : Z) :
  y ∉ l ->
  desc_overrides (foldl step st l) !! str_of_int y
  = desc_overrides st !! str_of_int y.
Proof.
  revert st; induction l as [|y' l IH]; intros st H; simpl; [reflexivity|].
  apply not_elem_of_cons in H as [Hne H].
  rewrite IH by assumption. apply step_overrides_frame. congruence.
Qed.

Lemma step_overrides_here (st : code_state) (y : Z) (i : nat) (row : YearRecord) :
  index !! y = Some i -> row_of per_year code y = Some row ->
  desc_overrides st !! str_of_int y = None ->
  desc_overrides (step st y) !! str_of_int y = override_of row.
Proof.
  unfold year_step, Props.override_of. intros -> -> Hnone. simpl.
  destruct (_ && _); [apply lookup_insert_eq|assumption].
Qed.

(** Every recorded override is the description of a present year of the
    list, under the key of that year. *)
Lemma run_overrides_keys (l : list Z) (st : code_state) (k d : string) :
  desc_overrides (foldl step st l) !! k = Some d ->
  desc_overrides st !! k = Some d
  \/ exists y row, y ∈ l /\ k = str_of_int y
       /\ row_of per_year code y = Some row /\ override_of row = Some d.
Proof.
  revert st; induction l as [|y l IH]; intros st H; simpl in H; [now left|].
  apply IH in H as [H|(y' & row & Hy' & -> & Hrow & Hov)].
  - unfold year_step in H. destruct (index !! y) as [idx|]; [|now left].
    destruct (row_of per_year code y) as [row|] eqn:Hrow; [|now left].
    simpl in H. unfold Props.override_of.
    destruct (_ && _) eqn:Hc; [|now left].
    destruct (decide (k = str_of_int y)) as [->|Hne].
    + rewrite lookup_insert_eq in H. injection H as <-. right.
      exists y, row. split_and!; [left|reflexivity|assumption|].
      now rewrite Hc.
    + rewrite lookup_insert_ne in H by congruence. now left.
  - right. exists y', row. split_and!; [now right|reflexivity|assumption|assumption].
Qed.

End Loop.

(** *** The loop over a list of distinct years *)

Section Run.

Variable per_year : gmap Z (gmap string YearRecord).
Variable code : string.
Variable tol : float.
Variable years : list Z.
Hypothesis years_distinct : NoDup years.

Abbreviation canonical := (canonical_desc_of per_year code years).
Abbreviation step :=
  (year_step per_year code canonical tol (years_index years)).
Abbreviation start := (initial_state (length years)).

Lemma run_years_split (i : nat) (y : Z) :
  years !! i = Some y ->
  run_years per_year years tol code
  = foldl step (step (foldl step start (take i years)) y) (drop (S i) years).
Proof.
  intros Hi. unfold run_years.
  rewrite <- (take_drop_middle years i y Hi) at 4.
  now rewrite foldl_app.
Qed.

Lemma index_of_later (i : nat) (y' : Z) :
  y' ∈ drop (S i) years -> years_index years !! y' <> Some i.
Proof.
  intros [k Hk]%list_elem_of_lookup_1. rewrite lookup_drop in Hk.
  rewrite (years_index_lookup years _ y' years_distinct Hk).
  intros [=]. lia.
Qed.

Lemma index_of_earlier (i : nat) (y' : Z) :
  y' ∈ take i years -> years_index years !! y' <> Some i.
Proof.
  intros (k & Hk & Hlt)%elem_of_take.
  rewrite (years_index_lookup years _ y' years_distinct Hk).
  intros [=]. lia.
Qed.

Lemma status_at_index (i : nat) (y : Z) :
  years !! i = Some y ->
  status_arr (run_years per_year years tol code) !! i
  = Some (match row_of per_year code y with
          | Some row =>
              let before := foldl step start (take i years) in
              Some (classify (prev_row before) (prev_desc before) row tol)
          | None => None
          end).
Proof.
  intros Hi. rewrite (run_years_split i y Hi).
  rewrite run_status_frame by (intros y' Hy'; now apply index_of_later).
  pose proof (lookup_lt_Some _ _ _ Hi) as Hlt.
  destruct (row_of per_year code y) as [row|] eqn:Hrow.
  - apply step_status_here;
      [now apply years_index_lookup|assumption|].
    rewrite run_status_length. simpl. now rewrite length_replicate.
  - rewrite step_absent by assumption.
    rewrite run_status_frame by (intros y' Hy'; now apply index_of_earlier).
    simpl. now apply lookup_replicate_2.
Qed.

Lemma before_first (i : nat) :
  (forall k y', (k < i)%nat -> years !! k = Some y' ->
     row_of per_year code y' = None) ->
  foldl step start (take i years) = start.
Proof.
  intros H. apply run_absent. intros y' (k & Hk & Hlt)%elem_of_take.
  now apply (H k).
Qed.

Lemma before_later (i j : nat) (y0 : Z) (prev : YearRecord) :
  (j < i)%nat -> years !! j = Some y0 ->
  row_of per_year code y0 = Some prev ->
  (forall k y', (j < k < i)%nat -> years !! k = Some y' ->
     row_of per_year code y' = None) ->
  let before := foldl step start (take i years) in
  prev_row before = Some prev /\ prev_desc before = Some (desc prev).
Proof.
  intros Hji Hj Hprev Hgap.
  assert (Hj' : take i years !! j = Some y0) by now rewrite lookup_take_lt.
  simpl. rewrite <- (take_drop_middle _ j y0 Hj'), foldl_app. simpl.
  rewrite run_absent.
  - eapply step_prev;
      [apply years_index_lookup; [exact years_distinct|exact Hj]|exact Hprev].
  - intros y' [k Hk]%list_elem_of_lookup_1. rewrite lookup_drop in Hk.
    apply lookup_take_Some in Hk as [Hk Hlt]. apply (Hgap (S j + k)%nat); [lia|assumption].
Qed.

Lemma overrides_at_year (i : nat) (y : Z) :
  years !! i = Some y ->
  desc_overrides (run_years per_year years tol code) !! str_of_int y
  = row_of per_year code y ≫= override_of canonical.
Proof.
  intros Hi. rewrite (run_years_split i y Hi).
  pose proof (take_drop_middle years i y Hi) as Hsplit.
  assert (Hnd : NoDup (take i years ++ y :: drop (S i) years))
    by now rewrite Hsplit.
  apply NoDup_app in Hnd as (_ & Hpre & [Hpost _]%NoDup_cons).
  rewrite run_overrides_frame by assumption.
  assert (Hnone : desc_overrides (foldl step start (take i years)) !! str_of_int y
                  = None).
  { rewrite run_overrides_frame; [apply lookup_empty|].
    intros Hin. apply (Hpre y Hin). left. }
  destruct (row_of per_year code y) as [row|] eqn:Hrow; simpl.
  - eapply step_overrides_here;
      [apply years_index_lookup; [exact years_distinct|exact Hi]
      |exact Hrow|exact Hnone].
  - now rewrite step_absent.
Qed.

Lemma overrides_keys (k d : string) :
  desc_overrides (run_years per_year years tol code) !! k = Some d ->
  exists y row, y ∈ years /\ k = str_of_int y
    /\ row_of per_year code y = Some row /\ override_of canonical row = Some d.
Proof.
  intros H. apply run_overrides_keys in H as [H|H]; [|exact H].
  simpl in H. now rewrite lookup_empty in H.
Qed.

End Run.

(** *** The canonical description *)

Lemma filter_none (P : Z -> Prop) `{!forall y, Decision (P y)} (l : list Z) :
  (forall y, y ∈ l -> ~ P y) -> filter P l = [].
Proof.
  induction l as [|x l IH]; intros Hall; [reflexivity|].
  rewrite filter_cons_False by (apply Hall; left).
  apply IH. intros y Hy. apply Hall. now right.
Qed.

Lemma last_filter_latest (P : Z -> Prop) `{!forall y, Decision (P y)}
    (l : list Z) (i : nat) (y : Z) :
  l !! i = Some y -> P y ->
  (forall j y', (i < j)%nat -> l !! j = Some y' -> ~ P y') ->
  last (filter P l) = Some y.
Proof.
  intros Hi Hy Hlater. rewrite <- (take_drop_middle l i y Hi).
  rewrite filter_app, filter_cons_True by assumption.
  assert (Hnil : filter P (drop (S i) l) = []).
  { apply filter_none.
    intros y' [k Hk]%list_elem_of_lookup_1. rewrite lookup_drop in Hk.
    apply (Hlater (S i + k)%nat); [lia|assumption]. }
  rewrite Hnil. apply last_snoc.
Qed.

Lemma canonical_desc_latest (per_year : gmap Z (gmap string YearRecord))
    (code : string) (years : list Z) (i : nat) (y : Z) (row : YearRecord) :
  years !! i = Some y -> row_of per_year code y = Some row ->
  (forall j y', (i < j)%nat -> years !! j = Some y' ->
     row_of per_year code y' = None) ->
  canonical_desc_of per_year code years = desc row.
Proof.
  intros Hi Hrow Hlater. unfold canonical_desc_of, present_years.
  rewrite (last_filter_latest _ years i y Hi).
  - now rewrite Hrow.
  - now rewrite Hrow.
  - intros j y' Hj Hy'. rewrite (Hlater j y' Hj Hy'). now intros [? [=]].
Qed.

Lemma canonical_desc_absent (per_year : gmap Z (gmap string YearRecord))
    (code : string) (years : list Z) :
  (forall y, y ∈ years -> row_of per_year code y = None) ->
  canonical_desc_of per_year code years = "".
Proof.
  intros H. unfold canonical_desc_of, present_years.
  assert (Hnil : filter (fun y => is_Some (row_of per_year code y)) years = []).
  { apply filter_none. intros y Hy. rewrite (H y Hy).
    now intros [? [=]]. }
  now rewrite Hnil.
Qed.

(** *** The comparison of two records *)

Lemma nearly_equal_within (a b tol : float) :
  _nearly_equal a b tol = true <-> within_tolerance tol a b.
Proof.
  unfold _nearly_equal, within_tolerance.
  now destruct (is_finite a && is_finite b).
Qed.

Lemma components_changed_false (prev cur : YearRecord) (tol : float) :
  _components_changed prev cur tol = false <-> components_agree tol prev cur.
Proof.
  unfold components_agree, components, _components_changed.
  rewrite !Forall_cons, Forall_nil, <- !nearly_equal_within.
  destruct (_nearly_equal (work_rvu prev) _ tol),
    (_nearly_equal (pe_rvu_fac prev) _ tol),
    (_nearly_equal (pe_rvu_nonfac prev) _ tol),
    (_nearly_equal (mp_rvu prev) _ tol); simpl; intuition congruence.
Qed.

Lemma components_changed_true (prev cur : YearRecord) (tol : float) :
  _components_changed prev cur tol = true <-> a_component_differs tol prev cur.
Proof.
  unfold a_component_differs, components, _components_changed.
  rewrite !Exists_cons, Exists_nil, <- !nearly_equal_differs.
  destruct (_nearly_equal (work_rvu prev) _ tol),
    (_nearly_equal (pe_rvu_fac prev) _ tol),
    (_nearly_equal (pe_rvu_nonfac prev) _ tol),
    (_nearly_equal (mp_rvu prev) _ tol); simpl; intuition congruence.
Qed.

Lemma classify_later (prev row : YearRecord) (tol : float) :
  (classify (Some prev) (Some (desc prev)) row tol = Modified <->
   a_component_differs tol prev row \/ desc prev <> desc row)
  /\ (classify (Some prev) (Some (desc prev)) row tol = Existing <->
      components_agree tol prev row /\ desc prev = desc row).
Proof.
  unfold classify. simpl.
  rewrite <- components_changed_true, <- components_changed_false.
  destruct (String.eqb_spec (desc prev) (desc row)) as [Heq|Hne];
    destruct (_components_changed prev row tol); simpl;
    split; split; intros H; try discriminate; try reflexivity;
    try tauto; try (destruct H; congruence).
Qed.

Lemma within_of_at_most (tol a b : float) :
  differ_at_most tol a b -> within_tolerance tol a b.
Proof. unfold within_tolerance. now intros (-> & -> & H). Qed.

Lemma differs_of_more (tol a b : float) :
  differ_by_more tol a b -> component_differs tol a b.
Proof. unfold component_differs. intros (-> & -> & H). now right. Qed.

Lemma within_of_nonfinite_equal (tol a b : float) :
  nonfinite_equal a b -> within_tolerance tol a b.
Proof. unfold within_tolerance. now intros (-> & H). Qed.

Lemma differs_of_nonfinite_unequal (tol a b : float) :
  nonfinite_unequal a b -> component_differs tol a b.
Proof.
  unfold component_differs. intros (-> & H). now apply eqb_false_cases.
Qed.

(** *** The codes of the output *)

Lemma elem_of_all_codes (per_year : gmap Z (gmap string YearRecord))
    (code : string) :
  code ∈ all_codes per_year <-> exists y, is_Some (row_of per_year code y).
Proof.
  unfold all_codes, row_of. rewrite elem_of_union_list. split.
  - intros (X & HX & Hc). apply list_elem_of_fmap in HX as ([y snap] & -> & Hin).
    apply elem_of_map_to_list in Hin. exists y. rewrite Hin.
    simpl in Hc. now apply elem_of_dom in Hc.
  - intros (y & Hy). destruct (per_year !! y) as [snap|] eqn:Hsnap.
    + exists (dom snap). split; [|now apply elem_of_dom].
      apply list_elem_of_fmap. exists (y, snap). split; [reflexivity|].
      now apply elem_of_map_to_list.
    + destruct Hy as [? [=]].
Qed.

Lemma build_codes_lookup (per_year : gmap Z (gmap string YearRecord))
    (years : list Z) (tol : float) (code : string) (e : timeline_entry) :
  build_codes per_year years tol !! code = Some e <->
  code ∈ all_codes per_year /\ e = build_entry per_year years tol code.
Proof.
  unfold build_codes. rewrite lookup_set_to_map by (simpl; congruence).
  split.
  - intros (c & Hc & [= -> <-]). now split.
  - intros [Hc ->]. now exists code.
Qed.

Lemma build_codes_dom (per_year : gmap Z (gmap string YearRecord))
    (years : list Z) (tol : float) :
  dom (build_codes per_year years tol) = all_codes per_year.
Proof.
  apply set_eq. intros code. rewrite elem_of_dom. split.
  - intros [e He]. now apply build_codes_lookup in He as [? _].
  - intros Hc. exists (build_entry per_year years tol code).
    now apply build_codes_lookup.
Qed.

(** *** The status of a present year, by years *)

Section Status.

Variable per_year : gmap Z (gmap string YearRecord).
Variable code : string.
Variable tol : float.
Variable years : list Z.
Hypothesis years_ascending : ascending years.

Lemma status_first (i : nat) (y : Z) (row : YearRecord) :
  years !! i = Some y -> row_of per_year code y = Some row ->
  (forall y', y' ∈ years -> (y' < y)%Z -> row_of per_year code y' = None) ->
  entry_status (build_entry per_year years tol code) !! i = Some (Some New).
Proof.
  intros Hi Hrow Hearlier. simpl.
  rewrite (status_at_index _ _ _ _ (ascending_NoDup _ years_ascending) i y Hi).
  rewrite Hrow. simpl. rewrite before_first; [reflexivity|].
  intros k y' Hk Hy'. apply Hearlier.
  - now apply list_elem_of_lookup_2 in Hy'.
  - now apply (years_ascending k i y' y Hy' Hi).
Qed.

Lemma status_later (i : nat) (y y0 : Z) (row prev : YearRecord) :
  years !! i = Some y -> row_of per_year code y = Some row ->
  y0 ∈ years -> (y0 < y)%Z -> row_of per_year code y0 = Some prev ->
  (forall y', y' ∈ years -> (y0 < y' < y)%Z -> row_of per_year code y' = None) ->
  entry_status (build_entry per_year years tol code) !! i
  = Some (Some (classify (Some prev) (Some (desc prev)) row tol)).
Proof.
  intros Hi Hrow [j Hj]%list_elem_of_lookup_1 Hlt Hprev Hgap. simpl.
  pose proof (ascending_NoDup _ years_ascending) as Hnd.
  rewrite (status_at_index _ _ _ _ Hnd i y Hi), Hrow. simpl.
  assert (Hji : (j < i)%nat) by now apply (years_ascending j i y0 y Hj Hi).
  destruct (before_later per_year code tol years Hnd i j y0 prev Hji Hj Hprev)
    as [-> ->]; [|reflexivity].
  intros k y' [Hjk Hki] Hy'. apply Hgap.
  - now apply list_elem_of_lookup_2 in Hy'.
  - split.
    + now apply (years_ascending j k y0 y' Hj Hy').
    + now apply (years_ascending k i y' y Hy' Hi).
Qed.

End Status.

Lemma override_of_decide (canonical_desc : string) (row : YearRecord) :
  override_of canonical_desc row
  = if decide (canonical_desc <> "" /\ desc row <> ""
               /\ desc row <> canonical_desc)
    then Some (desc row) else None.
Proof.
  unfold override_of. case_decide as Hdec.
  - destruct Hdec as (Hc & Hd & Hne).
    apply is_empty_false in Hc, Hd. rewrite Hc, Hd. simpl.
    now destruct (String.eqb_spec (desc row) canonical_desc).
  - destruct (is_empty canonical_desc) eqn:Hc; [reflexivity|].
    destruct (is_empty (desc row)) eqn:Hd; [reflexivity|]. simpl.
    destruct (String.eqb_spec (desc row) canonical_desc); [reflexivity|].
    exfalso. apply Hdec. apply is_empty_false in Hc, Hd. tauto.
Qed.

Lemma not_differs_agree (tol : float) (prev row : YearRecord) :
  ~ a_component_differs tol prev row <-> components_agree tol prev row.
Proof.
  rewrite <- components_changed_true, <- components_changed_false.
  now destruct (_components_changed prev row tol).
Qed.

Section MainFacts.

Variable py_float : string -> option float.
Variable py_repr : json -> string.

Abbreviation main := (Timeline.main py_float py_repr).
Abbreviation per_year_of := (Timeline.per_year_of py_float py_repr).

Lemma main_inv (a : args) (out : timeline) :
  main a = Some out ->
  exists years per_year,
    _parse_year_range (arg_years a) = Some years
    /\ per_year_of (arg_year a) = Some per_year
    /\ meta_years out = years
    /\ codes out = build_codes per_year years (float_tol a)
    /\ meta_total_codes out = size (all_codes per_year).
Proof.
  unfold Timeline.main, Timeline.per_year_of.
  destruct (_parse_year_range (arg_years a)) as [years|]; [|discriminate].
  destruct (load_snapshots _ _ _ _) as [per_year|]; [|discriminate].
  intros [= <-]. exists years, per_year. simpl.
  split_and!; try reflexivity.
  now rewrite <- size_dom, build_codes_dom.
Qed.

(** What the run says about one code of its output. *)
Lemma main_entry (a : args) (out : timeline)
    (per_year : gmap Z (gmap string YearRecord)) (code : string)
    (e : timeline_entry) :
  main a = Some out -> per_year_of (arg_year a) = Some per_year ->
  codes out !! code = Some e ->
  ascending (meta_years out)
  /\ code ∈ all_codes per_year
  /\ e = build_entry per_year (meta_years out) (float_tol a) code.
Proof.
  intros Hmain Hper He.
  apply main_inv in Hmain as (years & per_year' & Hyears & Hper' & -> & Hcodes & _).
  rewrite Hper in Hper'. injection Hper' as <-.
  rewrite Hcodes in He. apply build_codes_lookup in He as [Hc ->].
  split_and!; [|assumption|reflexivity].
  eapply parse_year_range_ascending, Hyears.
Qed.

(** *** Loading the snapshots *)

Abbreviation validate := (_validate_year_snapshot py_float py_repr).
Abbreviation load := (load_snapshots py_float py_repr).

Lemma load_lookup (l : list YearInput) (m m' : gmap Z (gmap string YearRecord)) :
  NoDup (year <$> l) -> load m l = Some m' ->
  forall y snap,
    m' !! y = Some snap <->
    (exists yi, yi ∈ l /\ year yi = y /\ validate (raw yi) = Some snap)
    \/ ((forall yi, yi ∈ l -> year yi <> y) /\ m !! y = Some snap).
Proof.
  revert m; induction l as [|x l IH]; intros m Hnd Hload y snap; simpl in *.
  - injection Hload as <-. split; [intros H; right; split; [inversion 1|exact H]|].
    intros [(yi & Hin & _)|[_ H]]; [inversion Hin|exact H].
  - apply NoDup_cons in Hnd as [Hx Hnd].
    destruct (validate (raw x)) as [s|] eqn:Hval; [|discriminate].
    rewrite (IH _ Hnd Hload y snap). split.
    + intros [(yi & Hin & Hy & Hv)|[Hall Hm]].
      * left. exists yi. split_and!; [now right|assumption|assumption].
      * destruct (decide (year x = y)) as [Heq|Hne].
        -- rewrite <- Heq, lookup_insert_eq in Hm. injection Hm as <-.
           left. exists x. split_and!; [left|assumption|assumption].
        -- rewrite lookup_insert_ne in Hm by assumption. right.
           split; [|assumption]. intros yi [->|Hin]%elem_of_cons; auto.
    + intros [(yi & [->|Hin]%elem_of_cons & Hy & Hv)|[Hall Hm]].
      * right. split.
        -- intros yi Hin Heq. apply Hx. apply list_elem_of_fmap.
           exists yi. split; [congruence|assumption].
        -- rewrite <- Hy, lookup_insert_eq. congruence.
      * left. now exists yi.
      * right. split; [intros yi Hin; apply Hall; now right|].
        rewrite lookup_insert_ne; [assumption|]. apply Hall. left.
Qed.

Lemma load_None (l : list YearInput) (m : gmap Z (gmap string YearRecord)) :
  load m l = None <-> exists yi, yi ∈ l /\ validate (raw yi) = None.
Proof.
  revert m; induction l as [|x l IH]; intros m; simpl.
  - split; [discriminate|]. intros (yi & Hin & _). inversion Hin.
  - destruct (validate (raw x)) as [s|] eqn:Hval.
    + rewrite IH. split.
      * intros (yi & Hin & Hv). exists yi. split; [now right|assumption].
      * intros (yi & [->|Hin]%elem_of_cons & Hv); [congruence|now exists yi].
    + split; [|reflexivity]. intros _. exists x. split; [left|assumption].
Qed.

Lemma load_permutation (l l' : list YearInput) :
  l ≡ₚ l' -> NoDup (year <$> l) -> load ∅ l = load ∅ l'.
Proof.
  intros Hperm Hnd.
  assert (Hnd' : NoDup (year <$> l')) by now rewrite <- Hperm.
  destruct (load ∅ l) as [m|] eqn:Hl, (load ∅ l') as [m'|] eqn:Hl'.
  - f_equal. apply map_eq. intros y. apply option_eq. intros snap.
    rewrite (load_lookup l ∅ m Hnd Hl), (load_lookup l' ∅ m' Hnd' Hl').
    setoid_rewrite Hperm. reflexivity.
  - apply load_None in Hl' as (yi & Hin & Hv). rewrite <- Hperm in Hin.
    assert (Hnone : load ∅ l = None) by (apply load_None; now exists yi).
    congruence.
  - apply load_None in Hl as (yi & Hin & Hv). rewrite Hperm in Hin.
    assert (Hnone : load ∅ l' = None) by (apply load_None; now exists yi).
    congruence.
  - reflexivity.
Qed.

Lemma insert_by_year_perm (yi : YearInput) (l : list YearInput) :
  insert_by_year yi l ≡ₚ yi :: l.
Proof.
  induction l as [|x l IH]; simpl; [reflexivity|].
  destruct (year yi <=? year x)%Z; [reflexivity|].
  rewrite IH. apply Permutation_swap.
Qed.

Lemma build_year_inputs_perm (pairs : list YearInput) :
  _build_year_inputs pairs ≡ₚ pairs.
Proof.
  unfold _build_year_inputs. induction pairs as [|x l IH]; simpl; [reflexivity|].
  now rewrite insert_by_year_perm, IH.
Qed.

Lemma main_permutation (a a' : args) :
  arg_year a' ≡ₚ arg_year a -> NoDup (year <$> arg_year a) ->
  arg_years a' = arg_years a -> float_tol a' = float_tol a ->
  main a' = main a.
Proof.
  intros Hperm Hnd Hyears Htol. unfold Timeline.main.
  rewrite Hyears, Htol.
  destruct (_parse_year_range (arg_years a)) as [years|]; [|reflexivity].
  assert (Hsorted : _build_year_inputs (arg_year a')
                    ≡ₚ _build_year_inputs (arg_year a))
    by now rewrite !build_year_inputs_perm.
  rewrite (load_permutation _ _ Hsorted)
    by now rewrite build_year_inputs_perm, Hperm.
  destruct (load ∅ (_build_year_inputs (arg_year a))); [|reflexivity].
  do 2 f_equal. apply list_filter_iff. intros y. now rewrite Hsorted.
Qed.

(** Claim C1, as amended. For a code of the output and an output year [y],
    at index [i], in whose snapshot the code is present: when the code is
    present in no earlier output year, the status at [i] is "new";
    otherwise, with [y0] the most recent earlier output year in which it is
    present (every output year between [y0] and [y] lacks the code, whether
    or not it is the preceding calendar year), the status is "modified"
    exactly when some one of the four components differs from its value in
    [y0] or the two descriptions differ as texts, and "existing" exactly
    when not. Two finite values differ when their binary64 difference is
    more than the tolerance or the tolerance is a NaN; two values of which
    one is an infinity or a NaN differ when one is a NaN or one is less than
    the other. *)
Theorem status_of_present_year (a : args) (out : timeline)
    (per_year : gmap Z (gmap string YearRecord)) (code : string)
    (e : timeline_entry) (i : nat) (y : Z) (row : YearRecord) :
  main a = Some out -> per_year_of (arg_year a) = Some per_year ->
  codes out !! code = Some e ->
  meta_years out !! i = Some y -> row_of per_year code y = Some row ->
  ((forall y', y' ∈ meta_years out -> (y' < y)%Z ->
      row_of per_year code y' = None) ->
   entry_status e !! i = Some (Some New))
  /\ (forall y0 prev,
        y0 ∈ meta_years out -> (y0 < y)%Z ->
        row_of per_year code y0 = Some prev ->
        (forall y', y' ∈ meta_years out -> (y0 < y' < y)%Z ->
           row_of per_year code y' = None) ->
        let changed :=
          a_component_differs (float_tol a) prev row
          \/ desc prev <> desc row in
        (entry_status e !! i = Some (Some Modified) <-> changed)
        /\ (entry_status e !! i = Some (Some Existing) <-> ~ changed)
        /\ (entry_status e !! i = Some (Some Modified)
            \/ entry_status e !! i = Some (Some Existing))).
Proof.
  intros Hmain Hper He Hi Hrow.
  destruct (main_entry a out per_year code e Hmain Hper He) as (Hasc & _ & ->).
  split.
  - intros Hearlier. now apply (status_first _ _ _ _ Hasc i y row).
  - intros y0 prev Hy0 Hlt Hprev Hgap changed.
    rewrite (status_later _ _ _ _ Hasc i y y0 row prev Hi Hrow Hy0 Hlt Hprev Hgap).
    destruct (classify_later prev row (float_tol a)) as [Hmod Hex].
    assert (Hnot : ~ changed <->
              components_agree (float_tol a) prev row /\ desc prev = desc row).
    { unfold changed. rewrite <- not_differs_agree.
      destruct (decide (desc prev = desc row)); tauto. }
    unfold changed in *. clear changed.
    split_and!.
    + rewrite <- Hmod. split; congruence.
    + rewrite Hnot, <- Hex. split; congruence.
    + destruct (classify (Some prev) (Some (desc prev)) row (float_tol a)) eqn:Hc;
        [|now right|now left].
      unfold classify in Hc. now destruct (_ || _).
Qed.

(** Claim C2, as amended. For a present year [y] of a code and the present
    year [y0] just before it (no output year between them has the code),
    with equal descriptions, the difference of two values being the one
    that binary64 arithmetic gives, [abs (a - b)]: when each of the four
    components has two finite values whose difference is at most the
    tolerance, the status of [y] is "existing"; when some component has two
    finite values whose difference is strictly more than the tolerance, it
    is "modified"; and a pair with a value that is not finite counts by
    equality alone: "existing" still when every such pair is equal,
    "modified" when one is not. *)
Theorem tolerance_boundary (a : args) (out : timeline)
    (per_year : gmap Z (gmap string YearRecord)) (code : string)
    (e : timeline_entry) (i : nat) (y y0 : Z) (row prev : YearRecord) :
  main a = Some out -> per_year_of (arg_year a) = Some per_year ->
  codes out !! code = Some e ->
  meta_years out !! i = Some y -> row_of per_year code y = Some row ->
  y0 ∈ meta_years out -> (y0 < y)%Z -> row_of per_year code y0 = Some prev ->
  (forall y', y' ∈ meta_years out -> (y0 < y' < y)%Z ->
     row_of per_year code y' = None) ->
  desc prev = desc row ->
  let tol := float_tol a in
  (Forall (fun f => differ_at_most tol (f prev) (f row)) components ->
   entry_status e !! i = Some (Some Existing))
  /\ (Exists (fun f => differ_by_more tol (f prev) (f row)) components ->
      entry_status e !! i = Some (Some Modified))
  /\ (Forall (fun f => differ_at_most tol (f prev) (f row)
                       \/ nonfinite_equal (f prev) (f row)) components ->
      entry_status e !! i = Some (Some Existing))
  /\ (Exists (fun f => nonfinite_unequal (f prev) (f row)) components ->
      entry_status e !! i = Some (Some Modified)).
Proof.
  intros Hmain Hper He Hi Hrow Hy0 Hlt Hprev Hgap Hdesc tol.
  destruct (main_entry a out per_year code e Hmain Hper He) as (Hasc & _ & ->).
  rewrite (status_later _ _ _ _ Hasc i y y0 row prev Hi Hrow Hy0 Hlt Hprev Hgap).
  fold tol. destruct (classify_later prev row tol) as [Hmod Hex].
  split_and!.
  - intros Hall. do 2 f_equal. apply Hex. split; [|assumption].
    eapply Forall_impl; [exact Hall|]. intros f. apply within_of_at_most.
  - intros Hsome. do 2 f_equal. apply Hmod. left.
    eapply Exists_impl; [exact Hsome|]. intros f. apply differs_of_more.
  - intros Hall. do 2 f_equal. apply Hex. split; [|assumption].
    eapply Forall_impl; [exact Hall|].
    intros f [H|H]; [now apply within_of_at_most|now apply within_of_nonfinite_equal].
  - intros Hsome. do 2 f_equal. apply Hmod. left.
    eapply Exists_impl; [exact Hsome|]. intros f.
    apply differs_of_nonfinite_unequal.
Qed.

(** Claim C3, as amended. For a code of the output: the canonical
    description is the description of the latest output year in which the
    code is present (the empty text when there is none); the override map
    holds, under the key of a present year, that year's description exactly
    when it and the canonical description are both non-empty and differ, and
    it holds nothing else; and a run on the same files supplied in another
    order gives the same output, provided no year is supplied twice. *)
Theorem canonical_description (a : args) (out : timeline)
    (per_year : gmap Z (gmap string YearRecord)) (code : string)
    (e : timeline_entry) :
  main a = Some out -> per_year_of (arg_year a) = Some per_year ->
  codes out !! code = Some e ->
  (forall y row,
     y ∈ meta_years out -> row_of per_year code y = Some row ->
     (forall y', y' ∈ meta_years out -> (y < y')%Z ->
        row_of per_year code y' = None) ->
     entry_desc e = desc row)
  /\ ((forall y, y ∈ meta_years out -> row_of per_year code y = None) ->
      entry_desc e = "")
  /\ (forall y row,
        y ∈ meta_years out -> row_of per_year code y = Some row ->
        entry_desc_overrides e !! str_of_int y
        = if decide (entry_desc e <> "" /\ desc row <> ""
                     /\ desc row <> entry_desc e)
          then Some (desc row) else None)
  /\ (forall k d,
        entry_desc_overrides e !! k = Some d ->
        exists y row, y ∈ meta_years out /\ k = str_of_int y
          /\ row_of per_year code y = Some row /\ d = desc row)
  /\ (forall a',
        arg_year a' ≡ₚ arg_year a -> NoDup (year <$> arg_year a) ->
        arg_years a' = arg_years a -> float_tol a' = float_tol a ->
        main a' = Some out).
Proof.
  intros Hmain Hper He.
  destruct (main_entry a out per_year code e Hmain Hper He) as (Hasc & _ & ->).
  pose proof (ascending_NoDup _ Hasc) as Hnd. simpl.
  split_and!.
  - intros y row [i Hi]%list_elem_of_lookup_1 Hrow Hlater.
    apply (canonical_desc_latest _ _ _ i y row Hi Hrow).
    intros j y' Hij Hy'. apply Hlater.
    + now apply list_elem_of_lookup_2 in Hy'.
    + now apply (Hasc i j y y' Hi Hy').
  - apply canonical_desc_absent.
  - intros y row [i Hi]%list_elem_of_lookup_1 Hrow.
    rewrite (overrides_at_year _ _ _ _ Hnd i y Hi), Hrow. simpl.
    apply override_of_decide.
  - intros k d Hk. apply overrides_keys in Hk as (y & row & Hy & -> & Hrow & Hov).
    exists y, row. split_and!; try assumption; try reflexivity.
    unfold override_of in Hov. destruct (_ && _); congruence.
  - intros a' Hperm Hnd' Hyears Htol.
    now rewrite (main_permutation a a' Hperm Hnd' Hyears Htol).
Qed.

End MainFacts.

(** Claim C1 on the office-visit files: code 99213 in 2021, last present
    in 2019 and absent in 2020, with a changed work value. *)
Lemma status_of_present_year_witness :
  exists out per_year e row prev,
    Timeline.main PyNum.float_of_str no_repr office_visits = Some out
    /\ Timeline.per_year_of PyNum.float_of_str no_repr (arg_year office_visits)
       = Some per_year
    /\ codes out !! "99213" = Some e
    /\ meta_years out !! 2%nat = Some 2021%Z
    /\ row_of per_year "99213" 2021 = Some row
    /\ row_of per_year "99213" 2019 = Some prev
    /\ row_of per_year "99213" 2020 = None
    /\ entry_status e !! 0%nat = Some (Some New)
    /\ entry_status e !! 2%nat = Some (Some Modified).
Proof.
  eexists _, _, _, _, _.
  split; [reflexivity|]. split; [reflexivity|]. split; [reflexivity|].
  split; [reflexivity|]. split; [reflexivity|]. split; [reflexivity|].
  split; [reflexivity|]. split; [reflexivity|].
  eapply (status_of_present_year PyNum.float_of_str no_repr office_visits
            _ _ "99213" _ 2 2021 _);
    [reflexivity|reflexivity|reflexivity|reflexivity|reflexivity| | | | |].
  - apply (list_elem_of_lookup_2 _ 0%nat). reflexivity.
  - lia.
  - reflexivity.
  - intros y' Hy' Hlt. assert (y' = 2020%Z) by lia. subst. reflexivity.
  - left. apply Exists_cons_hd. vm_compute. right. reflexivity.
Defined.

(** Claim C1 as stated fails on values that are not numbers. The record of
    code 99213 is the same in 2019 and in 2020 and holds a NaN: no component
    differs by more than the tolerance and the descriptions are equal, yet
    the status of 2020 is "modified". And with a tolerance that is a NaN
    the unchanged record of code 99214, whose values are all finite, is
    "modified" too. *)
Lemma unchanged_record_modified :
  exists per_year row,
    Timeline.per_year_of PyNum.float_of_str no_repr (arg_year steady_records)
    = Some per_year
    /\ row_of per_year "99213" 2019 = Some row
    /\ row_of per_year "99213" 2020 = Some row
    /\ Forall (fun f =>
         (float_tol steady_records <? abs (f row - f row))%float = false)
         components
    /\ (entry_status
          <$> entry_of (Timeline.main PyNum.float_of_str no_repr steady_records)
                "99213")
       = Some [Some New; Some Modified]
    /\ (entry_status
          <$> entry_of (Timeline.main PyNum.float_of_str no_repr
                          (mkArgs (arg_year steady_records)
                             (arg_years steady_records) nan))
                "99214")
       = Some [Some New; Some Modified].
Proof.
  eexists _, _.
  split; [reflexivity|]. split; [reflexivity|]. split; [reflexivity|].
  split.
  - unfold components.
    repeat first [apply List.Forall_nil | apply List.Forall_cons];
      vm_compute; reflexivity.
  - split; vm_compute; reflexivity.
Qed.

(** Claim C2 on five codes under a tolerance of one half, each in 2019 and
    2020 with the same description: a work value that moves by the
    tolerance is "existing", one that moves by a little more is "modified",
    an infinity that stays is "existing", a NaN that stays is "modified",
    and so is an infinity that becomes a number. *)
Lemma tolerance_boundary_witness :
  exists out per_year e1 e2 e3 e4 e5,
    Timeline.main PyNum.float_of_str no_repr tolerance_edges = Some out
    /\ Timeline.per_year_of PyNum.float_of_str no_repr (arg_year tolerance_edges)
       = Some per_year
    /\ codes out !! "10001" = Some e1 /\ codes out !! "10002" = Some e2
    /\ codes out !! "10003" = Some e3 /\ codes out !! "10004" = Some e4
    /\ codes out !! "10005" = Some e5
    /\ entry_status e1 !! 1%nat = Some (Some Existing)
    /\ entry_status e2 !! 1%nat = Some (Some Modified)
    /\ entry_status e3 !! 1%nat = Some (Some Existing)
    /\ entry_status e4 !! 1%nat = Some (Some Modified)
    /\ entry_status e5 !! 1%nat = Some (Some Modified).
Proof.
  eexists _, _, _, _, _, _, _.
  split; [reflexivity|]. split; [reflexivity|].
  split; [reflexivity|]. split; [reflexivity|]. split; [reflexivity|].
  split; [reflexivity|]. split; [reflexivity|].
  assert (Hin : 2019%Z ∈ [2019; 2020]%Z) by left.
  assert (Hgap : forall code per_year,
            forall y', y' ∈ [2019; 2020]%Z -> (2019 < y' < 2020)%Z ->
              @row_of per_year code y' = None) by (intros; lia).
  split_and!.
  - refine (proj1 (tolerance_boundary PyNum.float_of_str no_repr tolerance_edges
                     _ _ "10001" _ 1 2020 2019 _ _ eq_refl eq_refl eq_refl
                     eq_refl eq_refl Hin _ eq_refl (Hgap _ _) eq_refl) _);
      [lia|].
    unfold components, differ_at_most.
    repeat first [apply List.Forall_nil | apply List.Forall_cons];
      split_and!; reflexivity.
  - refine (proj1 (proj2 (tolerance_boundary PyNum.float_of_str no_repr
                            tolerance_edges
                     _ _ "10002" _ 1 2020 2019 _ _ eq_refl eq_refl eq_refl
                     eq_refl eq_refl Hin _ eq_refl (Hgap _ _) eq_refl)) _);
      [lia|].
    apply Exists_cons_hd. unfold differ_by_more. split_and!; reflexivity.
  - refine (proj1 (proj2 (proj2 (tolerance_boundary PyNum.float_of_str no_repr
                            tolerance_edges
                     _ _ "10003" _ 1 2020 2019 _ _ eq_refl eq_refl eq_refl
                     eq_refl eq_refl Hin _ eq_refl (Hgap _ _) eq_refl))) _);
      [lia|].
    unfold components, differ_at_most, nonfinite_equal.
    repeat first [apply List.Forall_nil | apply List.Forall_cons];
      first [left; split_and!; reflexivity | right; split; reflexivity].
  - refine (proj2 (proj2 (proj2 (tolerance_boundary PyNum.float_of_str no_repr
                            tolerance_edges
                     _ _ "10004" _ 1 2020 2019 _ _ eq_refl eq_refl eq_refl
                     eq_refl eq_refl Hin _ eq_refl (Hgap _ _) eq_refl))) _);
      [lia|].
    apply Exists_cons_tl, Exists_cons_tl, Exists_cons_hd.
    split; reflexivity.
  - refine (proj2 (proj2 (proj2 (tolerance_boundary PyNum.float_of_str no_repr
                            tolerance_edges
                     _ _ "10005" _ 1 2020 2019 _ _ eq_refl eq_refl eq_refl
                     eq_refl eq_refl Hin _ eq_refl (Hgap _ _) eq_refl))) _);
      [lia|].
    apply Exists_cons_tl, Exists_cons_tl, Exists_cons_tl, Exists_cons_hd.
    split; reflexivity.
Defined.

(** Claim C2 as stated fails where the subtraction rounds. The two work
    values of code 99213 stand for numbers that are the tolerance and 2^-68
    more apart, so they differ by strictly more than the tolerance; the
    difference that binary64 arithmetic gives is the tolerance itself, and
    the status of 2020 is "existing". *)
Lemma rounded_difference_within :
  exists per_year prev row,
    Timeline.per_year_of PyNum.float_of_str no_repr (arg_year rounding_edge)
    = Some per_year
    /\ row_of per_year "99213" 2019 = Some prev
    /\ row_of per_year "99213" 2020 = Some row
    /\ desc prev = desc row
    /\ exactly_more_apart (float_tol rounding_edge) (work_rvu prev) (work_rvu row)
    /\ abs (work_rvu prev - work_rvu row) = float_tol rounding_edge
    /\ (entry_status
          <$> entry_of (Timeline.main PyNum.float_of_str no_repr rounding_edge)
                "99213")
       = Some [Some New; Some Existing].
Proof.
  eexists _, _, _.
  split; [reflexivity|]. split; [reflexivity|]. split; [reflexivity|].
  split; [reflexivity|]. split.
  - eexists _, _, _. split; [reflexivity|]. split; [reflexivity|].
    split; [reflexivity|]. vm_compute. reflexivity.
  - split; vm_compute; reflexivity.
Qed.

(** Claim C3 on the office-visit files, which are supplied out of order:
    the description of 2022 is canonical and 2019 is overridden. *)
Lemma canonical_description_witness :
  exists out per_year e row,
    Timeline.main PyNum.float_of_str no_repr office_visits = Some out
    /\ Timeline.per_year_of PyNum.float_of_str no_repr (arg_year office_visits)
       = Some per_year
    /\ codes out !! "99213" = Some e
    /\ row_of per_year "99213" 2022 = Some row
    /\ entry_desc e = "Office visit"
    /\ entry_desc_overrides e !! "2019" = Some "Office visit, brief"
    /\ entry_desc_overrides e !! "2021" = None.
Proof.
  eexists _, _, _, _.
  split; [reflexivity|]. split; [reflexivity|]. split; [reflexivity|].
  split; [reflexivity|].
  split; [|split; reflexivity].
  refine (proj1 (canonical_description PyNum.float_of_str no_repr office_visits
                   _ _ "99213" _ _ _ _) 2022%Z
            (mkYearRecord "Office visit" 1.30005 0.5 1.0 0.1) _ _ _);
    [reflexivity|reflexivity|reflexivity| |reflexivity|].
  - apply (list_elem_of_lookup_2 _ 3%nat). reflexivity.
  - intros y' Hy' Hlt.
    assert (Hin : y' ∈ [2019; 2020; 2021; 2022]%Z) by exact Hy'.
    repeat (apply elem_of_cons in Hin as [->|Hin]; [lia|]). inversion Hin.
Defined.

(** Claim C3 as stated fails in two ways. A present year whose description
    differs from the canonical one is not recorded when either text is
    empty: with the latest year blank the canonical description is empty and
    2019 keeps no override; with 2019 blank and 2020 described, 2019 keeps
    none either. And when one year is supplied twice the later file wins,
    so the two orders give different canonical descriptions. *)
Lemma override_not_recorded :
  (entry_desc <$> entry_of (Timeline.main PyNum.float_of_str no_repr blank_latest)
                    "99213") = Some ""
  /\ (Timeline.per_year_of PyNum.float_of_str no_repr (arg_year blank_latest)
        ≫= fun p => desc <$> row_of p "99213" 2019) = Some "Office visit"
  /\ ((fun e => entry_desc_overrides e !! "2019")
        <$> entry_of (Timeline.main PyNum.float_of_str no_repr blank_latest)
              "99213") = Some None
  /\ (entry_desc <$> entry_of (Timeline.main PyNum.float_of_str no_repr blank_earlier)
                       "99213") = Some "Office visit"
  /\ (Timeline.per_year_of PyNum.float_of_str no_repr (arg_year blank_earlier)
        ≫= fun p => desc <$> row_of p "99213" 2019) = Some ""
  /\ ((fun e => entry_desc_overrides e !! "2019")
        <$> entry_of (Timeline.main PyNum.float_of_str no_repr blank_earlier)
              "99213") = Some None
  /\ arg_year same_year_twice_swapped = reverse (arg_year same_year_twice)
  /\ (entry_desc <$> entry_of (Timeline.main PyNum.float_of_str no_repr
                                 same_year_twice) "99213") = Some "Second file"
  /\ (entry_desc <$> entry_of (Timeline.main PyNum.float_of_str no_repr
                                 same_year_twice_swapped) "99213")
     = Some "First file".
Proof. split_and!; reflexivity. Qed.

End TimelineFacts.

(** ** Snapshots: the RVU table and the validator *)

Module SnapshotFacts.
Import PyStr ParseCms Timeline Props PyStrFacts.

(** *** The last occurrence of a key wins *)

Section LastWins.

Context {A V : Type}.
Variable entry : A -> option (string * V).

Lemma store_fold_lookup (l : list A) (m : gmap string V) (k : string) (v : V) :
  foldl (store_entry entry) m l !! k = Some v <->
  (exists i x, l !! i = Some x /\ entry x = Some (k, v)
     /\ forall j y, (i < j)%nat -> l !! j = Some y ->
          forall v', entry y <> Some (k, v'))
  \/ ((forall y, y ∈ l -> forall v', entry y <> Some (k, v')) /\ m !! k = Some v).
Proof.
  revert m; induction l as [|x l IH]; intros m; simpl.
  - split.
    + intros H. right. split; [inversion 1|exact H].
    + intros [(i & x & H & _)|[_ H]]; [discriminate|exact H].
  - rewrite IH.
    change (store_entry entry m x)
      with (match entry x with Some (k0, v0) => <[k0:=v0]> m | None => m end).
    split.
    + intros [(i & y & Hi & Hy & Hlast)|[Hnone Hm]].
      * left. exists (S i), y. split_and!; [exact Hi|exact Hy|].
        intros [|j] z Hj Hz; [lia|]. apply (Hlast j); [lia|exact Hz].
      * destruct (entry x) as [[k' v0]|] eqn:Hx.
        -- destruct (decide (k' = k)) as [->|Hne].
           ++ rewrite lookup_insert_eq in Hm. injection Hm as ->.
              left. exists 0%nat, x. split_and!; [reflexivity|exact Hx|].
              intros [|j] z Hj Hz; [lia|]. apply Hnone.
              simpl in Hz. eapply list_elem_of_lookup_2, Hz.
           ++ rewrite lookup_insert_ne in Hm by exact Hne. right.
              split; [|exact Hm].
              intros y [->|Hy]%elem_of_cons v'; [congruence|now apply Hnone].
        -- right. split; [|exact Hm].
           intros y [->|Hy]%elem_of_cons v'; [congruence|now apply Hnone].
    + intros [(i & y & Hi & Hy & Hlast)|[Hnone Hm]].
      * destruct i as [|i]; simpl in Hi.
        -- injection Hi as ->. right. split.
           ++ intros z [j Hz]%list_elem_of_lookup_1 v'.
              apply (Hlast (S j)); [lia|exact Hz].
           ++ rewrite Hy. apply lookup_insert_eq.
        -- left. exists i, y. split_and!; [exact Hi|exact Hy|].
           intros j z Hj Hz. apply (Hlast (S j)); [lia|exact Hz].
      * right. split; [intros y Hy; apply Hnone; now right|].
        destruct (entry x) as [[k' v0]|] eqn:Hx; [|exact Hm].
        rewrite lookup_insert_ne; [exact Hm|].
        intros ->. apply (Hnone x ltac:(left) v0). exact Hx.
Qed.

Lemma store_fold_last (l : list A) (k : string) (v : V) :
  foldl (store_entry entry) ∅ l !! k = Some v <->
  exists i x, l !! i = Some x /\ entry x = Some (k, v)
    /\ forall j y, (i < j)%nat -> l !! j = Some y ->
         forall v', entry y <> Some (k, v').
Proof.
  rewrite store_fold_lookup. split; [|now left].
  intros [H|[_ H]]; [exact H|]. now rewrite lookup_empty in H.
Qed.

End LastWins.

Section Parsers.

Variable py_float : string -> option float.
Variable py_repr : json -> string.

Abbreviation rvu_safe_float := (ParseCms.rvu_safe_float py_float).
Abbreviation rvu_row_record := (ParseCms.rvu_row_record py_float).
Abbreviation rvu_rows := (ParseCms.rvu_rows py_float).
Abbreviation parse_rvu_csv := (ParseCms.parse_rvu_csv py_float).
Abbreviation _coerce_float := (Timeline._coerce_float py_float).
Abbreviation coerce_field := (Timeline.coerce_field py_float).
Abbreviation validate_row := (Timeline.validate_row py_float py_repr).
Abbreviation validate_items := (Timeline.validate_items py_float py_repr).
Abbreviation _validate_year_snapshot :=
  (Timeline._validate_year_snapshot py_float py_repr).

(** *** The RVU table *)

Lemma rvu_rows_fold (cols : rvu_columns) (rows : list (list string)) :
  rvu_rows cols rows = foldl (store_entry (rvu_entry py_float cols)) ∅ rows.
Proof.
  unfold ParseCms.rvu_rows. generalize (∅ : gmap string YearRecord).
  induction rows as [|row rows IH]; intros m; simpl; [reflexivity|].
  rewrite IH. f_equal. unfold rvu_row, store_entry, rvu_entry.
  now destruct (rvu_row_code cols row).
Qed.

Lemma rvu_row_code_key (cols : rvu_columns) (row : list string) (code : string) :
  rvu_row_code cols row = Some code ->
  exists cell, row !! cpt_idx cols = Some cell /\ code = strip cell
    /\ trimmed code /\ code <> ""
    /\ one_of (lower code) ["cpt"; "code"; "hcpcs"] = false.
Proof.
  unfold rvu_row_code. destruct (row !! cpt_idx cols) as [cell|]; [|discriminate].
  destruct (is_empty (strip cell)
            || one_of (lower (strip cell)) ["cpt"; "code"; "hcpcs"]) eqn:Hc;
    [discriminate|].
  apply orb_false_iff in Hc as [He Ho]. intros [= <-].
  exists cell. split_and!; try reflexivity.
  - apply strip_trimmed.
  - now apply is_empty_false.
  - exact Ho.
Qed.

Lemma rvu_rows_lookup (cols : rvu_columns) (rows : list (list string))
    (code : string) (r : YearRecord) :
  rvu_rows cols rows !! code = Some r <->
  exists i row, rows !! i = Some row /\ rvu_row_code cols row = Some code
    /\ r = rvu_row_record cols row
    /\ forall j row', (i < j)%nat -> rows !! j = Some row' ->
         rvu_row_code cols row' <> Some code.
Proof.
  rewrite rvu_rows_fold, store_fold_last. unfold rvu_entry. split.
  - intros (i & row & Hi & He & Hlast). exists i, row.
    destruct (rvu_row_code cols row) as [c|] eqn:Hc; [|discriminate].
    injection He as -> ->. split_and!; try reflexivity; try assumption.
    intros j row' Hj Hrow' Hc'. apply (Hlast j row' Hj Hrow' (rvu_row_record cols row')).
    now rewrite Hc'.
  - intros (i & row & Hi & Hc & -> & Hlast). exists i, row.
    rewrite Hc. split_and!; try reflexivity; try assumption.
    intros j row' Hj Hrow' v'. specialize (Hlast j row' Hj Hrow').
    destruct (rvu_row_code cols row'); congruence.
Qed.

Lemma rvu_safe_float_unusable (row : list string) (idx : option nat) :
  cell_unusable py_float row idx -> rvu_safe_float row idx = PyNum.zero.
Proof.
  unfold cell_unusable, ParseCms.rvu_safe_float.
  destruct idx as [i|]; simpl; [|reflexivity].
  destruct (row !! i) as [cell|]; [|reflexivity].
  intros [->| ->]; [reflexivity|].
  now destruct (is_empty _).
Qed.



(** *** The snapshot validator *)

Lemma validate_items_fold (items : list (string * json))
    (m m' : gmap string YearRecord) :
  validate_items m items = Some m' ->
  m' = foldl (store_entry (item_entry py_float py_repr)) m items.
Proof.
  revert m; induction items as [|item items IH]; intros m; simpl.
  - now intros [= <-].
  - unfold validate_item, store_entry, item_entry.
    destruct (validate_row item); [apply IH|apply IH|discriminate].
Qed.


Lemma validate_lookup (items : list (string * json))
    (cleaned : gmap string YearRecord) (code : string) (r : YearRecord) :
  _validate_year_snapshot (JObj items) = Some cleaned ->
  cleaned !! code = Some r <->
  exists i item, items !! i = Some item /\ validate_row item = Stored code r
    /\ forall j item', (i < j)%nat -> items !! j = Some item' ->
         forall r', validate_row item' <> Stored code r'.
Proof.
  simpl. intros ->%validate_items_fold. rewrite store_fold_last.
  unfold item_entry. split.
  - intros (i & item & Hi & He & Hlast). exists i, item.
    destruct (validate_row item) as [|c r0|] eqn:Hv; try discriminate.
    injection He as -> ->. split_and!; try reflexivity; try assumption.
    intros j item' Hj Hitem' r' Hv'.
    apply (Hlast j item' Hj Hitem' r'). now rewrite Hv'.
  - intros (i & item & Hi & Hv & Hlast). exists i, item.
    rewrite Hv. split_and!; try reflexivity; try assumption.
    intros j item' Hj Hitem' v'. specialize (Hlast j item' Hj Hitem').
    destruct (validate_row item') as [|c r0|]; try discriminate.
    intros [= -> ->]. now apply (Hlast v').
Qed.

(** What a stored item was read from. *)
Lemma validate_row_stored (key : string) (v : json) (code : string) (r : YearRecord) :
  validate_row (key, v) = Stored code r ->
  code = upper (strip key) /\ strip key <> ""
  /\ exists fields, v = JObj fields
       /\ forallb (fun k => obj_has k fields) REQUIRED_RVU_FIELDS = true
       /\ desc r = clean_desc py_repr fields
       /\ Forall (fun nf => coerce_field (fst nf) fields = Some (snd nf r))
            numeric_fields.
Proof.
  unfold Timeline.validate_row.
  destruct (is_empty (strip key)) eqn:He; [discriminate|].
  destruct v as [| | | | | |fields]; try discriminate.
  destruct (forallb _ _) eqn:Hall; [|discriminate].
  destruct (coerce_field "work_rvu" fields) as [w|] eqn:Hw; [|discriminate].
  destruct (coerce_field "pe_rvu_fac" fields) as [pf|] eqn:Hpf; [|discriminate].
  destruct (coerce_field "pe_rvu_nonfac" fields) as [pn|] eqn:Hpn; [|discriminate].
  destruct (coerce_field "mp_rvu" fields) as [mp|] eqn:Hmp; [|discriminate].
  intros [= <- <-]. split_and!; [reflexivity|now apply is_empty_false|].
  exists fields. split_and!; [reflexivity|exact Hall|reflexivity|].
  unfold numeric_fields. simpl.
  repeat first [apply List.Forall_nil | apply List.Forall_cons]; assumption.
Qed.

Lemma validate_row_key (key : string) (v : json) (code : string) (r : YearRecord) :
  validate_row (key, v) = Stored code r ->
  code = upper (strip key) /\ trimmed code /\ upper_cased code /\ code <> "".
Proof.
  intros (-> & Hne & _)%validate_row_stored. split_and!.
  - reflexivity.
  - apply upper_strip_trimmed.
  - apply upper_strip_upper_cased.
  - apply is_empty_false. rewrite upper_is_empty. now apply is_empty_false.
Qed.



(** Claim C8, as amended. A snapshot built by [parse_rvu_csv] holds, under
    a code, the record of the last row that stores that code; its keys are
    trimmed and not empty (and none of the header words), in the case the
    file gives them. A snapshot that passes [_validate_year_snapshot] holds,
    under a code, the record of the last item stored under that code; its
    keys are trimmed, upper-cased and not empty. *)
Theorem snapshot_keys_last_wins :
  (forall table data,
     parse_rvu_csv table = Some data ->
     exists headers rows cols,
       table = headers :: rows /\ resolve_rvu_columns headers = Some cols
       /\ forall code r,
            data !! code = Some r <->
            exists i row,
              rows !! i = Some row /\ rvu_row_code cols row = Some code
              /\ r = rvu_row_record cols row
              /\ forall j row', (i < j)%nat -> rows !! j = Some row' ->
                   rvu_row_code cols row' <> Some code)
  /\ (forall cols row code,
        rvu_row_code cols row = Some code ->
        exists cell, row !! cpt_idx cols = Some cell /\ code = strip cell
          /\ trimmed code /\ code <> ""
          /\ one_of (lower code) ["cpt"; "code"; "hcpcs"] = false)
  /\ (forall items cleaned,
        _validate_year_snapshot (JObj items) = Some cleaned ->
        forall code r,
          cleaned !! code = Some r <->
          exists i item,
            items !! i = Some item /\ validate_row item = Stored code r
            /\ forall j item', (i < j)%nat -> items !! j = Some item' ->
                 forall r', validate_row item' <> Stored code r')
  /\ (forall key v code r,
        validate_row (key, v) = Stored code r ->
        code = upper (strip key) /\ trimmed code /\ upper_cased code
        /\ code <> "").
Proof.
  split_and!.
  - intros table data. unfold ParseCms.parse_rvu_csv.
    destruct table as [|headers rows]; [discriminate|].
    destruct (resolve_rvu_columns headers) as [cols|] eqn:Hcols; [|discriminate].
    intros [= <-]. exists headers, rows, cols.
    split_and!; [reflexivity|exact Hcols|]. intros code r.
    apply rvu_rows_lookup.
  - apply rvu_row_code_key.
  - intros items cleaned Hv code r. now apply validate_lookup.
  - apply validate_row_key.
Qed.


End Parsers.

(** Claim C8 on a snapshot file with the keys " g0101 " and "G0101": one
    key remains, with the record of the second. *)
Lemma snapshot_keys_last_wins_witness :
  exists cleaned,
    Timeline._validate_year_snapshot PyNum.float_of_str no_repr
      (JObj repeated_code_items) = Some cleaned
    /\ desc <$> cleaned !! "G0101" = Some "Screening, second"
    /\ size cleaned = 1%nat.
Proof.
  eexists. split; [reflexivity|]. split; [|reflexivity].
  refine (f_equal (fmap desc)
            (proj2 (proj1 (proj2 (proj2
               (snapshot_keys_last_wins PyNum.float_of_str no_repr)))
               repeated_code_items _ eq_refl "G0101"
               (mkYearRecord "Screening, second" 0.5 0.3 0.6 0.05)) _)).
  exists 1%nat, ("G0101", snapshot_row "Screening, second" 0.5 0.3 0.6 0.05).
  split_and!; [reflexivity|reflexivity|].
  intros j item' Hj Hitem'.
  destruct j as [|[|j]]; [lia|lia|discriminate].
Defined.

(** Claim C8 as stated fails for [parse_rvu_csv]: the code "g0101" of the
    table is kept in lower case, and nothing is stored under "G0101". *)
Lemma rvu_key_keeps_case :
  (ParseCms.parse_rvu_csv PyNum.float_of_str lower_case_table
     ≫= fun data => desc <$> data !! "g0101") = Some "Screening"
  /\ upper "g0101" = "G0101"
  /\ ((fun data : gmap string YearRecord => data !! "G0101")
        <$> ParseCms.parse_rvu_csv PyNum.float_of_str lower_case_table)
     = Some None.
Proof. split_and!; reflexivity. Qed.



End SnapshotFacts.

(** ** The GPCI rows *)

Module GpciFacts.
Import PyStr ParseCms Props PyStrFacts SnapshotFacts.

Lemma numeric_char_spec (c : ascii) :
  numeric_char c = true <-> is_digit c = true \/ c = "."%char \/ c = "-"%char.
Proof.
  unfold numeric_char. rewrite !orb_true_iff, !Ascii.eqb_eq. tauto.
Qed.

Lemma clean_numeric_chars (s : string) :
  all_chars numeric_char (clean_numeric s) = true.
Proof. apply all_keep_chars. Qed.

Lemma numeric_char_alphabet (c : ascii) :
  numeric_char c
  = existsb (Ascii.eqb c) (list_ascii_of_string "0123456789.-").
Proof. destruct c as [[] [] [] [] [] [] [] []]; reflexivity. Qed.

Lemma clean_numeric_words (s : string) :
  clean_numeric s = digits_points_minus s.
Proof.
  unfold clean_numeric, digits_points_minus.
  induction s as [|c s IH]; [reflexivity|].
  cbn [keep_chars list_ascii_of_string List.filter].
  rewrite numeric_char_alphabet, IH.
  now destruct (existsb (Ascii.eqb c) _).
Qed.


Section Rows.

Variable py_float : string -> option float.

Abbreviation rvu_safe_float := (ParseCms.rvu_safe_float py_float).
Abbreviation rvu_row_record := (ParseCms.rvu_row_record py_float).
Abbreviation rvu_row := (ParseCms.rvu_row py_float).
Abbreviation gpci_safe_float := (ParseCms.gpci_safe_float py_float).
Abbreviation gpci_row := (ParseCms.gpci_row py_float).
Abbreviation gpci_rows_from := (ParseCms.gpci_rows_from py_float).
Abbreviation unusable := (cell_unusable py_float).

Lemma rvu_row_kept (cols : rvu_columns) (data : gmap string YearRecord)
    (row : list string) (code : string) :
  rvu_row_code cols row = Some code ->
  rvu_row cols data row !! code = Some (rvu_row_record cols row).
Proof. unfold ParseCms.rvu_row. intros ->. apply lookup_insert_eq. Qed.

Lemma gpci_safe_float_None (row : list string) (idx : option nat) :
  gpci_safe_float row idx = None <-> unusable row idx.
Proof.
  unfold cell_unusable, ParseCms.gpci_safe_float.
  destruct idx as [i|]; simpl; [|tauto].
  destruct (row !! i) as [cell|]; [|tauto].
  destruct (is_empty (clean_numeric (strip cell))) eqn:He.
  - apply is_empty_true in He. tauto.
  - apply is_empty_false in He. tauto.
Qed.

Lemma safe_float_cleaned (row : list string) (i : nat) (cell : string) :
  row !! i = Some cell -> clean_numeric (strip cell) <> "" ->
  rvu_safe_float row (Some i)
  = default PyNum.zero (py_float (clean_numeric (strip cell)))
  /\ gpci_safe_float row (Some i) = py_float (clean_numeric (strip cell)).
Proof.
  unfold ParseCms.rvu_safe_float, ParseCms.gpci_safe_float.
  intros -> Hne%is_empty_false. rewrite Hne. split; [|reflexivity].
  now destruct (py_float _).
Qed.

Lemma gpci_row_non_data (cols : gpci_columns)
    (acc : gmap string gpci_record * nat) (row : list string) :
  gpci_non_data cols row = true -> gpci_row cols acc row = Some acc.
Proof. unfold ParseCms.gpci_row. destruct acc. now intros ->. Qed.

Lemma gpci_row_dropped (cols : gpci_columns) (data : gmap string gpci_record)
    (skipped : nat) (row : list string) :
  gpci_non_data cols row = false ->
  unusable row (Some (work_gpci_idx cols))
  \/ unusable row (Some (pe_gpci_idx cols))
  \/ unusable row (Some (mp_gpci_idx cols)) ->
  gpci_row cols (data, skipped) row = Some (data, S skipped).
Proof.
  unfold ParseCms.gpci_row. intros -> H.
  rewrite <- !gpci_safe_float_None in H.
  destruct (gpci_safe_float row (Some (work_gpci_idx cols))),
    (gpci_safe_float row (Some (pe_gpci_idx cols))),
    (gpci_safe_float row (Some (mp_gpci_idx cols)));
    try reflexivity; destruct H as [H|[H|H]]; discriminate.
Qed.

Lemma gpci_row_counter (cols : gpci_columns) (data : gmap string gpci_record)
    (skipped : nat) (row : list string) :
  gpci_row cols (data, S skipped) row
  = one_more_skipped <$> gpci_row cols (data, skipped) row.
Proof.
  unfold ParseCms.gpci_row. destruct (gpci_non_data cols row); [reflexivity|].
  destruct (gpci_safe_float row (Some (work_gpci_idx cols))),
    (gpci_safe_float row (Some (pe_gpci_idx cols))),
    (gpci_safe_float row (Some (mp_gpci_idx cols))); try reflexivity.
  now destruct (gpci_row_key py_float cols row).
Qed.

Lemma gpci_rows_counter (cols : gpci_columns) (rows : list (list string))
    (data : gmap string gpci_record) (skipped : nat) :
  gpci_rows_from cols (data, S skipped) rows
  = one_more_skipped <$> gpci_rows_from cols (data, skipped) rows.
Proof.
  revert data skipped; induction rows as [|row rows IH]; intros data skipped;
    cbn [ParseCms.gpci_rows_from]; [reflexivity|].
  rewrite gpci_row_counter.
  destruct (gpci_row cols (data, skipped) row) as [[data' skipped']|];
    [|reflexivity].
  cbn [fmap option_fmap option_map one_more_skipped fst snd]. apply IH.
Qed.

(** The output is what it would be without a dropped row, but for the
    counter. *)
Lemma gpci_rows_without (cols : gpci_columns) (pre post : list (list string))
    (acc : gmap string gpci_record * nat) (row : list string) :
  gpci_non_data cols row = false ->
  unusable row (Some (work_gpci_idx cols))
  \/ unusable row (Some (pe_gpci_idx cols))
  \/ unusable row (Some (mp_gpci_idx cols)) ->
  gpci_rows_from cols acc (pre ++ row :: post)
  = one_more_skipped <$> gpci_rows_from cols acc (pre ++ post).
Proof.
  intros Hdata Hbad. revert acc; induction pre as [|x pre IH]; intros acc;
    cbn [app ParseCms.gpci_rows_from].
  - destruct acc as [data skipped].
    rewrite (gpci_row_dropped cols data skipped row Hdata Hbad).
    apply gpci_rows_counter.
  - destruct (gpci_row cols acc x) as [acc'|]; [apply IH|reflexivity].
Qed.

(** Claim C7, as amended. In the RVU table a row with a code is kept, and a
    numeric field that is missing or unparseable is 0.0. In the GPCI table
    a data row (one the loop does not pass over as a note or a blank line)
    whose work, practice-expense or malpractice index is missing or
    unparseable is dropped and counted: the output object is unchanged, the
    counter goes up by one, and the whole run gives what it gives without
    the row, but for the counter. A row that is passed over as a note or a
    blank line is dropped without being counted. In both parsers the number
    parsed is the trimmed cell with every character other than a digit, a
    point or a minus removed: the digits, the points and the minus signs of
    the cell stay, in order. *)
Theorem numeric_parsing_asymmetry :
  (forall cols data row code,
     rvu_row_code cols row = Some code ->
     rvu_row cols data row !! code = Some (rvu_row_record cols row)
     /\ Forall (fun cf => unusable row (fst cf cols) ->
                          snd cf (rvu_row_record cols row) = PyNum.zero)
          numeric_columns)
  /\ (forall cols row,
        gpci_non_data cols row = false ->
        unusable row (Some (work_gpci_idx cols))
        \/ unusable row (Some (pe_gpci_idx cols))
        \/ unusable row (Some (mp_gpci_idx cols)) ->
        (forall data skipped,
           gpci_row cols (data, skipped) row = Some (data, S skipped))
        /\ (forall acc pre post,
              gpci_rows_from cols acc (pre ++ row :: post)
              = one_more_skipped <$> gpci_rows_from cols acc (pre ++ post)))
  /\ (forall cols acc row,
        gpci_non_data cols row = true -> gpci_row cols acc row = Some acc)
  /\ (forall row idx, gpci_safe_float row idx = None <-> unusable row idx)
  /\ (forall row i cell,
        row !! i = Some cell -> clean_numeric (strip cell) <> "" ->
        rvu_safe_float row (Some i)
        = default PyNum.zero (py_float (clean_numeric (strip cell)))
        /\ gpci_safe_float row (Some i) = py_float (clean_numeric (strip cell)))
  /\ (forall s, all_chars numeric_char (clean_numeric s) = true)
  /\ (forall c, numeric_char c = true <->
                is_digit c = true \/ c = "."%char \/ c = "-"%char)
  /\ (forall s, clean_numeric s = digits_points_minus s).
Proof.
  split_and!.
  - intros cols data row code Hcode. split; [now apply rvu_row_kept|].
    unfold numeric_columns.
    repeat first [apply List.Forall_nil | apply List.Forall_cons];
      apply rvu_safe_float_unusable.
  - intros cols row Hdata Hbad. split.
    + intros data skipped. now apply gpci_row_dropped.
    + intros acc pre post. now apply gpci_rows_without.
  - apply gpci_row_non_data.
  - apply gpci_safe_float_None.
  - apply safe_float_cleaned.
  - apply clean_numeric_chars.
  - apply numeric_char_spec.
  - apply clean_numeric_words.
Qed.

End Rows.

(** Claim C7 on a GPCI row with a blank practice-expense index, and on two
    cells: the cleaning keeps the minus, the digits and the point of a cell
    and drops the rest, and a cell cleaned to -1.5 is read as -1.5 by both
    parsers. *)
Lemma numeric_parsing_asymmetry_witness :
  clean_numeric "$ -1,234.50 USD" = "-1234.50"
  /\ ParseCms.rvu_safe_float PyNum.float_of_str ["(-1.5)"] (Some 0%nat)
     = (-1.5)%float
  /\ ParseCms.gpci_safe_float PyNum.float_of_str ["(-1.5)"] (Some 0%nat)
     = Some (-1.5)%float
  /\ resolve_gpci_columns gpci_header = Some gpci_header_columns
  /\ gpci_non_data gpci_header_columns blank_pe_row = false
  /\ cell_unusable PyNum.float_of_str blank_pe_row
       (Some (pe_gpci_idx gpci_header_columns))
  /\ ParseCms.gpci_row PyNum.float_of_str gpci_header_columns (∅, 0%nat)
       blank_pe_row = Some (∅, 1%nat)
  /\ ((fun r : gmap string gpci_record * nat => (dom (fst r), snd r))
        <$> ParseCms.parse_gpci_csv PyNum.float_of_str
              [gpci_header; alabama_row; blank_pe_row])
     = Some ({["AL-0"]}, 1%nat).
Proof.
  assert (Hcell : cell_unusable PyNum.float_of_str blank_pe_row
                    (Some (pe_gpci_idx gpci_header_columns)))
    by (left; reflexivity).
  split.
  { rewrite (proj2 (proj2 (proj2 (proj2 (proj2 (proj2 (proj2
               (numeric_parsing_asymmetry PyNum.float_of_str)))))))
               "$ -1,234.50 USD").
    reflexivity. }
  split.
  { rewrite (proj1 (proj1 (proj2 (proj2 (proj2 (proj2
               (numeric_parsing_asymmetry PyNum.float_of_str)))))
               ["(-1.5)"] 0%nat "(-1.5)" eq_refl ltac:(discriminate))).
    vm_compute. reflexivity. }
  split.
  { rewrite (proj2 (proj1 (proj2 (proj2 (proj2 (proj2
               (numeric_parsing_asymmetry PyNum.float_of_str)))))
               ["(-1.5)"] 0%nat "(-1.5)" eq_refl ltac:(discriminate))).
    vm_compute. reflexivity. }
  split; [reflexivity|]. split; [reflexivity|]. split; [exact Hcell|].
  split; [|vm_compute; reflexivity].
  exact (proj1 (proj1 (proj2 (numeric_parsing_asymmetry PyNum.float_of_str))
                  gpci_header_columns blank_pe_row eq_refl
                  (or_intror (or_introl Hcell)))
           ∅ 0%nat).
Defined.

(** Claim C7 as stated fails on a row that has no locality number: its
    practice-expense index is missing, and it is dropped, but the skip
    counter stays at 0. *)
Lemma blank_locality_row_not_counted :
  ParseCms.gpci_safe_float PyNum.float_of_str blank_pe_note_row
    (Some (pe_gpci_idx gpci_header_columns)) = None
  /\ ParseCms.gpci_row PyNum.float_of_str gpci_header_columns (∅, 0%nat)
       blank_pe_note_row = Some (∅, 0%nat)
  /\ ((fun r : gmap string gpci_record * nat => (dom (fst r), snd r))
        <$> ParseCms.parse_gpci_csv PyNum.float_of_str
              [gpci_header; alabama_row; blank_pe_note_row])
     = Some ({["AL-0"]}, 0%nat).
Proof. split_and!; vm_compute; reflexivity. Qed.

End GpciFacts.

(** * Further properties of the code *)

(** ** The timeline builder: arrays, inputs and failures *)

Module RunFacts.
Import PyStr Timeline Props PyStrFacts FloatFacts TimelineFacts.

(** *** One numeric array of the per-code loop *)

Section Column.

Variable per_year : gmap Z (gmap string YearRecord).
Variable code : string.
Variable canonical_desc : string.
Variable tol : float.
Variable index : gmap Z nat.

(** An array of the loop and the component written to it. *)
Variable arr : code_state -> list (option float).
Variable comp : YearRecord -> float.

Abbreviation step := (year_step per_year code canonical_desc tol index).

Hypothesis arr_step : forall st y,
  arr (step st y)
  = match index !! y, row_of per_year code y with
    | Some idx, Some row => <[idx := Some (comp row)]> (arr st)
    | _, _ => arr st
    end.

Lemma column_length (l : list Z) (st : code_state) :
  length (arr (foldl step st l)) = length (arr st).
Proof.
  revert st; induction l as [|y l IH]; intros st; simpl; [reflexivity|].
  rewrite IH, arr_step. destruct (index !! y); [|reflexivity].
  destruct (row_of per_year code y); [|reflexivity]. apply length_insert.
Qed.

Lemma column_frame (l : list Z) (st : code_state) (i : nat) :
  (forall y, y ∈ l -> index !! y = Some i -> row_of per_year code y = None) ->
  arr (foldl step st l) !! i = arr st !! i.
Proof.
  revert st; induction l as [|y l IH]; intros st H; simpl; [reflexivity|].
  rewrite IH by (intros y' Hy'; apply H; now right).
  rewrite arr_step. destruct (index !! y) as [idx|] eqn:Hidx; [|reflexivity].
  destruct (row_of per_year code y) as [row|] eqn:Hrow; [|reflexivity].
  apply list_lookup_insert_ne. intros ->.
  assert (Hin : y ∈ y :: l) by left. specialize (H y Hin Hidx). congruence.
Qed.

End Column.

(** The four numeric arrays and the status array are written alike. *)
Lemma work_step per_year code canonical_desc tol index st y :
  work (year_step per_year code canonical_desc tol index st y)
  = match index !! y, row_of per_year code y with
    | Some idx, Some row => <[idx := Some (work_rvu row)]> (work st)
    | _, _ => work st
    end.
Proof.
  unfold year_step. destruct (index !! y); [|reflexivity].
  now destruct (row_of per_year code y).
Qed.

Lemma pe_fac_step per_year code canonical_desc tol index st y :
  pe_fac (year_step per_year code canonical_desc tol index st y)
  = match index !! y, row_of per_year code y with
    | Some idx, Some row => <[idx := Some (pe_rvu_fac row)]> (pe_fac st)
    | _, _ => pe_fac st
    end.
Proof.
  unfold year_step. destruct (index !! y); [|reflexivity].
  now destruct (row_of per_year code y).
Qed.

Lemma pe_nonfac_step per_year code canonical_desc tol index st y :
  pe_nonfac (year_step per_year code canonical_desc tol index st y)
  = match index !! y, row_of per_year code y with
    | Some idx, Some row => <[idx := Some (pe_rvu_nonfac row)]> (pe_nonfac st)
    | _, _ => pe_nonfac st
    end.
Proof.
  unfold year_step. destruct (index !! y); [|reflexivity].
  now destruct (row_of per_year code y).
Qed.

Lemma mp_step per_year code canonical_desc tol index st y :
  mp (year_step per_year code canonical_desc tol index st y)
  = match index !! y, row_of per_year code y with
    | Some idx, Some row => <[idx := Some (mp_rvu row)]> (mp st)
    | _, _ => mp st
    end.
Proof.
  unfold year_step. destruct (index !! y); [|reflexivity].
  now destruct (row_of per_year code y).
Qed.

Section Columns.

Variable per_year : gmap Z (gmap string YearRecord).
Variable code : string.
Variable tol : float.
Variable years : list Z.
Hypothesis years_distinct : NoDup years.

Variable arr : code_state -> list (option float).
Variable comp : YearRecord -> float.

Hypothesis arr_step : forall canonical_desc index st y,
  arr (year_step per_year code canonical_desc tol index st y)
  = match index !! y, row_of per_year code y with
    | Some idx, Some row => <[idx := Some (comp row)]> (arr st)
    | _, _ => arr st
    end.

Hypothesis arr_initial : forall n, arr (initial_state n) = replicate n None.

Lemma column_run_length :
  length (arr (run_years per_year years tol code)) = length years.
Proof.
  unfold run_years.
  rewrite (column_length per_year code _ tol _ arr comp (arr_step _ _)).
  now rewrite arr_initial, length_replicate.
Qed.

Lemma column_at_index (i : nat) (y : Z) :
  years !! i = Some y ->
  arr (run_years per_year years tol code) !! i
  = Some (comp <$> row_of per_year code y).
Proof.
  intros Hi. rewrite (run_years_split per_year code tol years i y Hi).
  pose proof (lookup_lt_Some _ _ _ Hi) as Hlt.
  rewrite (column_frame per_year code _ tol _ arr comp (arr_step _ _)).
  2:{ intros y' Hy' Hidx. exfalso.
      now apply (index_of_later years years_distinct i y'). }
  rewrite arr_step, (years_index_lookup years i y years_distinct Hi).
  destruct (row_of per_year code y) as [row|] eqn:Hrow; simpl.
  - apply list_lookup_insert_eq.
    rewrite (column_length per_year code _ tol _ arr comp (arr_step _ _)).
    now rewrite arr_initial, length_replicate.
  - rewrite (column_frame per_year code _ tol _ arr comp (arr_step _ _)).
    + rewrite arr_initial. now apply lookup_replicate_2.
    + intros y' Hy' Hidx. exfalso.
      now apply (index_of_earlier years years_distinct i y').
Qed.

End Columns.

(** *** The record seen last by the loop *)

Section Previous.

Variable per_year : gmap Z (gmap string YearRecord).
Variable code : string.
Variable canonical_desc : string.
Variable tol : float.
Variable index : gmap Z nat.

Abbreviation step := (year_step per_year code canonical_desc tol index).

Lemma step_prev_kept (st : code_state) (y : Z) :
  is_Some (prev_row st) -> is_Some (prev_row (step st y)).
Proof.
  unfold year_step. destruct (index !! y); [|easy].
  destruct (row_of per_year code y); [|easy]. now eexists.
Qed.

Lemma run_prev_kept (l : list Z) (st : code_state) :
  is_Some (prev_row st) -> is_Some (prev_row (foldl step st l)).
Proof.
  revert st; induction l as [|y l IH]; intros st H; simpl; [exact H|].
  apply IH. now apply step_prev_kept.
Qed.

Lemma run_prev_None (l : list Z) (st : code_state) :
  prev_row (foldl step st l) = None ->
  forall y, y ∈ l -> is_Some (index !! y) -> row_of per_year code y = None.
Proof.
  revert st; induction l as [|x l IH]; intros st Hnone y Hy Hidx;
    [inversion Hy|]. simpl in Hnone.
  apply elem_of_cons in Hy as [->|Hy]; [|now apply (IH _ Hnone)].
  destruct (row_of per_year code x) as [row|] eqn:Hrow; [|reflexivity].
  destruct Hidx as [idx Hidx].
  destruct (step_prev per_year code canonical_desc tol index st x idx row
              Hidx Hrow) as [Hp _].
  assert (Hs : is_Some (prev_row (foldl step (step st x) l)))
    by (apply run_prev_kept; rewrite Hp; now eexists).
  rewrite Hnone in Hs. now destruct Hs.
Qed.

End Previous.

Lemma classify_New (prev_row : option YearRecord) (prev_desc : option string)
    (row : YearRecord) (tol : float) :
  classify prev_row prev_desc row tol = New <-> prev_row = None.
Proof.
  unfold classify. destruct prev_row as [prev|]; [|easy].
  split; [|discriminate]. now destruct (_ || _).
Qed.

Section FirstYear.

Variable per_year : gmap Z (gmap string YearRecord).
Variable code : string.
Variable tol : float.
Variable years : list Z.
Hypothesis years_ascending : ascending years.

Lemma status_New_iff (i : nat) (y : Z) :
  years !! i = Some y ->
  entry_status (build_entry per_year years tol code) !! i = Some (Some New)
  <-> is_Some (row_of per_year code y)
      /\ forall y', y' ∈ years -> (y' < y)%Z -> row_of per_year code y' = None.
Proof.
  intros Hi. pose proof (ascending_NoDup _ years_ascending) as Hnd. split.
  - simpl. rewrite (status_at_index _ _ _ _ Hnd i y Hi).
    destruct (row_of per_year code y) as [row|] eqn:Hrow; [|discriminate].
    simpl. intros [= Hc]. apply classify_New in Hc.
    split; [now eexists|]. intros y' [j Hj]%list_elem_of_lookup_1 Hlt.
    apply (run_prev_None _ _ _ _ _ _ _ Hc).
    + apply elem_of_take. exists j. split; [assumption|].
      now apply (years_ascending j i y' y Hj Hi).
    + rewrite (years_index_lookup years j y' Hnd Hj). now eexists.
  - intros [[row Hrow] Hearlier].
    now apply (status_first per_year code tol years years_ascending i y row).
Qed.

Lemma status_None_iff (i : nat) (y : Z) :
  years !! i = Some y ->
  entry_status (build_entry per_year years tol code) !! i = Some None
  <-> row_of per_year code y = None.
Proof.
  intros Hi. pose proof (ascending_NoDup _ years_ascending) as Hnd. simpl.
  rewrite (status_at_index _ _ _ _ Hnd i y Hi).
  destruct (row_of per_year code y); split; congruence.
Qed.

End FirstYear.


(** The four numeric arrays of an entry, by output years. *)
Lemma numeric_arrays_at (per_year : gmap Z (gmap string YearRecord))
    (code : string) (tol : float) (years : list Z) :
  NoDup years ->
  Forall (fun af =>
    length (fst af (build_entry per_year years tol code)) = length years
    /\ forall i y, years !! i = Some y ->
         fst af (build_entry per_year years tol code) !! i
         = Some (snd af <$> row_of per_year code y))
    numeric_arrays.
Proof.
  intros Hnd. unfold numeric_arrays.
  repeat first [apply List.Forall_nil | apply List.Forall_cons]; simpl; split.
  - apply (column_run_length per_year code _ _ work work_rvu);
      [intros; apply work_step|reflexivity].
  - intros i y. apply (column_at_index per_year code _ _ Hnd work work_rvu);
      [intros; apply work_step|reflexivity].
  - apply (column_run_length per_year code _ _ pe_fac pe_rvu_fac);
      [intros; apply pe_fac_step|reflexivity].
  - intros i y. apply (column_at_index per_year code _ _ Hnd pe_fac pe_rvu_fac);
      [intros; apply pe_fac_step|reflexivity].
  - apply (column_run_length per_year code _ _ pe_nonfac pe_rvu_nonfac);
      [intros; apply pe_nonfac_step|reflexivity].
  - intros i y.
    apply (column_at_index per_year code _ _ Hnd pe_nonfac pe_rvu_nonfac);
      [intros; apply pe_nonfac_step|reflexivity].
  - apply (column_run_length per_year code _ _ mp mp_rvu);
      [intros; apply mp_step|reflexivity].
  - intros i y. apply (column_at_index per_year code _ _ Hnd mp mp_rvu);
      [intros; apply mp_step|reflexivity].
Qed.

(** *** The sorted inputs *)

Lemma insert_by_year_filter (y : Z) (yi : YearInput) (l : list YearInput) :
  inputs_of_year y (insert_by_year yi l) = inputs_of_year y (yi :: l).
Proof.
  unfold inputs_of_year. induction l as [|x l IH]; simpl; [reflexivity|].
  destruct (Z.leb_spec (year yi) (year x)) as [Hle|Hgt]; [reflexivity|].
  rewrite (filter_cons _ x (insert_by_year yi l)), IH.
  rewrite (filter_cons _ yi (x :: l)), (filter_cons _ yi l), (filter_cons _ x l).
  repeat case_decide; try reflexivity. lia.
Qed.

Lemma build_year_inputs_filter (y : Z) (pairs : list YearInput) :
  inputs_of_year y (_build_year_inputs pairs) = inputs_of_year y pairs.
Proof.
  unfold _build_year_inputs. induction pairs as [|x l IH]; simpl; [reflexivity|].
  rewrite insert_by_year_filter. unfold inputs_of_year in *.
  now rewrite !filter_cons, IH.
Qed.

Lemma insert_by_year_sorted (yi : YearInput) (l : list YearInput) :
  Sorted (fun a b => (year a <= year b)%Z) l ->
  Sorted (fun a b => (year a <= year b)%Z) (insert_by_year yi l).
Proof.
  induction 1 as [|x l Hs IH Hhd]; simpl.
  - repeat constructor.
  - destruct (Z.leb_spec (year yi) (year x)) as [Hle|Hgt].
    + constructor; [now constructor|now constructor].
    + constructor; [exact IH|].
      destruct Hhd as [|z l Hxz]; simpl.
      * constructor. lia.
      * destruct (Z.leb_spec (year yi) (year z)); constructor; lia.
Qed.

Lemma build_year_inputs_sorted (pairs : list YearInput) :
  Sorted (fun a b => (year a <= year b)%Z) (_build_year_inputs pairs).
Proof.
  unfold _build_year_inputs. induction pairs as [|x l IH]; simpl.
  - constructor.
  - now apply insert_by_year_sorted.
Qed.

(** Property X6: the sort of the inputs. [_build_year_inputs] returns the
    inputs it is given, each as often as given, in ascending order of their
    years; the inputs of one year stay in the order of the command line. *)
Theorem year_inputs_sorted_stable (pairs : list YearInput) :
  Sorted (fun a b => (year a <= year b)%Z) (_build_year_inputs pairs)
  /\ _build_year_inputs pairs ≡ₚ pairs
  /\ forall y, inputs_of_year y (_build_year_inputs pairs) = inputs_of_year y pairs.
Proof.
  split_and!.
  - apply build_year_inputs_sorted.
  - induction pairs as [|x l IH]; [reflexivity|].
    unfold _build_year_inputs in *. simpl.
    rewrite insert_by_year_perm. now rewrite IH.
  - intros y. apply build_year_inputs_filter.
Qed.

Lemma filter_none_any {A : Type} (P : A -> Prop) `{!forall x, Decision (P x)}
    (l : list A) :
  (forall x, x ∈ l -> ~ P x) -> filter P l = [].
Proof.
  induction l as [|x l IH]; intros Hall; [reflexivity|].
  rewrite filter_cons_False by (apply Hall; left).
  apply IH. intros z Hz. apply Hall. now right.
Qed.

Section Outputs.

Variable py_float : string -> option float.
Variable py_repr : json -> string.

Abbreviation main := (Timeline.main py_float py_repr).
Abbreviation per_year_of := (Timeline.per_year_of py_float py_repr).
Abbreviation validate := (_validate_year_snapshot py_float py_repr).
Abbreviation load := (load_snapshots py_float py_repr).
Abbreviation kept := (kept_snapshot py_float py_repr).

Lemma load_last (l : list YearInput) (m m' : gmap Z (gmap string YearRecord))
    (y : Z) :
  load m l = Some m' ->
  m' !! y = match last (inputs_of_year y l) with
            | Some yi => validate (raw yi)
            | None => m !! y
            end.
Proof.
  unfold inputs_of_year.
  revert m; induction l as [|x l IH]; intros m Hload; simpl in Hload.
  - now injection Hload as <-.
  - destruct (validate (raw x)) as [s|] eqn:Hval; [|discriminate].
    rewrite (IH _ Hload), filter_cons. case_decide as Hy.
    + destruct (filter _ l) as [|z f] eqn:Hf; simpl.
      * now rewrite <- Hy, lookup_insert_eq.
      * rewrite last_cons. now destruct (last f).
    + destruct (last (filter _ l)); [reflexivity|].
      now apply lookup_insert_ne.
Qed.

Lemma per_year_last (pairs : list YearInput)
    (per_year : gmap Z (gmap string YearRecord)) (y : Z) :
  per_year_of pairs = Some per_year ->
  per_year !! y = last (inputs_of_year y pairs) ≫= fun yi => validate (raw yi).
Proof.
  unfold Timeline.per_year_of. intros Hload.
  rewrite (load_last _ _ _ y Hload), build_year_inputs_filter.
  now destruct (last (inputs_of_year y pairs)).
Qed.

Lemma per_year_absent (pairs : list YearInput)
    (per_year : gmap Z (gmap string YearRecord)) (y : Z) :
  per_year_of pairs = Some per_year ->
  (forall yi, yi ∈ pairs -> year yi <> y) -> per_year !! y = None.
Proof.
  intros Hper Hno. rewrite (per_year_last pairs per_year y Hper).
  unfold inputs_of_year. rewrite filter_none_any; [reflexivity|].
  intros yi Hin. now apply Hno.
Qed.

(** Property X1: the numeric arrays. In the entry of a code, the status
    array and the four numeric arrays have one position per output year; at
    the position of a year a numeric array holds the component of the code's
    record in that year's snapshot, unchanged, and null when that snapshot
    lacks the code or there is none; the status is null in exactly those
    years. *)
Theorem arrays_follow_snapshots (a : args) (out : timeline)
    (per_year : gmap Z (gmap string YearRecord)) (code : string)
    (e : timeline_entry) :
  main a = Some out -> per_year_of (arg_year a) = Some per_year ->
  codes out !! code = Some e ->
  length (entry_status e) = length (meta_years out)
  /\ Forall (fun af =>
       length (fst af e) = length (meta_years out)
       /\ forall i y, meta_years out !! i = Some y ->
            fst af e !! i = Some (snd af <$> row_of per_year code y))
       numeric_arrays
  /\ (forall i y, meta_years out !! i = Some y ->
        entry_status e !! i = Some None <-> row_of per_year code y = None).
Proof.
  intros Hmain Hper He.
  destruct (main_entry py_float py_repr a out per_year code e Hmain Hper He)
    as (Hasc & _ & ->).
  pose proof (ascending_NoDup _ Hasc) as Hnd.
  split_and!.
  - simpl. unfold run_years. rewrite run_status_length. simpl.
    apply length_replicate.
  - now apply numeric_arrays_at.
  - intros i y Hi. now apply status_None_iff.
Qed.

(** Property X2: the status "new". In the entry of a code, the status at the
    position of an output year is "new" exactly when that year is the first
    output year whose snapshot holds the code; so "new" stands at one
    position at most, and at one when some output year holds the code. *)
Theorem new_only_at_first_year (a : args) (out : timeline)
    (per_year : gmap Z (gmap string YearRecord)) (code : string)
    (e : timeline_entry) :
  main a = Some out -> per_year_of (arg_year a) = Some per_year ->
  codes out !! code = Some e ->
  (forall i y, meta_years out !! i = Some y ->
     entry_status e !! i = Some (Some New)
     <-> is_Some (row_of per_year code y)
         /\ forall y', y' ∈ meta_years out -> (y' < y)%Z ->
              row_of per_year code y' = None)
  /\ (forall i j,
        entry_status e !! i = Some (Some New) ->
        entry_status e !! j = Some (Some New) -> i = j)
  /\ ((exists y, y ∈ meta_years out /\ is_Some (row_of per_year code y)) ->
      exists i, entry_status e !! i = Some (Some New)).
Proof.
  intros Hmain Hper He.
  destruct (main_entry py_float py_repr a out per_year code e Hmain Hper He)
    as (Hasc & _ & ->).
  pose proof (ascending_NoDup _ Hasc) as Hnd.
  assert (Hlen : length (entry_status
                   (build_entry per_year (meta_years out) (float_tol a) code))
                 = length (meta_years out)).
  { simpl. unfold run_years. rewrite run_status_length. simpl.
    apply length_replicate. }
  assert (Hyear : forall i s,
            entry_status (build_entry per_year (meta_years out) (float_tol a) code)
              !! i = Some s -> exists y, meta_years out !! i = Some y).
  { intros i s Hs. apply lookup_lt_Some in Hs. rewrite Hlen in Hs.
    now apply lookup_lt_is_Some_2 in Hs as [y Hy]; exists y. }
  split_and!.
  - intros i y Hi. now apply status_New_iff.
  - intros i j Hi Hj.
    destruct (Hyear i _ Hi) as [y Hy], (Hyear j _ Hj) as [y' Hy'].
    apply (status_New_iff per_year code _ _ Hasc i y Hy) in Hi as [Hpi Hfi].
    apply (status_New_iff per_year code _ _ Hasc j y' Hy') in Hj as [Hpj Hfj].
    destruct (Nat.lt_trichotomy i j) as [Hlt|[Heq|Hlt]]; [|exact Heq|].
    + apply (Hasc i j y y' Hy Hy') in Hlt.
      rewrite (Hfj y) in Hpi; [now destruct Hpi|
                               now apply list_elem_of_lookup_2 in Hy|exact Hlt].
    + apply (Hasc j i y' y Hy' Hy) in Hlt.
      rewrite (Hfi y') in Hpj; [now destruct Hpj|
                                now apply list_elem_of_lookup_2 in Hy'|exact Hlt].
  - intros (y & Hy & Hrow).
    destruct (list_find (fun y => is_Some (row_of per_year code y)) (meta_years out))
      as [[i y0]|] eqn:Hfind.
    + apply list_find_Some in Hfind as (Hi & Hp & Hfirst).
      exists i. apply (status_New_iff per_year code _ _ Hasc i y0 Hi).
      split; [exact Hp|]. intros y' [j Hj]%list_elem_of_lookup_1 Hlt.
      apply (Hasc j i y' y0 Hj Hi) in Hlt.
      specialize (Hfirst j y' Hj Hlt).
      destruct (row_of per_year code y'); [|reflexivity].
      exfalso. apply Hfirst. now eexists.
    + apply list_find_None in Hfind. rewrite Forall_forall in Hfind.
      now destruct (Hfind y Hy).
Qed.

(** Property X3: several inputs for one year. The snapshot kept for a year
    is the validated file of the last input given for that year on the
    command line, and none when no input is given for it; the codes of the
    output are the codes of the snapshots kept. *)
Theorem last_input_of_year_kept (a : args) (out : timeline)
    (per_year : gmap Z (gmap string YearRecord)) :
  main a = Some out -> per_year_of (arg_year a) = Some per_year ->
  (forall y,
     per_year !! y
     = last (inputs_of_year y (arg_year a)) ≫= fun yi => validate (raw yi))
  /\ (forall code,
        code ∈ dom (codes out)
        <-> exists y snap, per_year !! y = Some snap /\ code ∈ dom snap).
Proof.
  intros Hmain Hper. split.
  - intros y. now apply per_year_last.
  - intros code.
    apply main_inv in Hmain as (years & per_year' & _ & Hper' & _ & -> & _).
    rewrite Hper in Hper'. injection Hper' as <-.
    rewrite build_codes_dom, elem_of_all_codes. unfold row_of. split.
    + intros (y & Hy). destruct (per_year !! y) as [snap|] eqn:Hsnap.
      * exists y, snap. split; [exact Hsnap|]. now apply elem_of_dom.
      * now destruct Hy.
    + intros (y & snap & Hsnap & Hin). exists y. rewrite Hsnap.
      now apply elem_of_dom.
Qed.

(** Property X4: the missing years. [missing_years] lists, in order, the
    output years for which no input is given; at the position of such a year
    the status and the four numeric values of every code are null. *)
Theorem missing_year_column_null (a : args) (out : timeline) :
  main a = Some out ->
  (forall y, y ∈ meta_missing_years out
     <-> y ∈ meta_years out /\ forall yi, yi ∈ arg_year a -> year yi <> y)
  /\ meta_missing_years out `sublist_of` meta_years out
  /\ (forall code e i y,
        codes out !! code = Some e -> meta_years out !! i = Some y ->
        y ∈ meta_missing_years out ->
        entry_status e !! i = Some None
        /\ Forall (fun af => fst af e !! i = Some None) numeric_arrays).
Proof.
  intros Hmain.
  assert (Hmiss : meta_missing_years out
                  = filter (fun y => y ∉ year <$> _build_year_inputs (arg_year a))
                      (meta_years out)).
  { unfold Timeline.main in Hmain.
    destruct (_parse_year_range (arg_years a)); [|discriminate].
    destruct (load_snapshots _ _ _ _); [|discriminate].
    now injection Hmain as <-. }
  assert (Hin : forall y, y ∈ meta_missing_years out
            <-> y ∈ meta_years out /\ forall yi, yi ∈ arg_year a -> year yi <> y).
  { intros y. rewrite Hmiss, list_elem_of_filter, build_year_inputs_perm.
    rewrite list_elem_of_fmap. split.
    - intros [Hno Hy]. split; [exact Hy|]. intros yi Hyi Heq.
      apply Hno. now exists yi.
    - intros [Hy Hno]. split; [|exact Hy]. intros (yi & -> & Hyi).
      now apply (Hno yi). }
  split_and!; [exact Hin|rewrite Hmiss; apply sublist_filter|].
  intros code e i y He Hi [_ Hno]%Hin.
  destruct (Timeline.per_year_of py_float py_repr (arg_year a))
    as [per_year|] eqn:Hper.
  2:{ apply main_inv in Hmain as (? & ? & _ & Hper' & _). congruence. }
  assert (Hrow : row_of per_year code y = None).
  { unfold row_of. now rewrite (per_year_absent _ _ y Hper Hno). }
  destruct (main_entry py_float py_repr a out per_year code e Hmain Hper He)
    as (Hasc & _ & ->).
  split;
    [now apply (status_None_iff per_year code (float_tol a) _ Hasc i y Hi)|].
  eapply Forall_impl;
    [exact (numeric_arrays_at per_year code (float_tol a) (meta_years out)
              (ascending_NoDup _ Hasc))|].
  intros af [_ Hcol]. simpl. now rewrite (Hcol i y Hi), Hrow.
Qed.


Lemma row_of_kept (pairs : list YearInput)
    (per_year : gmap Z (gmap string YearRecord)) (code : string) (y : Z) :
  per_year_of pairs = Some per_year ->
  row_of per_year code y = kept pairs y ≫= fun snapshot => snapshot !! code.
Proof.
  intros Hper. unfold row_of, kept_snapshot.
  rewrite (per_year_last pairs per_year y Hper).
  now destruct (last (inputs_of_year y pairs) ≫= _).
Qed.

Lemma kept_supplied (pairs : list YearInput) (code : string) (y : Z)
    (snapshot : gmap string YearRecord) :
  kept pairs y = Some snapshot -> is_Some (snapshot !! code) ->
  supplied py_float py_repr pairs code y.
Proof.
  unfold kept_snapshot, supplied. intros Hkept Hcode.
  destruct (last (inputs_of_year y pairs)) as [yi|] eqn:Hlast; [|discriminate].
  apply last_Some_elem_of in Hlast.
  apply list_elem_of_filter in Hlast as [Hy Hin].
  exists yi, snapshot. now split_and!.
Qed.

(** Claim C10, as amended. The snapshot kept for a year is the validated
    file of the last input supplied for it. A code that no kept snapshot of
    a requested output year holds has an entry in the output exactly when
    the kept snapshot of some year holds it, and none when no kept snapshot
    does; the entry has the four numeric arrays and the status array all
    null, the canonical description empty and the override map empty; the
    code is then a key of [codes], counted in [total_codes], and is held by
    the file of an input supplied for a year outside the output years. *)
Theorem out_of_range_code (a : args) (out : timeline) (code : string) :
  main a = Some out ->
  (forall y snapshot,
     y ∈ meta_years out -> kept (arg_year a) y = Some snapshot ->
     snapshot !! code = None) ->
  (codes out !! code = Some (blank_entry (length (meta_years out)))
   <-> (exists y0 snapshot,
          kept (arg_year a) y0 = Some snapshot /\ is_Some (snapshot !! code)))
  /\ (codes out !! code = None
      <-> (forall y snapshot,
             kept (arg_year a) y = Some snapshot -> snapshot !! code = None))
  /\ (code ∈ dom (codes out) ->
      codes out !! code = Some (blank_entry (length (meta_years out)))
      /\ (exists y0, (y0 ∉ meta_years out)
            /\ supplied py_float py_repr (arg_year a) code y0))
  /\ meta_total_codes out = size (dom (codes out)).
Proof.
  intros Hmain Habsent.
  pose proof Hmain as Hinv.
  apply main_inv in Hinv as (years & per_year & Hyears & Hper & <- & Hcodes & Htot).
  assert (Hrow : forall y, row_of per_year code y
                           = kept (arg_year a) y ≫= fun s => s !! code)
    by (intros y; now apply row_of_kept).
  assert (Hout : forall y, y ∈ meta_years out -> row_of per_year code y = None).
  { intros y Hy. rewrite Hrow.
    destruct (kept (arg_year a) y) as [s|] eqn:Hk; [|reflexivity].
    simpl. now apply (Habsent y s). }
  assert (Hin : code ∈ all_codes per_year
                <-> (exists y0 snapshot,
                       kept (arg_year a) y0 = Some snapshot
                       /\ is_Some (snapshot !! code))).
  { rewrite elem_of_all_codes. split.
    - intros [y0 Hy0]. rewrite Hrow in Hy0.
      destruct (kept (arg_year a) y0) as [s|] eqn:Hk; [|now destruct Hy0].
      now exists y0, s.
    - intros (y0 & s & Hk & Hs). exists y0. now rewrite Hrow, Hk. }
  assert (Hblank : code ∈ all_codes per_year ->
            codes out !! code = Some (blank_entry (length (meta_years out)))).
  { intros Hc. rewrite Hcodes. apply build_codes_lookup. split; [exact Hc|].
    unfold build_entry, run_years, blank_entry.
    rewrite (canonical_desc_absent _ _ _ Hout).
    now rewrite (run_absent _ _ _ _ _ _ _ Hout). }
  assert (Hdom : code ∈ dom (codes out) <-> code ∈ all_codes per_year)
    by now rewrite Hcodes, build_codes_dom.
  split_and!.
  - rewrite <- Hin. split; [|exact Hblank].
    intros He. apply Hdom, elem_of_dom. eexists. exact He.
  - rewrite <- not_elem_of_dom, Hdom, Hin. split.
    + intros Hno y s Hk. destruct (s !! code) eqn:Hs; [|reflexivity].
      exfalso. apply Hno. exists y, s. split; [exact Hk|]. now rewrite Hs.
    + intros Hall (y0 & s & Hk & Hs). rewrite (Hall y0 s Hk) in Hs.
      now destruct Hs.
  - intros Hc. apply Hdom in Hc. split; [now apply Hblank|].
    apply Hin in Hc as (y0 & s & Hk & Hs). exists y0. split.
    + intros Hy0. rewrite (Habsent y0 s Hy0 Hk) in Hs. now destruct Hs.
    + now apply (kept_supplied _ _ _ s).
  - now rewrite Htot, Hcodes, build_codes_dom.
Qed.

End Outputs.

(** The office-visit files: code 99213 is absent in 2020 and has the work
    value 1.3 in 2021. *)
Lemma arrays_follow_snapshots_witness :
  exists out per_year e,
    Timeline.main PyNum.float_of_str no_repr office_visits = Some out
    /\ Timeline.per_year_of PyNum.float_of_str no_repr (arg_year office_visits)
       = Some per_year
    /\ codes out !! "99213" = Some e
    /\ entry_work_rvu e = [Some 1%float; None; Some 1.3%float; Some 1.30005%float]
    /\ length (entry_status e) = length (meta_years out)
    /\ Forall (fun af =>
         length (fst af e) = length (meta_years out)
         /\ forall i y, meta_years out !! i = Some y ->
              fst af e !! i = Some (snd af <$> row_of per_year "99213" y))
         numeric_arrays
    /\ (forall i y, meta_years out !! i = Some y ->
          entry_status e !! i = Some None <-> row_of per_year "99213" y = None).
Proof.
  eexists _, _, _.
  split; [reflexivity|]. split; [reflexivity|]. split; [reflexivity|].
  split; [reflexivity|].
  exact (arrays_follow_snapshots PyNum.float_of_str no_repr office_visits
           _ _ "99213" _ eq_refl eq_refl eq_refl).
Defined.

(** The office-visit files: code 99213 is new in 2019, the first year. *)
Lemma new_only_at_first_year_witness :
  exists out per_year e,
    Timeline.main PyNum.float_of_str no_repr office_visits = Some out
    /\ Timeline.per_year_of PyNum.float_of_str no_repr (arg_year office_visits)
       = Some per_year
    /\ codes out !! "99213" = Some e
    /\ entry_status e
       = [Some New; None; Some Modified; Some Existing]
    /\ forall i j,
         entry_status e !! i = Some (Some New) ->
         entry_status e !! j = Some (Some New) -> i = j.
Proof.
  eexists _, _, _.
  split; [reflexivity|]. split; [reflexivity|]. split; [reflexivity|].
  split; [reflexivity|].
  exact (proj1 (proj2 (new_only_at_first_year PyNum.float_of_str no_repr
                         office_visits _ _ "99213" _ eq_refl eq_refl eq_refl))).
Defined.

(** Two files for 2020: the second is kept. *)
Lemma last_input_of_year_kept_witness :
  exists out per_year,
    Timeline.main PyNum.float_of_str no_repr same_year_twice = Some out
    /\ Timeline.per_year_of PyNum.float_of_str no_repr (arg_year same_year_twice)
       = Some per_year
    /\ (desc <$> row_of per_year "99213" 2020) = Some "Second file"
    /\ (forall y,
          per_year !! y
          = last (inputs_of_year y (arg_year same_year_twice))
              ≫= fun yi => _validate_year_snapshot PyNum.float_of_str no_repr
                             (raw yi))
    /\ (forall code,
          code ∈ dom (codes out)
          <-> exists y snap, per_year !! y = Some snap /\ code ∈ dom snap).
Proof.
  eexists _, _.
  split; [reflexivity|]. split; [reflexivity|]. split; [reflexivity|].
  exact (last_input_of_year_kept PyNum.float_of_str no_repr same_year_twice
           _ _ eq_refl eq_refl).
Defined.

(** Files for 2019 and 2021 only: 2020 is missing, and null for code
    99213. *)
Lemma missing_year_column_null_witness :
  exists out e,
    Timeline.main PyNum.float_of_str no_repr skipped_year = Some out
    /\ meta_missing_years out = [2020%Z]
    /\ codes out !! "99213" = Some e
    /\ entry_status e !! 1%nat = Some None
    /\ Forall (fun af => fst af e !! 1%nat = Some None) numeric_arrays.
Proof.
  eexists _, _.
  split; [reflexivity|]. split; [reflexivity|]. split; [reflexivity|].
  refine (proj2 (proj2 (missing_year_column_null PyNum.float_of_str no_repr
                          skipped_year _ eq_refl))
            "99213" _ 1%nat 2020%Z eq_refl eq_refl _).
  apply (list_elem_of_lookup_2 _ 0%nat). reflexivity.
Defined.

(** Claim C10 on the office-visit files: code 99499 is held by the snapshot
    kept for 2030 alone, outside the years 2019-2022. *)
Lemma out_of_range_code_witness :
  exists out,
    Timeline.main PyNum.float_of_str no_repr office_visits = Some out
    /\ meta_years out = [2019; 2020; 2021; 2022]%Z
    /\ (exists snapshot,
          kept_snapshot PyNum.float_of_str no_repr (arg_year office_visits) 2030
          = Some snapshot /\ is_Some (snapshot !! "99499"))
    /\ meta_total_codes out = 3%nat
    /\ codes out !! "99499" = Some (blank_entry 4).
Proof.
  eexists. split; [reflexivity|]. split; [reflexivity|].
  assert (Hkept : exists snapshot,
            kept_snapshot PyNum.float_of_str no_repr (arg_year office_visits) 2030
            = Some snapshot /\ is_Some (snapshot !! "99499")).
  { eexists. split; [reflexivity|]. eexists. reflexivity. }
  split; [exact Hkept|]. split; [reflexivity|].
  refine (proj2 (proj1 (out_of_range_code PyNum.float_of_str no_repr
                          office_visits _ "99499" eq_refl _)) _).
  - intros y snapshot Hy.
    assert (Hin : y ∈ [2019; 2020; 2021; 2022]%Z) by exact Hy.
    repeat (apply elem_of_cons in Hin as [->|Hin];
            [intros Hk; vm_compute in Hk; injection Hk as <-; reflexivity|]).
    inversion Hin.
  - destruct Hkept as (snapshot & Hk & Hs). now exists 2030%Z, snapshot.
Defined.

(** Claim C10 as stated fails when a year is supplied twice. Code 99499 is
    held by the first of two files supplied for 2030, a year outside the
    output years, and by no other file; the second file replaces the first,
    and the output has no entry for the code and counts two codes. *)
Lemma superseded_code_has_no_entry :
  supplied PyNum.float_of_str no_repr (arg_year superseded_snapshot) "99499" 2030
  /\ (forall y, supplied PyNum.float_of_str no_repr
                  (arg_year superseded_snapshot) "99499" y -> y = 2030%Z)
  /\ (meta_years <$> Timeline.main PyNum.float_of_str no_repr superseded_snapshot)
     = Some [2019%Z]
  /\ entry_of (Timeline.main PyNum.float_of_str no_repr superseded_snapshot)
       "99499" = None
  /\ (meta_total_codes
        <$> Timeline.main PyNum.float_of_str no_repr superseded_snapshot)
     = Some 2%nat.
Proof.
  split_and!; try reflexivity.
  - eexists _, _. split_and!; [right; left|reflexivity|reflexivity|].
    eexists. reflexivity.
  - intros y (yi & snapshot & Hin & <- & Hval & Hs).
    assert (Hin' : yi ∈ arg_year superseded_snapshot) by exact Hin.
    unfold superseded_snapshot in Hin'. cbn [arg_year] in Hin'.
    repeat (apply elem_of_cons in Hin' as [->|Hin']); try reflexivity.
    + vm_compute in Hval. injection Hval as <-. vm_compute in Hs.
      now destruct Hs.
    + inversion Hin'.
Qed.

End RunFacts.

(** ** The comparison of two records *)

Module CompareFacts.
Import PyStr Timeline Props PyStrFacts FloatFacts TimelineFacts.

(** *** The difference of two values, either way round *)

Lemma SFabs_round (s : bool) (m : positive) (e : Z) :
  SFabs (binary_round prec emax s m e) = SFabs (binary_round prec emax false m e).
Proof.
  unfold binary_round.
  destruct (shl_align m e _) as [mz ez].
  unfold binary_round_aux.
  destruct (shr_fexp prec emax (Z.pos mz) ez loc_Exact) as [mrs' e'].
  destruct (shr_fexp prec emax _ e' loc_Exact) as [mrs'' e''].
  destruct (shr_m mrs''); try reflexivity.
  now destruct (_ <=? _)%Z.
Qed.

Lemma SFabs_normalize_opp (m e : Z) (s : bool) :
  SFabs (binary_normalize prec emax (- m) e s)
  = SFabs (binary_normalize prec emax m e s).
Proof.
  destruct m as [|p|p]; simpl; [reflexivity| |].
  - apply SFabs_round.
  - symmetry. apply SFabs_round.
Qed.

Lemma SFabs_sub_swap (x y : spec_float) :
  SFabs (SFsub prec emax x y) = SFabs (SFsub prec emax y x).
Proof.
  destruct x as [sx|sx| |sx mx ex], y as [sy|sy| |sy my ey]; simpl;
    try reflexivity;
    try (now destruct sx); try (now destruct sy); try (now destruct sx, sy).
  rewrite (Z.min_comm ey ex).
  rewrite <- SFabs_normalize_opp. f_equal. f_equal. lia.
Qed.

Lemma abs_sub_swap (a b : float) : abs (a - b) = abs (b - a).
Proof.
  apply FloatAxioms.Prim2SF_inj.
  rewrite !FloatAxioms.abs_spec, !FloatAxioms.sub_spec. apply SFabs_sub_swap.
Qed.

Lemma eqb_swap (a b : float) : (a =? b)%float = (b =? a)%float.
Proof.
  rewrite !FloatAxioms.eqb_spec. unfold SFeqb.
  rewrite (SFcompare_swap (Prim2SF a) (Prim2SF b)).
  now destruct (SFcompare (Prim2SF a) (Prim2SF b)) as [[]|].
Qed.

Lemma nearly_equal_swap (a b tol : float) :
  _nearly_equal a b tol = _nearly_equal b a tol.
Proof.
  unfold _nearly_equal.
  now rewrite (andb_comm (is_finite a)), abs_sub_swap, eqb_swap.
Qed.

Lemma components_changed_swap (prev cur : YearRecord) (tol : float) :
  _components_changed prev cur tol = _components_changed cur prev tol.
Proof.
  unfold _components_changed.
  now rewrite (nearly_equal_swap (work_rvu prev)),
    (nearly_equal_swap (pe_rvu_fac prev)),
    (nearly_equal_swap (pe_rvu_nonfac prev)),
    (nearly_equal_swap (mp_rvu prev)).
Qed.

(** Property X7: the comparison does not depend on the direction.
    [_nearly_equal] gives the same answer with its two values exchanged, and
    so does [_components_changed] with its two records exchanged; the status
    of a year against the year before it is the status the earlier year
    would have against the later. *)
Theorem comparison_symmetric :
  (forall a b tol, _nearly_equal a b tol = _nearly_equal b a tol)
  /\ (forall prev cur tol,
        _components_changed prev cur tol = _components_changed cur prev tol)
  /\ (forall prev cur tol,
        classify (Some prev) (Some (desc prev)) cur tol
        = classify (Some cur) (Some (desc cur)) prev tol).
Proof.
  split_and!.
  - apply nearly_equal_swap.
  - apply components_changed_swap.
  - intros prev cur tol. unfold classify. simpl.
    rewrite (components_changed_swap prev cur), (String.eqb_sym (desc prev)).
    reflexivity.
Qed.

(** *** A value against itself *)

Lemma SFsub_self (x : spec_float) :
  match x with S754_zero _ | S754_finite _ _ _ => True | _ => False end ->
  SFabs (SFsub prec emax x x) = S754_zero false.
Proof.
  destruct x as [s|s| |s m e]; simpl; try easy.
  - now destruct s.
  - intros _. now rewrite Z.sub_diag.
Qed.

Lemma abs_sub_self (a : float) : is_finite a = true -> abs (a - a) = 0%float.
Proof.
  rewrite is_finite_spec. intros Hfin.
  apply FloatAxioms.Prim2SF_inj.
  rewrite FloatAxioms.abs_spec, FloatAxioms.sub_spec.
  change (Prim2SF 0) with (S754_zero false).
  apply SFsub_self. now destruct (Prim2SF a).
Qed.

Lemma nearly_equal_self (a tol : float) :
  _nearly_equal a a tol
  = if is_finite a then (0 <=? tol)%float else negb (is_nan a).
Proof.
  unfold _nearly_equal. destruct (is_finite a) eqn:Hfin; simpl.
  - now rewrite abs_sub_self.
  - unfold is_nan. now rewrite negb_involutive.
Qed.

Lemma components_changed_self (r : YearRecord) (tol : float) :
  _components_changed r r tol
  = negb (forallb (fun f => agrees_with_itself tol (f r)) components).
Proof.
  unfold _components_changed, components. simpl.
  rewrite !nearly_equal_self. unfold agrees_with_itself.
  destruct (if is_finite (work_rvu r) then _ else _),
    (if is_finite (pe_rvu_fac r) then _ else _),
    (if is_finite (pe_rvu_nonfac r) then _ else _),
    (if is_finite (mp_rvu r) then _ else _); reflexivity.
Qed.

Section Unchanged.

Variable py_float : string -> option float.
Variable py_repr : json -> string.

(** Property X8: a record that does not change. When a code has the same
    record in a present year as in the present year before it, the status of
    the later year is "existing" provided each component agrees with itself:
    a finite one does when the tolerance is not negative (and is a number),
    an infinite one always, a NaN never. Otherwise the status is "modified",
    though nothing has changed. *)
Theorem unchanged_record_status (a : args) (out : timeline)
    (per_year : gmap Z (gmap string YearRecord)) (code : string)
    (e : timeline_entry) (i : nat) (y y0 : Z) (row : YearRecord) :
  Timeline.main py_float py_repr a = Some out ->
  Timeline.per_year_of py_float py_repr (arg_year a) = Some per_year ->
  codes out !! code = Some e ->
  meta_years out !! i = Some y -> row_of per_year code y = Some row ->
  y0 ∈ meta_years out -> (y0 < y)%Z -> row_of per_year code y0 = Some row ->
  (forall y', y' ∈ meta_years out -> (y0 < y' < y)%Z ->
     row_of per_year code y' = None) ->
  entry_status e !! i
  = Some (Some (if forallb (fun f => agrees_with_itself (float_tol a) (f row))
                     components
                then Existing else Modified)).
Proof.
  intros Hmain Hper He Hi Hrow Hy0 Hlt Hprev Hgap.
  destruct (main_entry py_float py_repr a out per_year code e Hmain Hper He)
    as (Hasc & _ & ->).
  rewrite (status_later _ _ _ _ Hasc i y y0 row row Hi Hrow Hy0 Hlt Hprev Hgap).
  do 2 f_equal. unfold classify. simpl.
  rewrite components_changed_self, String.eqb_refl.
  simpl.
  now destruct (agrees_with_itself (float_tol a) (work_rvu row) && _).
Qed.

End Unchanged.

(** The same records in 2019 and 2020: code 99214 is "existing" in 2020, and
    code 99213, whose record holds a NaN, is "modified". *)
Lemma unchanged_record_status_witness :
  exists out per_year e row,
    Timeline.main PyNum.float_of_str no_repr steady_records = Some out
    /\ Timeline.per_year_of PyNum.float_of_str no_repr (arg_year steady_records)
       = Some per_year
    /\ codes out !! "99213" = Some e
    /\ row_of per_year "99213" 2020 = Some row
    /\ row_of per_year "99213" 2019 = Some row
    /\ (entry_status <$> codes out !! "99214")
       = Some [Some New; Some Existing]
    /\ forallb (fun f => agrees_with_itself (float_tol steady_records) (f row))
         components = false
    /\ entry_status e !! 1%nat = Some (Some Modified).
Proof.
  eexists _, _, _, _.
  split; [reflexivity|]. split; [reflexivity|]. split; [reflexivity|].
  split; [reflexivity|]. split; [reflexivity|]. split; [reflexivity|].
  split; [reflexivity|].
  refine (unchanged_record_status PyNum.float_of_str no_repr steady_records
            _ _ "99213" _ 1 2020 2019 _ eq_refl eq_refl eq_refl eq_refl eq_refl
            _ _ eq_refl _).
  - apply (list_elem_of_lookup_2 _ 0%nat). reflexivity.
  - lia.
  - intros y' _ Hy'. lia.
Defined.

End CompareFacts.

(** ** The text of the range of years *)

Module YearRangeFacts.
Import PyStr Timeline Props PyStrFacts.

(** *** Texts without a given character *)

Lemma split_first_before (ch : ascii) (s a b : string) :
  split_first ch s = Some (a, b) -> split_first ch a = None.
Proof.
  revert a b; induction s as [|c s IH]; intros a b; simpl; [discriminate|].
  destruct (Ascii.eqb c ch) eqn:Hc; [now intros [= <- _]|].
  destruct (split_first ch s) as [[a' b']|]; [|discriminate].
  intros [= <- _]. simpl. now rewrite Hc, (IH a' b' eq_refl).
Qed.

Lemma split_first_None_head (ch c : ascii) (s : string) :
  split_first ch (String c s) = None -> c <> ch /\ split_first ch s = None.
Proof.
  simpl. destruct (Ascii.eqb_spec c ch) as [->|Hne]; [discriminate|].
  now destruct (split_first ch s) as [[]|].
Qed.

Lemma skip_blanks_without (ch : ascii) (s : string) :
  split_first ch s = None -> split_first ch (PyNum.skip_blanks s) = None.
Proof.
  induction s as [|c s IH]; [reflexivity|]. intros H.
  simpl PyNum.skip_blanks. destruct (PyNum.is_blank c); [|exact H].
  apply IH. now apply split_first_None_head in H.
Qed.

Lemma drop_blanks_without_head (ch : ascii) (s : string) :
  split_first ch s = None ->
  match PyNum.drop_blanks_at_end s with
  | EmptyString => True
  | String c _ => c <> ch
  end.
Proof.
  destruct s as [|c s]; [easy|]. intros [Hne _]%split_first_None_head.
  simpl. now destruct (is_empty (PyNum.drop_blanks_at_end s) && PyNum.is_blank c).
Qed.

Lemma drop_underscores_head (s t : string) (c : ascii) :
  PyNum.drop_underscores None s = Some (String c t) -> exists s', s = String c s'.
Proof.
  destruct s as [|d s]; simpl; [discriminate|].
  destruct (Ascii.eqb d "_"); [discriminate|].
  destruct (PyNum.drop_underscores (Some d) s); simpl; [|discriminate].
  intros [= -> _]. now exists s.
Qed.

(** *** Numbers read by [int] *)

Lemma read_digits_nonneg (s : string) (acc : Z) (n : nat) :
  (0 <= acc)%Z -> (0 <= fst (fst (PyNum.read_digits acc n s)))%Z.
Proof.
  revert acc n; induction s as [|c s IH]; intros acc n Hacc; simpl; [exact Hacc|].
  destruct (is_digit c); [|exact Hacc]. apply IH. lia.
Qed.

Lemma read_sign_neg (t body : string) :
  PyNum.read_sign t = (true, body) -> t = String "-" body.
Proof.
  destruct t as [|c t]; simpl; [discriminate|].
  destruct c as [[] [] [] [] [] [] [] []]; simpl; try discriminate.
  now intros [= <-].
Qed.

Lemma int_of_str_nonneg (s : string) (z : Z) :
  split_first "-" s = None -> PyNum.int_of_str s = Some z -> (0 <= z)%Z.
Proof.
  intros Hno. unfold PyNum.int_of_str.
  destruct (PyNum.drop_underscores None (PyNum.trim s)) as [t|] eqn:Ht;
    [|discriminate].
  destruct (PyNum.read_sign t) as [neg body] eqn:Hsign.
  pose proof (read_digits_nonneg body 0 0 (Z.le_refl 0)) as Hv.
  destruct (PyNum.read_digits 0 0 body) as [[v n] rest]. simpl in Hv.
  destruct (_ && _); [|discriminate]. intros [= <-].
  destruct neg; [|exact Hv]. exfalso.
  apply read_sign_neg in Hsign as ->.
  apply drop_underscores_head in Ht as [s' Hs'].
  pose proof (drop_blanks_without_head "-" (PyNum.skip_blanks s)
                (skip_blanks_without "-" s Hno)) as Hh.
  unfold PyNum.trim in Hs'. rewrite Hs' in Hh. now apply Hh.
Qed.

(** Property X9: the text of [--years]. When [_parse_year_range] accepts
    the text, the years it returns are a run of one or more consecutive
    years in ascending order, none of them negative: a text that holds no
    hyphen gives the one year it spells; a text made of a start, a hyphen
    and an end gives the years from the start to the end, which is then
    not before the start; and a text that begins with a hyphen is
    refused. *)
Theorem year_range_text :
  (forall value years,
     _parse_year_range_text value = Some years ->
     exists start : Z,
       (0 <= start)%Z /\ (0 < length years)%nat
       /\ years = seqZ start (Z.of_nat (length years)))
  /\ (forall value years,
        split_first "-" value = None ->
        _parse_year_range_text value = Some years ->
        exists y, PyNum.int_of_str value = Some y /\ years = [y])
  /\ (forall rest, _parse_year_range_text (String "-" rest) = None)
  /\ (forall start_s end_s years,
        split_first "-" start_s = None ->
        _parse_year_range_text (start_s ++ "-" ++ end_s) = Some years ->
        exists start end_,
          PyNum.int_of_str start_s = Some start
          /\ PyNum.int_of_str end_s = Some end_
          /\ (start <= end_)%Z /\ years = seqZ start (end_ + 1 - start)).
Proof.
  split_and!.
  - intros value years. unfold _parse_year_range_text, read_years.
    destruct (split_first "-" value) as [[start_s end_s]|] eqn:Hsplit.
    + apply split_first_before in Hsplit.
      destruct (PyNum.int_of_str start_s) as [start|] eqn:Hstart; [|discriminate].
      apply (int_of_str_nonneg _ _ Hsplit) in Hstart.
      destruct (PyNum.int_of_str end_s) as [end_|]; [|discriminate]. simpl.
      destruct (Z.ltb_spec end_ start) as [Hlt|Hge]; [discriminate|].
      intros [= <-]. exists start. rewrite length_seqZ.
      split_and!; [exact Hstart|lia|]. f_equal. lia.
    + destruct (PyNum.int_of_str value) as [y|] eqn:Hy; [|discriminate].
      apply (int_of_str_nonneg _ _ Hsplit) in Hy. simpl.
      intros [= <-]. exists y. split_and!; [exact Hy|simpl; lia|reflexivity].
  - intros value years Hno. unfold _parse_year_range_text, read_years.
    rewrite Hno. destruct (PyNum.int_of_str value) as [y|]; [|discriminate].
    simpl. intros [= <-]. now exists y.
  - intros rest. reflexivity.
  - intros start_s end_s years Hno.
    unfold _parse_year_range_text, read_years.
    assert (Hsplit : split_first "-" (start_s ++ "-" ++ end_s)
                     = Some (start_s, end_s)).
    { induction start_s as [|c s IH]; [reflexivity|].
      apply split_first_None_head in Hno as [Hne Hno]. simpl.
      apply Ascii.eqb_neq in Hne. rewrite Hne.
      change (s ++ String "-" end_s) with (s ++ "-" ++ end_s).
      now rewrite (IH Hno). }
    rewrite Hsplit.
    destruct (PyNum.int_of_str start_s) as [start|]; [|discriminate].
    destruct (PyNum.int_of_str end_s) as [end_|]; [|discriminate]. simpl.
    destruct (Z.ltb_spec end_ start) as [Hlt|Hge]; [discriminate|].
    intros [= <-]. exists start, end_. now split_and!.
Qed.

(** The text "2019-2025", the default of [--years]. *)
Lemma year_range_text_witness :
  _parse_year_range_text "2019-2025"
  = Some [2019; 2020; 2021; 2022; 2023; 2024; 2025]%Z
  /\ exists start : Z,
       (0 <= start)%Z
       /\ (0 < length [2019; 2020; 2021; 2022; 2023; 2024; 2025]%Z)%nat
       /\ [2019; 2020; 2021; 2022; 2023; 2024; 2025]%Z
          = seqZ start
              (Z.of_nat (length [2019; 2020; 2021; 2022; 2023; 2024; 2025]%Z)).
Proof.
  split; [reflexivity|].
  exact (proj1 year_range_text "2019-2025" _ eq_refl).
Defined.

End YearRangeFacts.

(** ** The state inferred from a locality name *)

Module StateFacts.
Import PyStr ParseCms Props PyStrFacts.

(** *** The table of state names *)

Lemma assoc_get_value (P : string -> Prop) (l : list (string * string))
    (k v : string) :
  Forall (fun kv => P (snd kv)) l -> assoc_get k l = Some v -> P v.
Proof.
  induction 1 as [|[k' v'] l Hv _ IH]; simpl; [discriminate|].
  destruct (String.eqb k k'); [now intros [= <-]|exact IH].
Qed.

Lemma state_codes_shape :
  Forall (fun kv => String.length (snd kv) = 2%nat
                    /\ all_chars is_upper (snd kv) = true) state_by_name.
Proof.
  unfold state_by_name.
  repeat first [apply List.Forall_nil | apply List.Forall_cons];
    split; reflexivity.
Qed.

(** *** Letters in upper case *)

Lemma upper_char_alpha (c : ascii) :
  is_alpha (upper_char c) = true -> is_upper (upper_char c) = true.
Proof. destruct c as [[] [] [] [] [] [] [] []]; simpl; intros H; easy. Qed.

Lemma upper_alpha_upper (s : string) :
  all_chars is_alpha (upper s) = true -> all_chars is_upper (upper s) = true.
Proof.
  unfold upper. induction s as [|c s IH]; simpl; [reflexivity|].
  intros [Hc Hs]%andb_true_iff. now rewrite (upper_char_alpha c Hc), IH.
Qed.

(** Property X10: the inferred state. [derive_state_from_name] returns the
    empty text or a text of two upper-case letters, whatever the locality
    name. *)
Theorem derived_state_shape (locality_name : string) :
  derive_state_from_name locality_name = ""
  \/ (String.length (derive_state_from_name locality_name) = 2%nat
      /\ all_chars is_upper (derive_state_from_name locality_name) = true).
Proof.
  unfold derive_state_from_name.
  destruct (is_empty locality_name); [now left|].
  set (cleaned := strip (drop_trailing_stars (strip locality_name))).
  set (name_upper := strip (keep_chars _ (upper cleaned))).
  assert (Htable : default "" (assoc_get name_upper state_by_name) = ""
            \/ (String.length (default "" (assoc_get name_upper state_by_name))
                = 2%nat
                /\ all_chars is_upper
                     (default "" (assoc_get name_upper state_by_name)) = true)).
  { destruct (assoc_get name_upper state_by_name) as [v|] eqn:Hv; [|now left].
    right. simpl.
    exact (assoc_get_value
             (fun v => String.length v = 2%nat /\ all_chars is_upper v = true)
             _ _ _ state_codes_shape Hv). }
  destruct (after_last "," cleaned) as [rest|]; [|exact Htable].
  destruct (Nat.eqb_spec (String.length (upper (strip rest))) 2) as [Hlen|_];
    [|exact Htable]. simpl.
  destruct (isalpha (upper (strip rest))) eqn:Halpha; [|exact Htable].
  right. split; [exact Hlen|]. apply upper_alpha_upper.
  unfold isalpha in Halpha. now apply andb_true_iff in Halpha as [_ H].
Qed.

(** *** A change of letter case *)

Section Recase.

Variable f : ascii -> ascii.
Hypothesis f_space : forall c, is_space (f c) = is_space c.
Hypothesis f_star : forall c, Ascii.eqb (f c) "*" = Ascii.eqb c "*".
Hypothesis f_comma : forall c, Ascii.eqb (f c) "," = Ascii.eqb c ",".
Hypothesis f_upper : forall c, upper_char (f c) = upper_char c.

Lemma recase_is_empty (s : string) : is_empty (map_chars f s) = is_empty s.
Proof. now destruct s. Qed.

Lemma recase_lstrip (s : string) : lstrip (map_chars f s) = map_chars f (lstrip s).
Proof.
  induction s as [|c s IH]; simpl; [reflexivity|].
  rewrite f_space. now destruct (is_space c).
Qed.

Lemma recase_rstrip (s : string) : rstrip (map_chars f s) = map_chars f (rstrip s).
Proof.
  induction s as [|c s IH]; simpl; [reflexivity|].
  rewrite IH, recase_is_empty, f_space.
  now destruct (is_empty (rstrip s) && is_space c).
Qed.

Lemma recase_strip (s : string) : strip (map_chars f s) = map_chars f (strip s).
Proof. unfold strip. now rewrite recase_lstrip, recase_rstrip. Qed.

Lemma recase_stars (s : string) :
  drop_trailing_stars (map_chars f s) = map_chars f (drop_trailing_stars s).
Proof.
  induction s as [|c s IH]; simpl; [reflexivity|].
  rewrite IH, recase_is_empty, f_star.
  now destruct (is_empty (drop_trailing_stars s) && Ascii.eqb c "*").
Qed.

Lemma recase_after_last (s : string) :
  after_last "," (map_chars f s) = option_map (map_chars f) (after_last "," s).
Proof.
  induction s as [|c s IH]; simpl; [reflexivity|].
  rewrite IH, f_comma. destruct (after_last "," s); simpl; [reflexivity|].
  now destruct (Ascii.eqb c ",").
Qed.

Lemma recase_upper (s : string) : upper (map_chars f s) = upper s.
Proof.
  unfold upper. induction s as [|c s IH]; simpl; [reflexivity|].
  now rewrite f_upper, IH.
Qed.

Lemma recase_state (s : string) :
  derive_state_from_name (map_chars f s) = derive_state_from_name s.
Proof.
  unfold derive_state_from_name.
  rewrite recase_is_empty, recase_strip, recase_stars, recase_strip.
  rewrite recase_after_last, recase_upper.
  destruct (is_empty s); [reflexivity|].
  destruct (after_last "," _) as [rest|]; simpl; [|reflexivity].
  now rewrite recase_strip, recase_upper.
Qed.

End Recase.

(** Property X11: letter case. The state inferred from a locality name does
    not depend on the case of its letters. *)
Theorem derived_state_ignores_case (locality_name : string) :
  derive_state_from_name (lower locality_name)
  = derive_state_from_name locality_name
  /\ derive_state_from_name (upper locality_name)
     = derive_state_from_name locality_name.
Proof.
  split; apply recase_state;
    intros c; destruct c as [[] [] [] [] [] [] [] []]; reflexivity.
Qed.

(** *** The text after the last comma *)

Lemma lstrip_app_kept (p t : string) (c : ascii) :
  is_space c = false ->
  exists p', lstrip (p ++ String c t) = p' ++ String c t
             /\ match p' with
                | EmptyString => True
                | String d _ => is_space d = false
                end.
Proof.
  intros Hc. induction p as [|d p IH]; simpl.
  - rewrite Hc. now exists "".
  - destruct (is_space d) eqn:Hd; [exact IH|].
    now exists (String d p).
Qed.

Lemma rstrip_app_kept (p t : string) :
  rstrip t = t -> t <> "" -> rstrip (p ++ t) = p ++ t.
Proof.
  intros Ht Hne. induction p as [|d p IH]; [exact Ht|].
  change (String d p ++ t) with (String d (p ++ t)). simpl.
  rewrite IH. destruct (p ++ t) eqn:Happ; [|reflexivity].
  destruct p; [change (t = "") in Happ; congruence|discriminate].
Qed.

Lemma stars_app_kept (p t : string) :
  drop_trailing_stars t = t -> t <> "" -> drop_trailing_stars (p ++ t) = p ++ t.
Proof.
  intros Ht Hne. induction p as [|d p IH]; [exact Ht|].
  change (String d p ++ t) with (String d (p ++ t)). simpl.
  rewrite IH. destruct (p ++ t) eqn:Happ; [|reflexivity].
  destruct p; [change (t = "") in Happ; congruence|discriminate].
Qed.

Lemma after_last_app (ch : ascii) (p t : string) :
  after_last ch t = None -> after_last ch (p ++ String ch t) = Some t.
Proof.
  intros Ht. induction p as [|d p IH]; simpl.
  - now rewrite Ht, Ascii.eqb_refl.
  - now rewrite IH.
Qed.

Lemma alpha_plain (c : ascii) :
  is_alpha c = true ->
  is_space c = false /\ Ascii.eqb c "*" = false /\ Ascii.eqb c "," = false
  /\ is_alpha (upper_char c) = true.
Proof. destruct c as [[] [] [] [] [] [] [] []]; simpl; intros H; easy. Qed.

(** Property X12: a two-letter ending. When the locality name ends in a
    comma, a blank and two letters, the state inferred is those two letters
    in upper case: what precedes the comma plays no part, and the letters
    are not looked up in the table of states. *)
Theorem comma_tail_is_state (before : string) (a b : ascii) :
  is_alpha a = true -> is_alpha b = true ->
  derive_state_from_name (before ++ ", " ++ String a (String b ""))
  = String (upper_char a) (String (upper_char b) "").
Proof.
  intros Ha Hb.
  destruct (alpha_plain a Ha) as (Hsa & Hxa & Hca & Hua).
  destruct (alpha_plain b Hb) as (Hsb & Hxb & Hcb & Hub).
  set (t := String "," (String " " (String a (String b "")))).
  change (before ++ ", " ++ String a (String b "")) with (before ++ t).
  assert (Hrt : rstrip t = t) by (unfold t; simpl; now rewrite Hsa, Hsb).
  assert (Hdt : drop_trailing_stars t = t)
    by (unfold t; simpl; now rewrite Hxb).
  assert (Hne : t <> "") by discriminate.
  unfold derive_state_from_name.
  assert (Hnonempty : is_empty (before ++ t) = false)
    by (destruct before; reflexivity).
  rewrite Hnonempty.
  destruct (lstrip_app_kept before (String " " (String a (String b ""))) ","
              eq_refl) as (p & Hp & Hhead).
  fold t in Hp.
  assert (Hclean : strip (drop_trailing_stars (strip (before ++ t))) = p ++ t).
  { unfold strip at 2. rewrite Hp, (rstrip_app_kept p t Hrt Hne).
    rewrite (stars_app_kept p t Hdt Hne). unfold strip.
    assert (Hl : lstrip (p ++ t) = p ++ t).
    { destruct p as [|d p]; [reflexivity|]. simpl. now rewrite Hhead. }
    rewrite Hl. now apply rstrip_app_kept. }
  rewrite Hclean.
  assert (Hafter : after_last "," (p ++ t)
                   = Some (String " " (String a (String b "")))).
  { unfold t. apply after_last_app. simpl. now rewrite Hca, Hcb. }
  rewrite Hafter.
  assert (Htail : strip (String " " (String a (String b "")))
                  = String a (String b "")).
  { unfold strip. simpl. rewrite Hsa. simpl. now rewrite Hsa, Hsb. }
  rewrite Htail. simpl. unfold isalpha. simpl. now rewrite Hua, Hub.
Qed.

(** A city of Missouri, and a name whose ending is no state. *)
Lemma comma_tail_is_state_witness :
  derive_state_from_name "Kansas City, mo" = "MO"
  /\ derive_state_from_name "ALABAMA, zz" = "ZZ".
Proof.
  split.
  - exact (comma_tail_is_state "Kansas City" "m" "o" eq_refl eq_refl).
  - exact (comma_tail_is_state "ALABAMA" "z" "z" eq_refl eq_refl).
Defined.

End StateFacts.

(** ** The localities of the GPCI table *)

Module LocalityFacts.
Import PyStr ParseCms Props PyStrFacts.

Lemma safe_str_cell (row : list string) (i : nat) :
  safe_str row (Some i) = strip (cell_at row i).
Proof. unfold safe_str, cell_at. now destruct (row !! i). Qed.

Lemma safe_str_trimmed (row : list string) (idx : option nat) :
  trimmed (safe_str row idx).
Proof.
  unfold safe_str. destruct idx as [i|]; [|reflexivity].
  destruct (row !! i); [apply strip_trimmed|reflexivity].
Qed.

Section Rows.

Variable py_float : string -> option float.

Abbreviation gpci_row := (ParseCms.gpci_row py_float).
Abbreviation gpci_rows_from := (ParseCms.gpci_rows_from py_float).
Abbreviation stored := (stored_locality py_float).

(** What one turn of the loop does to the output object and the counter. *)
Lemma gpci_row_cases (cols : gpci_columns) (data : gmap string gpci_record)
    (skipped : nat) (row : list string) (acc' : gmap string gpci_record * nat) :
  gpci_row cols (data, skipped) row = Some acc' ->
  acc' = (data, skipped) \/ acc' = (data, S skipped)
  \/ exists k r, acc' = (<[k := r]> data, skipped) /\ stored k r.
Proof.
  unfold ParseCms.gpci_row.
  destruct (gpci_non_data cols row) eqn:Hnd; [intros [= <-]; now left|].
  destruct (gpci_safe_float py_float row (Some (work_gpci_idx cols))) as [w|];
    [|intros [= <-]; right; now left].
  destruct (gpci_safe_float py_float row (Some (pe_gpci_idx cols))) as [p|];
    [|intros [= <-]; right; now left].
  destruct (gpci_safe_float py_float row (Some (mp_gpci_idx cols))) as [m|];
    [|intros [= <-]; right; now left].
  destruct (gpci_row_key py_float cols row) as [key|] eqn:Hkey; [|discriminate].
  intros [= <-]. right. right. eexists _, _. split; [reflexivity|].
  unfold gpci_non_data in Hnd. destruct row as [|c row]; [discriminate|].
  apply orb_false_iff in Hnd as [Hnd _].
  apply orb_false_iff in Hnd as [Hnd _].
  apply orb_false_iff in Hnd as [Hnum Hname].
  apply is_empty_false in Hnum, Hname.
  unfold stored_locality, record_key. cbn [name locality mac state].
  split_and!; try assumption.
  - apply (safe_str_trimmed (c :: row) (Some (locality_name_idx cols))).
  - apply (safe_str_trimmed (c :: row) (Some (locality_num_idx cols))).
  - intros m0. unfold gpci_row_mac. destruct (mac_idx cols); [|discriminate].
    destruct (is_empty (safe_str (c :: row) (Some n))) eqn:He; [discriminate|].
    intros [= <-].
    split; [now apply is_empty_false
           |apply (safe_str_trimmed (c :: row) (Some n))].
  - unfold gpci_row_key in Hkey.
    destruct (locality_key py_float
                (safe_str (c :: row) (Some (locality_num_idx cols))))
      as [lk|] eqn:Hlk; [|discriminate].
    injection Hkey as <-. exists lk. split; [exact Hlk|reflexivity].
Qed.

Lemma gpci_rows_invariant (cols : gpci_columns) (rows : list (list string))
    (acc acc' : gmap string gpci_record * nat) :
  gpci_rows_from cols acc rows = Some acc' ->
  (forall k r, fst acc !! k = Some r -> stored k r) ->
  (forall k r, fst acc' !! k = Some r -> stored k r)
  /\ (size (fst acc') + snd acc' <= size (fst acc) + snd acc + length rows)%nat.
Proof.
  revert acc; induction rows as [|row rows IH]; intros acc Hrun Hacc;
    cbn [ParseCms.gpci_rows_from] in Hrun.
  - injection Hrun as <-. split; [exact Hacc|simpl; lia].
  - destruct (gpci_row cols acc row) as [acc1|] eqn:Hrow; [|discriminate].
    destruct acc as [data skipped].
    apply gpci_row_cases in Hrow as [->|[->|(k & r & -> & Hkr)]].
    + destruct (IH _ Hrun Hacc) as [H1 H2]. split; [exact H1|]. simpl in *. lia.
    + destruct (IH _ Hrun Hacc) as [H1 H2]. split; [exact H1|]. simpl in *. lia.
    + destruct (IH _ Hrun) as [H1 H2].
      * intros k' r'. simpl. destruct (decide (k' = k)) as [->|Hne].
        -- rewrite lookup_insert_eq. now intros [= <-].
        -- rewrite lookup_insert_ne by congruence. apply Hacc.
      * split; [exact H1|]. simpl in *.
        pose proof (map_size_insert k r data) as Hsize.
        destruct (data !! k); unfold id in Hsize; lia.
Qed.

(** Property X13: the localities stored. Every entry of the output of
    [parse_gpci_csv] has a name and a locality number that are trimmed and
    not empty, a contractor that is left out rather than empty, and stands
    under the key made of its state (its name when it has no state), a
    hyphen and the key text of its locality number; and the localities
    stored and the rows counted as skipped are together no more than the
    rows of the file. *)
Theorem gpci_entries_keyed (rows : list (list string))
    (data : gmap string gpci_record) (skipped : nat) :
  parse_gpci_csv py_float rows = Some (data, skipped) ->
  (forall k r, data !! k = Some r -> stored k r)
  /\ (size data + skipped <= length rows)%nat.
Proof.
  unfold ParseCms.parse_gpci_csv, ParseCms.gpci_rows.
  destruct (extract_gpci_headers rows 80) as [info|]; [|discriminate].
  destruct (resolve_gpci_columns (headers info)) as [cols|]; [|discriminate].
  intros Hrun. apply gpci_rows_invariant in Hrun as [H1 H2].
  - split; [exact H1|]. simpl in H2. rewrite map_size_empty in H2.
    rewrite length_drop in H2. lia.
  - intros k r. simpl. now rewrite lookup_empty.
Qed.

Lemma gpci_row_from_row (cols : gpci_columns)
    (data : gmap string gpci_record) (skipped : nat) (row : list string)
    (acc' : gmap string gpci_record * nat) :
  gpci_row cols (data, skipped) row = Some acc' ->
  fst acc' = data
  \/ exists k r, fst acc' = <[k := r]> data /\ stored_from_row cols row r.
Proof.
  unfold ParseCms.gpci_row.
  destruct (gpci_non_data cols row) eqn:Hnd; [intros [= <-]; now left|].
  destruct (gpci_safe_float py_float row (Some (work_gpci_idx cols))) as [w|];
    [|intros [= <-]; now left].
  destruct (gpci_safe_float py_float row (Some (pe_gpci_idx cols))) as [p|];
    [|intros [= <-]; now left].
  destruct (gpci_safe_float py_float row (Some (mp_gpci_idx cols))) as [m|];
    [|intros [= <-]; now left].
  destruct (gpci_row_key py_float cols row) as [key|]; [|discriminate].
  intros [= <-]. right. eexists _, _. split; [reflexivity|].
  unfold stored_from_row, gpci_row_state. cbn [name state locality].
  split; [apply (safe_str_cell row)|]. split; [apply (safe_str_cell row)|].
  unfold gpci_non_data in Hnd. destruct row as [|c row]; [discriminate|].
  destruct (state_idx cols) as [si|]; [|reflexivity].
  apply orb_false_iff in Hnd as [Hnd _].
  apply orb_false_iff in Hnd as [_ Hstate].
  change (is_empty (safe_str (c :: row) (Some si)) = false) in Hstate.
  change (let st := safe_str (c :: row) (Some si) in
          (if is_empty st
           then derive_state_from_name
                  (safe_str (c :: row) (Some (locality_name_idx cols)))
           else st) = strip (cell_at (c :: row) si)
          /\ (if is_empty st
              then derive_state_from_name
                     (safe_str (c :: row) (Some (locality_name_idx cols)))
              else st) <> "").
  cbv zeta. rewrite Hstate.
  split; [apply safe_str_cell|now apply is_empty_false].
Qed.

Lemma gpci_rows_from_rows (cols : gpci_columns) (rows : list (list string))
    (acc acc' : gmap string gpci_record * nat) :
  gpci_rows_from cols acc rows = Some acc' ->
  forall k r, fst acc' !! k = Some r ->
    fst acc !! k = Some r
    \/ exists row, row ∈ rows /\ stored_from_row cols row r.
Proof.
  revert acc; induction rows as [|row rows IH]; intros acc Hrun k r Hk;
    cbn [ParseCms.gpci_rows_from] in Hrun.
  - injection Hrun as <-. now left.
  - destruct (gpci_row cols acc row) as [acc1|] eqn:Hrow; [|discriminate].
    destruct acc as [data skipped].
    destruct (IH _ Hrun k r Hk) as [Hacc1|(row' & Hin & Hr)].
    + apply gpci_row_from_row in Hrow as [Heq|(k0 & r0 & Heq & Hr0)];
        rewrite Heq in Hacc1.
      * now left.
      * destruct (decide (k = k0)) as [->|Hne].
        -- rewrite lookup_insert_eq in Hacc1. injection Hacc1 as <-.
           right. exists row. split; [left|exact Hr0].
        -- rewrite lookup_insert_ne in Hacc1 by congruence. now left.
    + right. exists row'. split; [now right|exact Hr].
Qed.

(** Property X21: the state of a stored locality. Every entry of the output
    of [parse_gpci_csv] is stored from a data row of the table: its name and
    its locality number are the trimmed cells of their columns in that row,
    and its state is, when the header of the table has a state column, the
    trimmed cell of that column in the same row, which is not empty, and
    never a state inferred from the name; when the header has no state
    column, it is the state that [derive_state_from_name] infers from the
    entry's name. *)
Theorem gpci_state_origin (rows : list (list string))
    (data : gmap string gpci_record) (skipped : nat) :
  parse_gpci_csv py_float rows = Some (data, skipped) ->
  exists info cols,
    extract_gpci_headers rows 80 = Some info
    /\ resolve_gpci_columns (headers info) = Some cols
    /\ forall k r, data !! k = Some r ->
         exists row,
           row ∈ drop (data_start_index info) rows
           /\ stored_from_row cols row r.
Proof.
  unfold ParseCms.parse_gpci_csv, ParseCms.gpci_rows.
  destruct (extract_gpci_headers rows 80) as [info|]; [|discriminate].
  destruct (resolve_gpci_columns (headers info)) as [cols|] eqn:Hcols;
    [|discriminate].
  intros Hrun. exists info, cols. split_and!; [reflexivity|exact Hcols|].
  intros k r Hk.
  destruct (gpci_rows_from_rows cols _ _ _ Hrun k r Hk) as [Hempty|Hrow];
    [|exact Hrow].
  simpl in Hempty. now rewrite lookup_empty in Hempty.
Qed.

End Rows.

(** The file of the header and the row of Alabama: the header has a state
    column, and the state stored is the text AL of that column. *)
Lemma gpci_state_origin_witness :
  exists data skipped,
    parse_gpci_csv PyNum.float_of_str [gpci_header; alabama_row]
    = Some (data, skipped)
    /\ (state <$> data !! "AL-0") = Some "AL"
    /\ exists info cols,
         extract_gpci_headers [gpci_header; alabama_row] 80 = Some info
         /\ resolve_gpci_columns (headers info) = Some cols
         /\ forall k r, data !! k = Some r ->
              exists row,
                row ∈ drop (data_start_index info) [gpci_header; alabama_row]
                /\ stored_from_row cols row r.
Proof.
  eexists _, _. split; [vm_compute; reflexivity|].
  split; [vm_compute; reflexivity|].
  refine (gpci_state_origin PyNum.float_of_str [gpci_header; alabama_row] _ _ _).
  vm_compute. reflexivity.
Defined.

(** The file of the header and the rows of Alabama and Alaska, the second
    without its practice-expense index. *)
Lemma gpci_entries_keyed_witness :
  exists data skipped,
    parse_gpci_csv PyNum.float_of_str [gpci_header; alabama_row; blank_pe_row]
    = Some (data, skipped)
    /\ dom data = {["AL-0"]} /\ skipped = 1%nat
    /\ (forall k r, data !! k = Some r -> stored_locality PyNum.float_of_str k r)
    /\ (size data + skipped <= 3)%nat.
Proof.
  eexists _, _. split; [vm_compute; reflexivity|].
  split; [vm_compute; reflexivity|]. split; [reflexivity|].
  refine (gpci_entries_keyed PyNum.float_of_str
            [gpci_header; alabama_row; blank_pe_row] _ _ _).
  vm_compute. reflexivity.
Defined.

End LocalityFacts.

(** ** From a written snapshot to the validator *)

Module PipelineFacts.
Import PyStr ParseCms Timeline Props PyStrFacts SnapshotFacts.

Section Written.

Variable py_float : string -> option float.
Variable py_repr : json -> string.

Abbreviation validate_row := (Timeline.validate_row py_float py_repr).
Abbreviation validate_items := (Timeline.validate_items py_float py_repr).
Abbreviation validate := (Timeline._validate_year_snapshot py_float py_repr).
Abbreviation item_entry := (Props.item_entry py_float py_repr).

(** An item written from a record is stored under its key in upper case,
    with the record it was written from. *)
Lemma validate_record_item (k : string) (r : YearRecord) :
  trimmed k -> k <> "" -> trimmed (desc r) ->
  validate_row (record_item (k, r)) = Stored (upper k) r.
Proof.
  intros Hk Hne Hd. unfold record_item, Timeline.validate_row, snapshot_row.
  cbn [fst snd]. rewrite Hk. apply is_empty_false in Hne. rewrite Hne.
  destruct r as [d w pf pn m]. cbn [desc work_rvu pe_rvu_fac pe_rvu_nonfac mp_rvu] in *.
  change (forallb _ REQUIRED_RVU_FIELDS) with true. cbv iota.
  change (coerce_field py_float "work_rvu" _) with (Some w).
  change (coerce_field py_float "pe_rvu_fac" _) with (Some pf).
  change (coerce_field py_float "pe_rvu_nonfac" _) with (Some pn).
  change (coerce_field py_float "mp_rvu" _) with (Some m).
  cbv iota. f_equal. f_equal.
  unfold clean_desc. change (obj_get "desc" _) with (Some (JStr d)).
  cbv iota. simpl truthy. destruct d; [reflexivity|exact Hd].
Qed.

Lemma validate_items_total (items : list (string * json))
    (m : gmap string YearRecord) :
  (forall item, item ∈ items -> validate_row item <> Raised) ->
  validate_items m items
  = Some (foldl (store_entry item_entry) m items).
Proof.
  revert m; induction items as [|item items IH]; intros m Hall; [reflexivity|].
  simpl. unfold validate_item, store_entry at 2, Props.item_entry at 2.
  assert (Hitem : validate_row item <> Raised) by (apply Hall; left).
  assert (Hrest : forall x, x ∈ items -> validate_row x <> Raised)
    by (intros x Hx; apply Hall; now right).
  destruct (validate_row item); [now apply IH|now apply IH|congruence].
Qed.

(** The records of a list of items written from records that are clean but
    for the case of their keys. *)
Lemma written_items_lookup (l : list (string * YearRecord))
    (cleaned : gmap string YearRecord) (code : string) (r : YearRecord) :
  (forall k r, (k, r) ∈ l -> trimmed k /\ k <> "" /\ trimmed (desc r)) ->
  validate (JObj (record_item <$> l)) = Some cleaned ->
  cleaned !! code = Some r <->
  exists i k, l !! i = Some (k, r) /\ upper k = code
    /\ forall j k' r', (i < j)%nat -> l !! j = Some (k', r') -> upper k' <> code.
Proof.
  intros Hclean Hv. rewrite (validate_lookup py_float py_repr _ _ code r Hv).
  split.
  - intros (i & item & Hi & Hst & Hlast).
    rewrite list_lookup_fmap in Hi.
    destruct (l !! i) as [[k r0]|] eqn:Hl; [|discriminate].
    injection Hi as <-.
    destruct (Hclean k r0 (list_elem_of_lookup_2 _ _ _ Hl)) as (Hk & Hne & Hd).
    rewrite (validate_record_item k r0 Hk Hne Hd) in Hst.
    injection Hst as <- <-. exists i, k. split_and!; [exact Hl|reflexivity|].
    intros j k' r' Hj Hl' Heq.
    destruct (Hclean k' r' (list_elem_of_lookup_2 _ _ _ Hl')) as (Hk' & Hne' & Hd').
    refine (Hlast j (record_item (k', r')) Hj _ r' _);
      [now rewrite list_lookup_fmap, Hl'|].
    rewrite (validate_record_item k' r' Hk' Hne' Hd'). now rewrite Heq.
  - intros (i & k & Hl & <- & Hlast).
    destruct (Hclean k r (list_elem_of_lookup_2 _ _ _ Hl)) as (Hk & Hne & Hd).
    exists i, (record_item (k, r)). split_and!.
    + now rewrite list_lookup_fmap, Hl.
    + now apply validate_record_item.
    + intros j item' Hj Hi' r' Hst. rewrite list_lookup_fmap in Hi'.
      destruct (l !! j) as [[k' r0]|] eqn:Hl'; [|discriminate].
      injection Hi' as <-.
      destruct (Hclean k' r0 (list_elem_of_lookup_2 _ _ _ Hl')) as (Hk' & Hne' & Hd').
      rewrite (validate_record_item k' r0 Hk' Hne' Hd') in Hst.
      injection Hst as Heq _. now apply (Hlast j k' r0 Hj Hl').
Qed.

Lemma written_items_accepted (l : list (string * YearRecord)) :
  (forall k r, (k, r) ∈ l -> trimmed k /\ k <> "" /\ trimmed (desc r)) ->
  exists cleaned, validate (JObj (record_item <$> l)) = Some cleaned.
Proof.
  intros Hclean. eexists. simpl. apply validate_items_total.
  intros item ([k r] & -> & Hin)%list_elem_of_fmap.
  destruct (Hclean k r Hin) as (Hk & Hne & Hd).
  now rewrite (validate_record_item k r Hk Hne Hd).
Qed.

Lemma listing_lookup (data : gmap string YearRecord)
    (l : list (string * YearRecord)) (k : string) (r : YearRecord) :
  l ≡ₚ map_to_list data -> (k, r) ∈ l <-> data !! k = Some r.
Proof. intros ->. apply elem_of_map_to_list. Qed.

Lemma listing_key_once (data : gmap string YearRecord)
    (l : list (string * YearRecord)) (i j : nat) (k : string) (r r' : YearRecord) :
  l ≡ₚ map_to_list data -> l !! i = Some (k, r) -> l !! j = Some (k, r') -> i = j.
Proof.
  intros Hperm Hi Hj.
  assert (Hnd : NoDup l.*1) by (rewrite Hperm; apply NoDup_fst_map_to_list).
  apply (NoDup_lookup _ i j k Hnd); now rewrite list_lookup_fmap, ?Hi, ?Hj.
Qed.

(** *** The validator on its own output *)

Lemma validated_clean (items : list (string * json))
    (cleaned : gmap string YearRecord) (k : string) (r : YearRecord) :
  validate (JObj items) = Some cleaned -> cleaned !! k = Some r ->
  trimmed k /\ k <> "" /\ upper_cased k /\ trimmed (desc r).
Proof.
  intros Hv Hk.
  apply (validate_lookup py_float py_repr _ _ k r Hv) in Hk
    as (i & [key v] & _ & Hst & _).
  destruct (validate_row_key py_float py_repr key v k r Hst) as (_ & Ht & Hu & Hne).
  apply validate_row_stored in Hst as (_ & _ & fields & _ & _ & Hd & _).
  split_and!; try assumption. rewrite Hd. unfold clean_desc.
  destruct (obj_get "desc" fields) as [d|]; [|reflexivity].
  destruct (truthy d); [apply strip_trimmed|reflexivity].
Qed.

(** Property X14: the validator on what it has accepted. A snapshot that
    [_validate_year_snapshot] returns, written out as a file with its items
    in any order, is accepted again and returned unchanged: no key, no
    description and no number is altered a second time. *)
Theorem validation_idempotent (items : list (string * json))
    (cleaned : gmap string YearRecord) (l : list (string * YearRecord)) :
  validate (JObj items) = Some cleaned -> l ≡ₚ map_to_list cleaned ->
  validate (JObj (record_item <$> l)) = Some cleaned.
Proof.
  intros Hv Hperm.
  assert (Hclean : forall k r, (k, r) ∈ l ->
            trimmed k /\ k <> "" /\ trimmed (desc r)).
  { intros k r Hin%(listing_lookup cleaned l k r Hperm).
    destruct (validated_clean items cleaned k r Hv Hin) as (? & ? & _ & ?).
    now split_and!. }
  destruct (written_items_accepted l Hclean) as [again Hagain].
  rewrite Hagain. f_equal. apply map_eq. intros code. apply option_eq. intros r.
  rewrite (written_items_lookup l again code r Hclean Hagain). split.
  - intros (i & k & Hl & <- & _).
    apply list_elem_of_lookup_2, (listing_lookup cleaned l k r Hperm) in Hl.
    destruct (validated_clean items cleaned k r Hv Hl) as (_ & _ & -> & _).
    exact Hl.
  - intros Hin.
    destruct (validated_clean items cleaned code r Hv Hin) as (_ & _ & Hu & _).
    apply (listing_lookup cleaned l code r Hperm) in Hin.
    apply list_elem_of_lookup_1 in Hin as [i Hi].
    exists i, code. split_and!; [exact Hi|exact Hu|].
    intros j k' r' Hj Hl' Heq.
    assert (Hin' : cleaned !! k' = Some r').
    { apply (listing_lookup cleaned l k' r' Hperm).
      now apply list_elem_of_lookup_2 in Hl'. }
    destruct (validated_clean items cleaned k' r' Hv Hin') as (_ & _ & Hu' & _).
    rewrite Hu' in Heq. subst k'.
    pose proof (listing_key_once cleaned l i j code r r' Hperm Hi Hl'). lia.
Qed.

(** *** From the table parser to the validator *)

Lemma parsed_clean (table : list (list string))
    (data : gmap string YearRecord) (k : string) (r : YearRecord) :
  parse_rvu_csv py_float table = Some data -> data !! k = Some r ->
  trimmed k /\ k <> "" /\ trimmed (desc r).
Proof.
  unfold ParseCms.parse_rvu_csv.
  destruct table as [|headers rows]; [discriminate|].
  destruct (resolve_rvu_columns headers) as [cols|]; [|discriminate].
  intros [= <-] Hk.
  apply rvu_rows_lookup in Hk as (i & row & _ & Hcode & -> & _).
  apply rvu_row_code_key in Hcode as (cell & _ & _ & Ht & Hne & _).
  split_and!; [exact Ht|exact Hne|]. simpl. unfold safe_str.
  destruct (desc_idx cols) as [j|]; [|reflexivity].
  destruct (row !! j); [apply strip_trimmed|reflexivity].
Qed.

(** Property X15: from [parse_rvu_csv] to [_validate_year_snapshot]. The
    snapshot that [parse_rvu_csv] builds, written out as a file with its
    items in any order, is accepted by the validator: no item is passed over
    and no value raises. Every record of the validated snapshot is the
    record of a code of the table under that code in upper case, and every
    code of the table has a record under its upper case: its own when no
    other code of the table has the same upper case. *)
Theorem parsed_table_validates (table : list (list string))
    (data : gmap string YearRecord) (l : list (string * YearRecord)) :
  parse_rvu_csv py_float table = Some data -> l ≡ₚ map_to_list data ->
  exists cleaned,
    validate (JObj (record_item <$> l)) = Some cleaned
    /\ (forall code r, cleaned !! code = Some r ->
          exists k, upper k = code /\ data !! k = Some r)
    /\ (forall k, is_Some (data !! k) -> is_Some (cleaned !! upper k))
    /\ (forall k r, data !! k = Some r ->
          (forall k', is_Some (data !! k') -> upper k' = upper k -> k' = k) ->
          cleaned !! upper k = Some r).
Proof.
  intros Hparse Hperm.
  assert (Hclean : forall k r, (k, r) ∈ l ->
            trimmed k /\ k <> "" /\ trimmed (desc r)).
  { intros k r Hin%(listing_lookup data l k r Hperm).
    exact (parsed_clean table data k r Hparse Hin). }
  destruct (written_items_accepted l Hclean) as [cleaned Hv].
  exists cleaned. split; [exact Hv|].
  assert (Hto : forall code r, cleaned !! code = Some r ->
            exists k, upper k = code /\ data !! k = Some r).
  { intros code r (i & k & Hl & Hu & _)%(written_items_lookup l cleaned code r Hclean Hv).
    exists k. split; [exact Hu|].
    apply (listing_lookup data l k r Hperm).
    now apply list_elem_of_lookup_2 in Hl. }
  assert (Hfrom : forall k, is_Some (data !! k) -> is_Some (cleaned !! upper k)).
  { intros k [r Hk]. apply (listing_lookup data l k r Hperm) in Hk.
    apply list_elem_of_lookup_1 in Hk as [i Hi].
    (* the last item of the list whose key has this upper case *)
    destruct (list_find (fun kr => upper (fst kr) = upper k) (reverse l))
      as [[n [k0 r0]]|] eqn:Hfind.
    - apply list_find_Some in Hfind as (Hn & Hp & Hfirst). simpl in Hp.
      pose proof (lookup_lt_Some _ _ _ Hn) as Hlt. rewrite length_reverse in Hlt.
      rewrite reverse_lookup in Hn by exact Hlt.
      exists r0. apply (written_items_lookup l cleaned _ r0 Hclean Hv).
      exists (length l - S n)%nat, k0. split_and!; [exact Hn|exact Hp|].
      intros j k' r' Hj Hl' Heq.
      pose proof (lookup_lt_Some _ _ _ Hl') as Hjl.
      apply (Hfirst (length l - S j)%nat (k', r')); [|lia|exact Heq].
      rewrite reverse_lookup by lia.
      replace (length l - S (length l - S j))%nat with j by lia. exact Hl'.
    - apply list_find_None in Hfind. rewrite Forall_forall in Hfind.
      exfalso. apply (Hfind (k, r)); [|reflexivity].
      apply elem_of_reverse. now apply list_elem_of_lookup_2 in Hi. }
  split_and!; [exact Hto|exact Hfrom|].
  intros k r Hk Hinj. destruct (Hfrom k (mk_is_Some _ _ Hk)) as [r' Hr'].
  destruct (Hto _ _ Hr') as (k' & Hu & Hk').
  rewrite (Hinj k' (mk_is_Some _ _ Hk') Hu) in Hk'. congruence.
Qed.

End Written.

(** The file with the keys " g0101 " and "G0101": what the validator
    returns is returned again. *)
Lemma validation_idempotent_witness :
  exists cleaned,
    _validate_year_snapshot PyNum.float_of_str no_repr (JObj repeated_code_items)
    = Some cleaned
    /\ dom cleaned = {["G0101"]}
    /\ _validate_year_snapshot PyNum.float_of_str no_repr
         (JObj (record_item <$> map_to_list cleaned))
       = Some cleaned.
Proof.
  eexists. split; [reflexivity|]. split; [vm_compute; reflexivity|].
  exact (validation_idempotent PyNum.float_of_str no_repr repeated_code_items
           _ _ eq_refl (reflexivity _)).
Defined.

(** The table whose one code is written " g0101 ": the validator stores
    its record under G0101. *)
Lemma parsed_table_validates_witness :
  exists data,
    parse_rvu_csv PyNum.float_of_str lower_case_table = Some data
    /\ dom data = {["g0101"]}
    /\ exists cleaned,
         _validate_year_snapshot PyNum.float_of_str no_repr
           (JObj (record_item <$> map_to_list data)) = Some cleaned
         /\ (forall code r, cleaned !! code = Some r ->
               exists k, upper k = code /\ data !! k = Some r)
         /\ (forall k, is_Some (data !! k) -> is_Some (cleaned !! upper k))
         /\ (forall k r, data !! k = Some r ->
               (forall k', is_Some (data !! k') -> upper k' = upper k -> k' = k) ->
               cleaned !! upper k = Some r).
Proof.
  eexists. split; [reflexivity|]. split; [vm_compute; reflexivity|].
  exact (parsed_table_validates PyNum.float_of_str no_repr lower_case_table
           _ _ eq_refl (reflexivity _)).
Defined.

End PipelineFacts.

(** ** The table read by fixed columns *)

Module FixedColumnFacts.
Import PyStr ParseCms ProcessAll Props PyStrFacts.

Section Year.

Variable py_float : string -> option float.

Abbreviation float_or_zero := (ProcessAll.float_or_zero py_float).
Abbreviation process_row := (ProcessAll.process_row py_float).
Abbreviation process_year := (ProcessAll.process_year py_float).

(** What one turn of the loop does. *)
Lemma process_row_cases (data : gmap string YearRecord) (count : nat)
    (row : list string) :
  process_row (data, count) row = (data, count)
  \/ exists k r,
       process_row (data, count) row = (<[k := r]> data, S count)
       /\ trimmed k /\ k <> "" /\ trimmed (desc r).
Proof.
  unfold ProcessAll.process_row.
  destruct (length row <? 11)%nat; [now left|].
  destruct (is_empty (strip (default "" (row !! 0%nat)))) eqn:He; [now left|].
  destruct (float_or_zero (default "" (row !! 5%nat))); [|now left].
  destruct (float_or_zero (default "" (row !! 6%nat))); [|now left].
  destruct (float_or_zero (default "" (row !! 8%nat))); [|now left].
  destruct (float_or_zero (default "" (row !! 10%nat))); [|now left].
  right. eexists _, _. split; [reflexivity|].
  split_and!; [apply strip_trimmed|now apply is_empty_false|apply strip_trimmed].
Qed.

Lemma process_rows_invariant (rows : list (list string))
    (data : gmap string YearRecord) (count : nat) :
  (forall k r, data !! k = Some r -> trimmed k /\ k <> "" /\ trimmed (desc r)) ->
  (forall k r, fst (foldl process_row (data, count) rows) !! k = Some r ->
     trimmed k /\ k <> "" /\ trimmed (desc r))
  /\ (count <= snd (foldl process_row (data, count) rows)
       <= count + length rows)%nat
  /\ (size (fst (foldl process_row (data, count) rows)) + count
      <= size data + snd (foldl process_row (data, count) rows))%nat.
Proof.
  revert data count; induction rows as [|row rows IH]; intros data count Hdata;
    cbn [foldl length].
  - split_and!; [exact Hdata|simpl; lia|simpl; lia|simpl; lia].
  - destruct (process_row_cases data count row) as [->|(k & r & -> & Hk)].
    + destruct (IH data count Hdata) as (H1 & H2 & H3).
      split_and!; [exact H1|lia|lia|exact H3].
    + destruct (IH (<[k := r]> data) (S count)) as (H1 & H2 & H3).
      * intros k' r'. destruct (decide (k' = k)) as [->|Hne].
        -- rewrite lookup_insert_eq. now intros [= <-].
        -- rewrite lookup_insert_ne by congruence. apply Hdata.
      * split_and!; [exact H1|lia|lia|].
        pose proof (map_size_insert k r data) as Hsize.
        destruct (data !! k); unfold id in Hsize; lia.
Qed.

(** Property X16: the count of [process_year]. The number that
    [process_year] reports as written is the number of rows it stored: it is
    at least the number of codes of the output, since a code stored twice is
    counted twice and kept once, and at most the number of rows after the
    ten skipped. The codes of the output are trimmed and not empty, and so
    trimmed are the descriptions. A file of fewer than ten rows gives an
    error, not an empty output. *)
Theorem process_year_count :
  (forall table data count,
     process_year table = Some (data, count) ->
     (size data <= count <= length table - 10)%nat
     /\ (10 <= length table)%nat
     /\ forall k r, data !! k = Some r ->
          trimmed k /\ k <> "" /\ trimmed (desc r))
  /\ (forall table, (length table < 10)%nat -> process_year table = None)
  /\ (forall table, length table = 10%nat -> process_year table = Some (∅, 0%nat)).
Proof.
  split_and!.
  - intros table data count. unfold ProcessAll.process_year.
    destruct (Nat.ltb_spec (length table) 10) as [Hlt|Hge]; [discriminate|].
    intros [= Hout].
    destruct (process_rows_invariant (drop 10 table) ∅ 0) as (H1 & H2 & H3).
    { intros k r. now rewrite lookup_empty. }
    rewrite Hout in H1, H2, H3. simpl in *.
    rewrite map_size_empty in H3. rewrite length_drop in H2.
    split_and!; [lia|lia|exact Hge|exact H1].
  - intros table Hlt. unfold ProcessAll.process_year.
    now destruct (Nat.ltb_spec (length table) 10) as [_|Hge]; [|lia].
  - intros table Hlen. unfold ProcessAll.process_year.
    destruct (Nat.ltb_spec (length table) 10) as [Hlt|_]; [lia|].
    rewrite drop_ge by lia. reflexivity.
Qed.

(** *** The two readers of a row *)

Lemma float_or_zero_plain (row : list string) (i : nat) :
  (length row >= 11)%nat -> (i < 11)%nat ->
  all_chars numeric_char (strip (default "" (row !! i))) = true ->
  strip (default "" (row !! i)) = ""
  \/ is_Some (py_float (strip (default "" (row !! i)))) ->
  float_or_zero (default "" (row !! i))
  = Some (rvu_safe_float py_float row (Some i)).
Proof.
  intros Hlen Hi Hplain Hok.
  unfold ProcessAll.float_or_zero, ParseCms.rvu_safe_float.
  destruct (row !! i) as [cell|] eqn:Hcell.
  2:{ apply lookup_ge_None in Hcell. lia. }
  simpl in *. unfold clean_numeric. rewrite (keep_chars_fixed _ _ Hplain).
  destruct (is_empty (strip cell)) eqn:He; [reflexivity|].
  destruct Hok as [Hempty|[x Hx]].
  - apply is_empty_true in Hempty. congruence.
  - now rewrite Hx.
Qed.

(** Property X17: the two readers of a table row. On a row of eleven cells
    or more whose code [parse_rvu_csv] would store, and whose four numeric
    cells, once trimmed, are empty or hold digits, points and hyphens that
    [float] reads, [process_year] stores what [parse_rvu_csv] stores with
    the same columns. Where one of those cells is not empty and [float] does
    not read it, [process_year] drops the row and leaves the output as it
    was. *)
Theorem fixed_columns_agree (data : gmap string YearRecord) (count : nat)
    (row : list string) :
  (length row >= 11)%nat ->
  (forall code,
     rvu_row_code fixed_columns row = Some code ->
     Forall (fun i =>
       all_chars numeric_char (strip (default "" (row !! i))) = true
       /\ (strip (default "" (row !! i)) = ""
           \/ is_Some (py_float (strip (default "" (row !! i))))))
       fixed_numeric_cells ->
     process_row (data, count) row
     = (rvu_row py_float fixed_columns data row, S count))
  /\ (Exists (fun i =>
        strip (default "" (row !! i)) <> ""
        /\ py_float (strip (default "" (row !! i))) = None)
        fixed_numeric_cells ->
      process_row (data, count) row = (data, count)).
Proof.
  intros Hlen. split.
  - intros code Hcode Hcells.
    unfold fixed_numeric_cells in Hcells.
    apply Forall_cons in Hcells as [[Hp5 Ho5] Hcells].
    apply Forall_cons in Hcells as [[Hp6 Ho6] Hcells].
    apply Forall_cons in Hcells as [[Hp8 Ho8] Hcells].
    apply Forall_cons in Hcells as [[Hp10 Ho10] _].
    unfold rvu_row. rewrite Hcode.
    unfold rvu_row_code in Hcode. simpl cpt_idx in Hcode.
    destruct (row !! 0%nat) as [cell0|] eqn:Hc0; [|discriminate].
    destruct (is_empty (strip cell0) || _) eqn:Hhead; [discriminate|].
    apply orb_false_iff in Hhead as [He _]. injection Hcode as <-.
    unfold ProcessAll.process_row.
    destruct (Nat.ltb_spec (length row) 11) as [Hlt|_]; [lia|].
    rewrite Hc0. simpl default at 1. rewrite He.
    rewrite (float_or_zero_plain row 5 Hlen ltac:(lia) Hp5 Ho5),
      (float_or_zero_plain row 6 Hlen ltac:(lia) Hp6 Ho6),
      (float_or_zero_plain row 8 Hlen ltac:(lia) Hp8 Ho8),
      (float_or_zero_plain row 10 Hlen ltac:(lia) Hp10 Ho10).
    f_equal. f_equal. unfold rvu_row_record, fixed_columns, safe_str. simpl.
    f_equal. now destruct (row !! 2%nat).
  - intros Hbad. unfold ProcessAll.process_row.
    destruct (length row <? 11)%nat; [reflexivity|].
    destruct (is_empty _); [reflexivity|].
    assert (Hnone : forall i,
              strip (default "" (row !! i)) <> ""
              /\ py_float (strip (default "" (row !! i))) = None ->
              float_or_zero (default "" (row !! i)) = None).
    { intros i [Hne Hf]. unfold ProcessAll.float_or_zero.
      apply is_empty_false in Hne. now rewrite Hne. }
    unfold fixed_numeric_cells in Hbad.
    repeat (apply Exists_cons in Hbad as [Hbad|Hbad];
            [rewrite (Hnone _ Hbad);
             repeat (match goal with
                     | |- context [ProcessAll.float_or_zero py_float ?c] =>
                         destruct (ProcessAll.float_or_zero py_float c)
                     end); reflexivity|]).
    inversion Hbad.
Qed.

End Year.

(** A row that both readers store alike, and a row whose work value is
    the text n/a, which [process_year] drops. *)
Lemma fixed_columns_agree_witness :
  (length eleven_cells >= 11)%nat
  /\ rvu_row_code fixed_columns eleven_cells = Some "99213"
  /\ ProcessAll.process_row PyNum.float_of_str (∅, 0%nat) eleven_cells
     = (rvu_row PyNum.float_of_str fixed_columns ∅ eleven_cells, 1%nat)
  /\ ProcessAll.process_row PyNum.float_of_str (∅, 0%nat) eleven_cells_unread
     = (∅, 0%nat).
Proof.
  assert (Hlen : (length eleven_cells >= 11)%nat) by (simpl; lia).
  assert (Hlen' : (length eleven_cells_unread >= 11)%nat) by (simpl; lia).
  split; [exact Hlen|]. split; [reflexivity|]. split.
  - refine (proj1 (fixed_columns_agree PyNum.float_of_str ∅ 0 eleven_cells Hlen)
              "99213" eq_refl _).
    unfold fixed_numeric_cells.
    repeat first [apply List.Forall_nil | apply List.Forall_cons];
      (split; [reflexivity|right; eexists; vm_compute; reflexivity]).
  - refine (proj2 (fixed_columns_agree PyNum.float_of_str ∅ 0
                     eleven_cells_unread Hlen') _).
    apply Exists_cons_hd. split; [discriminate|reflexivity].
Defined.

End FixedColumnFacts.

(** ** Column resolution and the bounds of what is read *)

Module TableFacts.
Import PyStr ParseCms Props PyStrFacts ColumnFacts HeaderFacts.

(** *** Patterns tried in turn *)

Lemma scan_patterns_app (normalized patterns more : list string) :
  scan_patterns normalized (patterns ++ more)
  = match scan_patterns normalized patterns with
    | Some idx => Some idx
    | None => scan_patterns normalized more
    end.
Proof.
  induction patterns as [|p ps IH]; simpl; [reflexivity|].
  now destruct (scan_headers (normalize_header p) normalized 0).
Qed.

Lemma scan_patterns_no_header (patterns : list string) :
  scan_patterns [] patterns = None.
Proof. induction patterns as [|p ps IH]; simpl; [reflexivity|exact IH]. Qed.

(** Property X18: patterns given as a fallback. [find_column] with further
    patterns added after the first ones returns what the first ones resolve,
    and turns to the added ones only when the first resolve nothing; without
    patterns, or without headers, it resolves nothing. *)
Theorem find_column_fallback (headers patterns more : list string) :
  find_column headers (patterns ++ more)
  = match find_column headers patterns with
    | Some idx => Some idx
    | None => find_column headers more
    end
  /\ find_column headers [] = None
  /\ find_column [] patterns = None.
Proof.
  unfold find_column. split_and!.
  - apply scan_patterns_app.
  - reflexivity.
  - apply scan_patterns_no_header.
Qed.

(** *** Letter case and punctuation *)

Lemma lower_char_idem (c : ascii) : lower_char (lower_char c) = lower_char c.
Proof. destruct c as [[] [] [] [] [] [] [] []]; reflexivity. Qed.

Lemma lower_upper_char (c : ascii) : lower_char (upper_char c) = lower_char c.
Proof. destruct c as [[] [] [] [] [] [] [] []]; reflexivity. Qed.

Lemma lower_kept_char (c : ascii) :
  is_lower c || is_digit c = true -> lower_char c = c.
Proof. destruct c as [[] [] [] [] [] [] [] []]; simpl; intros H; easy. Qed.

Lemma lower_map (f : ascii -> ascii) (s : string) :
  (forall c, lower_char (f c) = lower_char c) -> lower (map_chars f s) = lower s.
Proof.
  intros Hf. unfold lower. induction s as [|c s IH]; simpl; [reflexivity|].
  now rewrite Hf, IH.
Qed.

Lemma lower_fixed (s : string) :
  all_chars (fun c => is_lower c || is_digit c) s = true -> lower s = s.
Proof.
  unfold lower. induction s as [|c s IH]; simpl; [reflexivity|].
  intros [Hc Hs]%andb_true_iff. now rewrite (lower_kept_char c Hc), IH.
Qed.

Lemma normalize_header_idem (h : string) :
  normalize_header (normalize_header h) = normalize_header h.
Proof.
  unfold normalize_header at 1.
  rewrite (lower_fixed _ (normalize_header_chars h)).
  apply keep_chars_fixed, normalize_header_chars.
Qed.

Lemma normalize_header_upper (h : string) :
  normalize_header (upper h) = normalize_header h.
Proof.
  unfold normalize_header, upper. now rewrite (lower_map _ _ lower_upper_char).
Qed.

Lemma normalize_header_lower (h : string) :
  normalize_header (lower h) = normalize_header h.
Proof.
  unfold normalize_header. unfold lower at 2.
  now rewrite (lower_map _ _ lower_char_idem).
Qed.

Lemma scan_patterns_ext (normalized ps ps' : list string) :
  normalize_header <$> ps = normalize_header <$> ps' ->
  scan_patterns normalized ps = scan_patterns normalized ps'.
Proof.
  revert ps'; induction ps as [|p ps IH]; intros [|p' ps'] Heq;
    try discriminate; [reflexivity|].
  injection Heq as Hp Hps. simpl. rewrite Hp.
  destruct (scan_headers _ _ _); [reflexivity|now apply IH].
Qed.

Lemma find_column_ext (hs hs' ps ps' : list string) :
  normalize_header <$> hs = normalize_header <$> hs' ->
  normalize_header <$> ps = normalize_header <$> ps' ->
  find_column hs ps = find_column hs' ps'.
Proof.
  intros Hh Hp. unfold find_column.
  change (map normalize_header hs) with (normalize_header <$> hs).
  change (map normalize_header hs') with (normalize_header <$> hs').
  rewrite Hh. now apply scan_patterns_ext.
Qed.

(** Property X19: what the resolver does not look at. [find_column] gives
    the same column when the headers, the patterns or both are put in upper
    case, in lower case, or replaced by their normal forms: only the letters
    and digits of a header count, whatever their case. *)
Theorem find_column_ignores_case (headers patterns : list string) :
  find_column (upper <$> headers) patterns = find_column headers patterns
  /\ find_column (lower <$> headers) patterns = find_column headers patterns
  /\ find_column headers (upper <$> patterns) = find_column headers patterns
  /\ find_column (normalize_header <$> headers) (normalize_header <$> patterns)
     = find_column headers patterns
  /\ forall headers' patterns',
       normalize_header <$> headers' = normalize_header <$> headers ->
       normalize_header <$> patterns' = normalize_header <$> patterns ->
       find_column headers' patterns' = find_column headers patterns.
Proof.
  split_and!.
  - apply find_column_ext; [|reflexivity]. rewrite <- list_fmap_compose.
    apply list_fmap_ext. intros _ h _. apply normalize_header_upper.
  - apply find_column_ext; [|reflexivity]. rewrite <- list_fmap_compose.
    apply list_fmap_ext. intros _ h _. apply normalize_header_lower.
  - apply find_column_ext; [reflexivity|]. rewrite <- list_fmap_compose.
    apply list_fmap_ext. intros _ h _. apply normalize_header_upper.
  - apply find_column_ext; rewrite <- list_fmap_compose;
      apply list_fmap_ext; intros _ h _; apply normalize_header_idem.
  - intros headers' patterns'. apply find_column_ext.
Qed.

(** *** Indices within the header *)

Lemma find_column_bound (headers patterns : list string) (idx : nat) :
  find_column headers patterns = Some idx -> (idx < length headers)%nat.
Proof.
  unfold find_column. intros (k & p & _ & Hscan & _)%scan_patterns_Some.
  apply scan_headers_Some in Hscan as (j & h & -> & Hj & _).
  apply lookup_lt_Some in Hj. now rewrite length_map in Hj.
Qed.

Lemma find_column_bound_opt (headers patterns : list string) :
  match find_column headers patterns with
  | Some idx => (idx < length headers)%nat
  | None => True
  end.
Proof.
  destruct (find_column headers patterns) as [idx|] eqn:H; [|exact I].
  now apply find_column_bound in H.
Qed.

Lemma find_column_within (headers patterns : list string) :
  within headers (find_column headers patterns).
Proof. apply find_column_bound_opt. Qed.

(** Property X20: nothing is read out of range. The column indices that
    [parse_rvu_csv] and [parse_gpci_csv] resolve lie within the header they
    are resolved from. The header that [extract_gpci_headers] finds starts
    within the rows scanned, takes one line or two and has three cells or
    more, and the data rows start right after it, not past the end of the
    file. *)
Theorem indices_in_range :
  (forall headers cols,
     resolve_rvu_columns headers = Some cols ->
     (cpt_idx cols < length headers)%nat
     /\ Forall (within headers)
          [desc_idx cols; work_idx cols; pe_fac_idx cols; pe_nonfac_idx cols;
           mp_idx cols])
  /\ (forall headers cols,
        resolve_gpci_columns headers = Some cols ->
        Forall (fun i => (i < length headers)%nat)
          [locality_num_idx cols; locality_name_idx cols; work_gpci_idx cols;
           pe_gpci_idx cols; mp_gpci_idx cols]
        /\ within headers (mac_idx cols) /\ within headers (state_idx cols))
  /\ (forall rows max_scan info,
        extract_gpci_headers rows max_scan = Some info ->
        (header_start_index info < Nat.min max_scan (length rows))%nat
        /\ (header_line_count info = 1%nat \/ header_line_count info = 2%nat)
        /\ data_start_index info
           = (header_start_index info + header_line_count info)%nat
        /\ (data_start_index info <= length rows)%nat
        /\ (3 <= length (headers info))%nat).
Proof.
  split_and!.
  - intros headers cols. unfold resolve_rvu_columns.
    destruct (find_column headers ["cpt"; "hcpcs"; "code"; "cpt/hcpcs"; "cpthcpcs"])
      as [c|] eqn:Hc; [|discriminate].
    intros [= <-]. simpl. split; [now apply find_column_bound in Hc|].
    repeat first [apply List.Forall_nil | apply List.Forall_cons];
      apply find_column_within.
  - intros headers cols. unfold resolve_gpci_columns.
    destruct (find_column headers ["locality number"; "locality no"; "locality"])
      as [ln|] eqn:Hln; [|discriminate].
    destruct (find_column headers ["locality name"; "name"])
      as [lname|] eqn:Hname; [|discriminate].
    destruct (find_column headers ["pw gpci"; "work gpci"; "pwgpci"; "workgpci"])
      as [w|] eqn:Hw; [|discriminate].
    destruct (find_column headers
                ["pe gpci"; "pegpci"; "practice expense gpci";
                 "practiceexpensegpci"])
      as [pe|] eqn:Hpe; [|discriminate].
    destruct (find_column headers
                ["mp gpci"; "mpgpci"; "pl gpci"; "plmgpci"; "malpractice gpci";
                 "malpracticegpci"])
      as [m|] eqn:Hm; [|discriminate].
    intros [= <-]. simpl.
    split_and!; try apply find_column_within.
    repeat first [apply List.Forall_nil | apply List.Forall_cons];
      eapply find_column_bound; eassumption.
  - intros rows max_scan info. unfold extract_gpci_headers.
    set (scan_limit := Nat.min max_scan (length rows)).
    intros (i & x & Hi & Hx & _)%first_return_Some.
    apply lookup_seq in Hi as [-> Hlt]. simpl in Hx.
    assert (Hwide : forall row, wide_enough row = true -> (3 <= length row)%nat).
    { intros row. unfold wide_enough. apply Nat.leb_le. }
    destruct (scan_row_cases rows scan_limit i)
      as [(row & Hs & Heq)|[(row & row2 & Hp & Heq)|(_ & Heq)]];
      rewrite Heq in Hx; [| |discriminate]; injection Hx as <-; simpl.
    + destruct Hs as (_ & Ha & _). unfold anchored in Ha.
      apply andb_true_iff in Ha as [Ha _]. apply andb_true_iff in Ha as [Ha _].
      split_and!; [exact Hlt|now left|reflexivity|lia|now apply Hwide].
    + destruct Hp as (_ & Ha & _ & Hlim & _ & Hw2 & _).
      rewrite merge_rows_length. apply Hwide in Hw2.
      split_and!; [exact Hlt|now right|reflexivity|lia|lia].
Qed.

End TableFacts.

(** ** The worksheets *)

Module SheetFacts.
Import PyStr ParseCms ParseExcel Props PyStrFacts.

Section Sheets.

Variable py_float : string -> option float.
Variable py_repr : float -> string.

Abbreviation cell_text := (ParseExcel.cell_text py_repr).
Abbreviation gpci_excel_row := (ParseExcel.gpci_excel_row py_float py_repr).
Abbreviation parse_gpci_excel := (ParseExcel.parse_gpci_excel py_float py_repr).
Abbreviation rvu_excel_row := (ParseExcel.rvu_excel_row py_float py_repr).
Abbreviation rvu_excel_rows := (ParseExcel.rvu_excel_rows py_float py_repr).
Abbreviation parse_rvu_excel := (ParseExcel.parse_rvu_excel py_float py_repr).
Abbreviation alone := (stored_alone py_float py_repr).

Lemma cell_text_trimmed (c : cell) : trimmed (cell_text c).
Proof.
  unfold ParseExcel.cell_text.
  destruct (cell_truthy c); [apply strip_trimmed|reflexivity].
Qed.

(** *** The GPCI worksheet *)

(** What one turn of the loop does, by the row alone. *)
Lemma gpci_excel_row_cases (row : list cell) :
  (forall data skipped, gpci_excel_row (data, skipped) row = (data, skipped))
  \/ (forall data skipped,
        gpci_excel_row (data, skipped) row = (data, S skipped))
  \/ exists r,
       (state r <> "" /\ trimmed (state r)
        /\ locality r <> "" /\ trimmed (locality r) /\ trimmed (name r)
        /\ mac r = None)
       /\ forall data skipped,
            gpci_excel_row (data, skipped) row
            = (match data !! state r with
               | Some _ => data
               | None => <[state r := r]> data
               end, skipped).
Proof.
  unfold ParseExcel.gpci_excel_row.
  destruct (length row <=? 6)%nat; [now left|].
  destruct (is_empty (cell_text (default CNone (row !! 1%nat)))) eqn:Hs;
    [now left|].
  destruct (is_empty (cell_text (default CNone (row !! 2%nat)))) eqn:Hl;
    [now left|].
  cbn [orb].
  destruct (safe_float py_float 1 (default CNone (row !! 4%nat))) as [w|];
    [|right; now left].
  destruct (safe_float py_float 1 (default CNone (row !! 5%nat))) as [p|];
    [|right; now left].
  destruct (safe_float py_float 1 (default CNone (row !! 6%nat))) as [m|];
    [|right; now left].
  right. right.
  exists {| name := cell_text (default CNone (row !! 3%nat));
            state := cell_text (default CNone (row !! 1%nat));
            locality := cell_text (default CNone (row !! 2%nat));
            work_gpci := w; pe_gpci := p; mp_gpci := m; mac := None |}.
  cbn [state locality name mac]. apply is_empty_false in Hs, Hl.
  split.
  - split_and!; try assumption; try apply cell_text_trimmed. reflexivity.
  - intros data skipped.
    now destruct (data !! cell_text (default CNone (row !! 1%nat))).
Qed.

(** What a row stores on its own: nothing, or one entry under its state. *)
Lemma alone_cases (row : list cell) :
  alone row = ∅
  \/ exists r, alone row = {[state r := r]}
       /\ state r <> "" /\ trimmed (state r)
       /\ locality r <> "" /\ trimmed (locality r) /\ trimmed (name r)
       /\ mac r = None.
Proof.
  unfold stored_alone.
  destruct (gpci_excel_row_cases row) as [H|[H|(r & Hr & H)]]; rewrite H.
  - now left.
  - now left.
  - right. exists r. rewrite lookup_empty, insert_empty. now split.
Qed.

(** A turn of the loop adds what the row stores on its own, where the
    output has nothing under that state yet. *)
Lemma gpci_excel_row_union (data : gmap string gpci_record) (skipped : nat)
    (row : list cell) :
  exists skipped',
    gpci_excel_row (data, skipped) row = (data ∪ alone row, skipped').
Proof.
  unfold stored_alone.
  destruct (gpci_excel_row_cases row) as [H|[H|(r & Hr & H)]]; rewrite !H;
    cbn [fst].
  - exists skipped. now rewrite (right_id_L ∅ (∪)).
  - exists (S skipped). now rewrite (right_id_L ∅ (∪)).
  - exists skipped. rewrite lookup_empty, insert_empty.
    destruct (data !! state r) as [r0|] eqn:Hk.
    + f_equal. apply map_eq. intros k'. symmetry.
      destruct (data !! k') as [x|] eqn:Hk'.
      * apply lookup_union_Some_raw. now left.
      * apply lookup_union_None. split; [exact Hk'|].
        apply lookup_singleton_None. congruence.
    + f_equal. now rewrite insert_union_singleton_r.
Qed.

Lemma gpci_excel_rows_first (rows : list (list cell))
    (data : gmap string gpci_record) (skipped : nat) (k : string)
    (r : gpci_record) :
  fst (foldl gpci_excel_row (data, skipped) rows) !! k = Some r
  <-> data !! k = Some r
      \/ (data !! k = None
          /\ exists i row,
               rows !! i = Some row /\ alone row !! k = Some r
               /\ forall j row', (j < i)%nat -> rows !! j = Some row' ->
                    alone row' !! k = None).
Proof.
  revert data skipped; induction rows as [|row rows IH]; intros data skipped;
    cbn [foldl].
  - simpl. split; [now left|].
    intros [H|(_ & i & row & Hi & _)]; [exact H|]. now rewrite lookup_nil in Hi.
  - destruct (gpci_excel_row_union data skipped row) as (sk' & ->).
    rewrite IH, lookup_union_Some_raw, lookup_union_None. split.
    + intros [[H|[Hd Ha]]|([Hd Ha] & i & row' & Hi & Hr & Hfirst)].
      * now left.
      * right. split; [exact Hd|]. exists 0%nat, row.
        split_and!; [reflexivity|exact Ha|]. intros j row' Hj. lia.
      * right. split; [exact Hd|]. exists (S i), row'.
        split_and!; [exact Hi|exact Hr|].
        intros [|j] row'' Hj Hrow''.
        -- injection Hrow'' as <-. exact Ha.
        -- apply (Hfirst j); [lia|exact Hrow''].
    + intros [H|(Hd & [|i] & row' & Hi & Hr & Hfirst)].
      * left. now left.
      * injection Hi as <-. left. right. now split.
      * right. split.
        -- split; [exact Hd|]. apply (Hfirst 0%nat); [lia|reflexivity].
        -- exists i, row'. split_and!; [exact Hi|exact Hr|].
           intros j row'' Hj Hrow''. apply (Hfirst (S j)); [lia|exact Hrow''].
Qed.

Lemma gpci_excel_rows_count (rows : list (list cell))
    (data : gmap string gpci_record) (skipped : nat) :
  (size (fst (foldl gpci_excel_row (data, skipped) rows))
   + snd (foldl gpci_excel_row (data, skipped) rows)
   <= size data + skipped + length rows)%nat.
Proof.
  revert data skipped; induction rows as [|row rows IH]; intros data skipped;
    cbn [foldl length]; [simpl; lia|].
  destruct (gpci_excel_row_cases row) as [H|[H|(r & _ & H)]]; rewrite H.
  - specialize (IH data skipped). lia.
  - specialize (IH data (S skipped)). lia.
  - destruct (data !! state r) eqn:Hk.
    + specialize (IH data skipped). lia.
    + specialize (IH (<[state r := r]> data) skipped).
      pose proof (map_size_insert (state r) r data) as Hsize.
      rewrite Hk in Hsize. unfold id in Hsize. lia.
Qed.

Lemma gpci_header_from_bound (rows : list (list cell)) (i h : nat) :
  gpci_header_from py_repr i rows = Some h ->
  (i <= h < i + length rows)%nat.
Proof.
  revert i; induction rows as [|row rows IH]; intros i; simpl; [discriminate|].
  destruct (gpci_header_row py_repr row).
  - intros [= <-]. lia.
  - intros H%IH. lia.
Qed.

(** Property X22: the first locality of a state is the one kept. The output of
    [parse_gpci_excel] holds under a state what the first data row that
    stores something for that state stores, whatever the rows after it
    hold: one entry for each state, of the state's first locality. Every
    entry has a state and a locality number that are trimmed and not
    empty, stands under its state and has no contractor; and the entries
    and the rows counted as skipped are together fewer than the rows of the
    sheet. *)
Theorem first_locality_of_state_kept (rows : list (list cell))
    (data : gmap string gpci_record) (skipped : nat) :
  parse_gpci_excel rows = Some (data, skipped) ->
  exists h,
    (h < Nat.min 10 (length rows))%nat
    /\ (forall k r,
          data !! k = Some r
          <-> exists i row,
                drop (S h) rows !! i = Some row /\ alone row !! k = Some r
                /\ forall j row', (j < i)%nat ->
                     drop (S h) rows !! j = Some row' ->
                     alone row' !! k = None)
    /\ (forall k r,
          data !! k = Some r ->
          state r = k /\ k <> "" /\ trimmed k
          /\ locality r <> "" /\ trimmed (locality r) /\ trimmed (name r)
          /\ mac r = None)
    /\ (size data + skipped < length rows)%nat.
Proof.
  unfold ParseExcel.parse_gpci_excel.
  destruct (gpci_header_from py_repr 0 (take 10 rows)) as [h|] eqn:Hh;
    [|discriminate].
  intros [= Hout]. exists h.
  apply gpci_header_from_bound in Hh. rewrite length_take in Hh.
  assert (Hdata : forall k r,
            data !! k = Some r
            <-> exists i row,
                  drop (S h) rows !! i = Some row /\ alone row !! k = Some r
                  /\ forall j row', (j < i)%nat ->
                       drop (S h) rows !! j = Some row' ->
                       alone row' !! k = None).
  { intros k r.
    pose proof (gpci_excel_rows_first (drop (S h) rows) ∅ 0 k r) as Hfirst.
    rewrite Hout in Hfirst. cbn [fst] in Hfirst. rewrite Hfirst.
    rewrite lookup_empty. split.
    - intros [H|[_ H]]; [discriminate|exact H].
    - intros H. right. now split. }
  split_and!; [lia|exact Hdata| |].
  - intros k r (i & row & _ & Hr & _)%Hdata.
    destruct (alone_cases row) as [Hrow|(r0 & Hrow & Hprops)];
      rewrite Hrow in Hr.
    + now rewrite lookup_empty in Hr.
    + apply lookup_singleton_Some in Hr as [<- <-].
      destruct Hprops as (H1 & H2 & H3 & H4 & H5 & H6).
      split_and!; [reflexivity|assumption..].
  - pose proof (gpci_excel_rows_count (drop (S h) rows) ∅ 0) as Hcount.
    rewrite Hout in Hcount. cbn [fst snd] in Hcount.
    rewrite map_size_empty, length_drop in Hcount. lia.
Qed.

(** *** The RVU worksheet *)

(** What one turn of the loop does. *)
Lemma rvu_excel_row_cases (limit : option Z) (st : rvu_loop) (row : list cell) :
  rvu_excel_row limit st row = (st, false)
  \/ rvu_excel_row limit st row
     = (mkRvuLoop (rvu_data st) (parsed st) (S (skipped st)), false)
  \/ exists k r,
       rvu_excel_row limit st row
       = (mkRvuLoop (<[k := r]> (rvu_data st)) (S (parsed st)) (skipped st),
          limit_reached limit (S (parsed st)))
       /\ k <> "" /\ trimmed k /\ (String.length k <= 10)%nat
       /\ trimmed (desc r).
Proof.
  unfold ParseExcel.rvu_excel_row.
  destruct (length row <=? 10)%nat; [now left|].
  destruct (is_empty (cell_text (default CNone (row !! 0%nat)))) eqn:He;
    [now left|].
  destruct (Nat.ltb_spec 10
              (String.length (cell_text (default CNone (row !! 0%nat)))))
    as [Hlong|Hshort]; [now left|].
  cbn [orb].
  destruct (safe_float py_float PyNum.zero (default CNone (row !! 5%nat)));
    [|right; left; now repeat destruct (safe_float _ _ _)].
  destruct (safe_float py_float PyNum.zero (default CNone (row !! 6%nat)));
    [|right; left; now repeat destruct (safe_float _ _ _)].
  destruct (safe_float py_float PyNum.zero (default CNone (row !! 8%nat)));
    [|right; left; now repeat destruct (safe_float _ _ _)].
  destruct (safe_float py_float PyNum.zero (default CNone (row !! 10%nat)));
    [|right; now left].
  right. right. eexists _, _. split; [reflexivity|].
  cbn [desc]. apply is_empty_false in He.
  split_and!; [exact He|apply cell_text_trimmed|exact Hshort
              |apply cell_text_trimmed].
Qed.

Lemma limit_reached_bound (limit : option Z) (n : nat) :
  limit_reached limit n = true ->
  exists l, limit = Some l /\ l <> 0%Z /\ (l <= Z.of_nat n)%Z.
Proof.
  destruct limit as [l|]; [|discriminate]. simpl.
  intros [Hne Hle]%andb_true_iff. exists l.
  apply negb_true_iff, Z.eqb_neq in Hne. apply Z.leb_le in Hle. now split.
Qed.

(** The variables after a turn do not depend on the limit, and without a
    limit the loop is not left. *)
Lemma rvu_excel_row_step (limit : option Z) (st : rvu_loop) (row : list cell) :
  fst (rvu_excel_row limit st row) = fst (rvu_excel_row None st row).
Proof.
  unfold ParseExcel.rvu_excel_row.
  repeat match goal with
         | |- context [if ?b then _ else _] => destruct b; try reflexivity
         | |- context [match ?x with Some _ => _ | None => _ end] =>
             destruct x; try reflexivity
         end.
Qed.

Lemma rvu_excel_row_goes_on (st : rvu_loop) (row : list cell) :
  snd (rvu_excel_row None st row) = false.
Proof.
  destruct (rvu_excel_row_cases None st row) as [H|[H|(k & r & H & _)]];
    now rewrite H.
Qed.

Lemma rvu_excel_rows_cons (limit : option Z) (st : rvu_loop)
    (row : list cell) (rows : list (list cell)) :
  rvu_excel_rows limit st (row :: rows)
  = if snd (rvu_excel_row limit st row) then fst (rvu_excel_row limit st row)
    else rvu_excel_rows limit (fst (rvu_excel_row limit st row)) rows.
Proof.
  cbn [ParseExcel.rvu_excel_rows]. now destruct (rvu_excel_row limit st row).
Qed.

Lemma rvu_excel_rows_unlimited (limit : option Z) (st : rvu_loop)
    (row : list cell) (rows : list (list cell)) :
  rvu_excel_rows None st (row :: rows)
  = rvu_excel_rows None (fst (rvu_excel_row limit st row)) rows.
Proof.
  now rewrite rvu_excel_rows_cons, rvu_excel_row_goes_on,
    (rvu_excel_row_step limit).
Qed.

(** The loop with a limit ends as the loop without one does on the rows up
    to some row. *)
Lemma rvu_excel_rows_cut (limit : option Z) (st : rvu_loop)
    (rows : list (list cell)) :
  exists n, rvu_excel_rows limit st rows = rvu_excel_rows None st (take n rows).
Proof.
  revert st; induction rows as [|row rows IH]; intros st.
  - exists 0%nat. reflexivity.
  - rewrite rvu_excel_rows_cons.
    destruct (snd (rvu_excel_row limit st row)).
    + exists 1%nat. cbn [take].
      now rewrite (rvu_excel_rows_unlimited limit), take_0.
    + destruct (IH (fst (rvu_excel_row limit st row))) as [n Hn].
      exists (S n). cbn [take].
      now rewrite (rvu_excel_rows_unlimited limit).
Qed.

Lemma rvu_excel_rows_invariant (limit : option Z) (rows : list (list cell))
    (st : rvu_loop) :
  (forall k r, rvu_data st !! k = Some r ->
     k <> "" /\ trimmed k /\ (String.length k <= 10)%nat /\ trimmed (desc r)) ->
  (forall k r, rvu_data (rvu_excel_rows limit st rows) !! k = Some r ->
     k <> "" /\ trimmed k /\ (String.length k <= 10)%nat /\ trimmed (desc r))
  /\ (size (rvu_data (rvu_excel_rows limit st rows)) + parsed st
      <= size (rvu_data st) + parsed (rvu_excel_rows limit st rows))%nat
  /\ (parsed st <= parsed (rvu_excel_rows limit st rows))%nat
  /\ (parsed (rvu_excel_rows limit st rows)
      + skipped (rvu_excel_rows limit st rows)
      <= parsed st + skipped st + length rows)%nat
  /\ (forall l, limit = Some l ->
       (Z.of_nat (parsed st) < l)%Z ->
       (Z.of_nat (parsed (rvu_excel_rows limit st rows)) <= l)%Z)
  /\ (forall l, limit = Some l -> (l < 0)%Z ->
       (parsed (rvu_excel_rows limit st rows) <= S (parsed st))%nat)
  /\ (forall l, limit = Some l ->
       (Z.of_nat (parsed (rvu_excel_rows limit st rows)) < l)%Z ->
       rvu_excel_rows None st rows = rvu_excel_rows limit st rows).
Proof.
  revert st; induction rows as [|row rows IH]; intros st Hst.
  { cbn [ParseExcel.rvu_excel_rows length].
    split_and!; [exact Hst|lia|lia|lia|intros; lia|intros; lia|reflexivity]. }
  rewrite (rvu_excel_rows_unlimited limit), rvu_excel_rows_cons.
  cbn [length].
  destruct (rvu_excel_row_cases limit st row) as [H|[H|(k & r & H & Hk)]];
    rewrite H; cbn [fst snd].
  - destruct (IH st Hst) as (H1 & H2 & H3 & H4 & H5 & H6 & H7).
    split_and!; [exact H1|exact H2|exact H3|lia|exact H5|exact H6|exact H7].
  - destruct (IH (mkRvuLoop (rvu_data st) (parsed st) (S (skipped st))) Hst)
      as (H1 & H2 & H3 & H4 & H5 & H6 & H7).
    cbn [rvu_data parsed skipped] in *.
    split_and!; [exact H1|exact H2|exact H3|lia|exact H5|exact H6|exact H7].
  - assert (Hst' : forall k' r', <[k := r]> (rvu_data st) !! k' = Some r' ->
              k' <> "" /\ trimmed k' /\ (String.length k' <= 10)%nat
              /\ trimmed (desc r')).
    { intros k' r'. destruct (decide (k' = k)) as [->|Hne].
      - rewrite lookup_insert_eq. now intros [= <-].
      - rewrite lookup_insert_ne by congruence. apply Hst. }
    assert (Hsize : (size (<[k := r]> (rvu_data st))
                     <= S (size (rvu_data st)))%nat).
    { pose proof (map_size_insert k r (rvu_data st)) as Hsize.
      destruct (rvu_data st !! k); unfold id in Hsize; lia. }
    destruct (limit_reached limit (S (parsed st))) eqn:Hstop.
    + apply limit_reached_bound in Hstop as (l & -> & Hne & Hle).
      cbn [rvu_data parsed skipped] in *.
      split_and!; [exact Hst'|lia|lia|lia| | |].
      * intros l0 [= <-] Hlt. lia.
      * intros l0 [= <-] Hneg. lia.
      * intros l0 [= <-] Hlt. lia.
    + destruct (IH (mkRvuLoop (<[k := r]> (rvu_data st)) (S (parsed st))
                      (skipped st)) Hst')
        as (H1 & H2 & H3 & H4 & H5 & H6 & H7).
      cbn [rvu_data parsed skipped] in *.
      assert (Hgo : forall l, limit = Some l ->
                (l = 0 \/ Z.of_nat (S (parsed st)) < l)%Z).
      { intros l ->. simpl in Hstop.
        apply andb_false_iff in Hstop as [Hz|Hle].
        - apply negb_false_iff, Z.eqb_eq in Hz. now left.
        - apply Z.leb_gt in Hle. now right. }
      split_and!; [exact H1|lia|lia|lia| | |exact H7].
      * intros l Hl Hlt. apply (H5 l Hl). destruct (Hgo l Hl); lia.
      * intros l Hl Hneg. destruct (Hgo l Hl); lia.
Qed.

(** The search for the header row. *)
Lemma rvu_header_from_found (rows : list (list cell)) (i h : nat) :
  rvu_header_from py_repr i rows = Found h ->
  (i <= h < i + length rows)%nat
  /\ forall m, (h - i < m)%nat ->
       rvu_header_from py_repr i (take m rows) = Found h.
Proof.
  revert i; induction rows as [|row rows IH]; intros i; simpl; [discriminate|].
  destruct row as [|c row]; [discriminate|].
  destruct (cell_truthy c && _) eqn:Hc.
  - intros [= <-]. split; [lia|]. intros [|m] Hm; [lia|]. simpl. now rewrite Hc.
  - intros [Hb Hm]%IH. split; [lia|]. intros [|m] Hlt; [lia|]. simpl.
    rewrite Hc. apply Hm. lia.
Qed.

Lemma rvu_excel_zero_limit (st : rvu_loop) (rows : list (list cell)) :
  rvu_excel_rows (Some 0%Z) st rows = rvu_excel_rows None st rows.
Proof.
  revert st; induction rows as [|row rows IH]; intros st; [reflexivity|].
  rewrite (rvu_excel_rows_unlimited (Some 0%Z)), rvu_excel_rows_cons.
  destruct (rvu_excel_row_cases (Some 0%Z) st row)
    as [H|[H|(k & r & H & _)]]; rewrite H; cbn [fst snd limit_reached];
    apply IH.
Qed.

(** Property X23: what a limit does. The output of [parse_rvu_excel] with a limit is
    its output without one on the sheet cut after some row. With a limit
    above zero no more rows are stored than the limit, and where fewer
    are, the output is that without a limit; a limit of zero is no limit;
    a limit below zero stops the reading at the first row stored. In all
    cases the codes stored are no more than the rows stored, the rows stored
    and the rows counted as skipped are together fewer than the rows of the
    sheet, and every code is trimmed, not empty and of ten characters at
    most. *)
Theorem limit_cuts_sheet_short (rows : list (list cell)) (limit : option Z)
    (out : rvu_loop) :
  parse_rvu_excel rows limit = Some out ->
  (exists n, parse_rvu_excel (take n rows) None = Some out)
  /\ (forall l, limit = Some l -> (0 < l)%Z ->
        (Z.of_nat (parsed out) <= l)%Z
        /\ ((Z.of_nat (parsed out) < l)%Z ->
            parse_rvu_excel rows None = Some out))
  /\ (limit = Some 0%Z -> parse_rvu_excel rows None = Some out)
  /\ (forall l, limit = Some l -> (l < 0)%Z -> (parsed out <= 1)%nat)
  /\ (size (rvu_data out) <= parsed out)%nat
  /\ (parsed out + skipped out < length rows)%nat
  /\ (forall k r, rvu_data out !! k = Some r ->
        k <> "" /\ trimmed k /\ (String.length k <= 10)%nat
        /\ trimmed (desc r)).
Proof.
  unfold ParseExcel.parse_rvu_excel.
  destruct (rvu_header_from py_repr 0 (take 20 rows)) as [h| |] eqn:Hh;
    [|discriminate..].
  intros [= Hout].
  apply rvu_header_from_found in Hh as [Hb Hcut]. rewrite length_take in Hb.
  destruct (rvu_excel_rows_invariant limit (drop (S h) rows)
              (mkRvuLoop ∅ 0 0))
    as (H1 & H2 & H3 & H4 & H5 & H6 & H7).
  { intros k r. cbn [rvu_data]. now rewrite lookup_empty. }
  rewrite Hout in H1, H2, H3, H4, H5, H6, H7.
  cbn [rvu_data parsed skipped] in H2, H3, H4, H5, H6.
  rewrite map_size_empty in H2. rewrite length_drop in H4.
  split_and!.
  - destruct (rvu_excel_rows_cut limit (mkRvuLoop ∅ 0 0) (drop (S h) rows))
      as [n Hn].
    exists (S h + n)%nat.
    rewrite take_take.
    replace (take (20 `min` (S h + n)) rows)
      with (take (20 `min` (S h + n)) (take 20 rows))
      by (rewrite take_take; f_equal; lia).
    rewrite (Hcut (20 `min` (S h + n))%nat) by lia.
    rewrite <- take_drop_commute. now rewrite <- Hn, Hout.
  - intros l -> Hl. split; [apply (H5 l eq_refl); simpl; lia|].
    intros Hlt. now rewrite (H7 l eq_refl Hlt).
  - intros ->. now rewrite <- rvu_excel_zero_limit, Hout.
  - intros l -> Hl. apply (H6 l eq_refl Hl).
  - lia.
  - lia.
  - exact H1.
Qed.

End Sheets.

(** The sheet of two localities of California and two rows of Alabama: the
    first locality of California is kept, and of Alabama the second row,
    the first holding its locality number as the whole number 0. *)
Lemma first_locality_of_state_kept_witness :
  exists data skipped,
    ParseExcel.parse_gpci_excel PyNum.float_of_str no_float_repr gpci_sheet
    = Some (data, skipped)
    /\ dom data = {["CA"; "AL"]}
    /\ (locality <$> data !! "CA") = Some "05"
    /\ ((fun r => (locality r, mp_gpci r)) <$> data !! "AL")
       = Some ("00", 1%float)
    /\ (size data + skipped < length gpci_sheet)%nat.
Proof.
  eexists _, _. split; [vm_compute; reflexivity|].
  split; [vm_compute; reflexivity|]. split; [vm_compute; reflexivity|].
  split; [vm_compute; reflexivity|].
  destruct (first_locality_of_state_kept PyNum.float_of_str no_float_repr
              gpci_sheet _ _ ltac:(vm_compute; reflexivity))
    as (h & _ & _ & _ & Hsize).
  exact Hsize.
Defined.

(** The sheet of three codes read with a limit of two. *)
Lemma limit_cuts_sheet_short_witness :
  exists out,
    ParseExcel.parse_rvu_excel PyNum.float_of_str no_float_repr rvu_sheet
      (Some 2%Z) = Some out
    /\ dom (rvu_data out) = {["99213"; "99214"]}
    /\ (desc <$> rvu_data out !! "99213") = Some "Office visit"
    /\ (mp_rvu <$> rvu_data out !! "99214") = Some 0%float
    /\ (Z.of_nat (parsed out) <= 2)%Z.
Proof.
  eexists. split; [vm_compute; reflexivity|].
  split; [vm_compute; reflexivity|]. split; [vm_compute; reflexivity|].
  split; [vm_compute; reflexivity|].
  refine (proj1 (proj1 (proj2 (limit_cuts_sheet_short PyNum.float_of_str
                                 no_float_repr rvu_sheet (Some 2%Z) _ _))
                   2%Z eq_refl _)).
  - vm_compute. reflexivity.
  - lia.
Defined.

End SheetFacts.
